(** * Token economics and session orchestration of the memory worker

    A shallow embedding of the worker-side TypeScript sources

    - [src/services/worker/TokenMetricsService.ts]
    - [src/services/worker/PerformanceTracker.ts]
    - [src/services/worker/SDKAgent.ts]
    - the worker service (the [WorkerService] class)

    together with the properties the design document states about them.

    Conventions of the embedding.

    - A JavaScript [number] that holds a count, a length, a token total or an
      epoch in milliseconds is a [Z]: such quantities stay below 2^53, where
      the additions, subtractions and comparisons of the source are exact.
      A [number] produced by a division is a binary64 value ([JS.number],
      the [spec_float] of the Standard Library at precision 53), and the
      divisions and multiplications that lead to it round as IEEE-754
      prescribes.  [Math.ceil] and [Math.round] give a [Z]; the sign of a
      zero they return is not kept.
    - [null] and [undefined] are [None]; a column or property that a row
      object does not carry reads as [None] as well.
    - A [string] is a Stdlib [string]; its [length] is the [.length] of the
      source.
    - A method that reads [Date.now()] takes the reading as the argument
      [now]; where nothing depends on the time that passes within a call,
      its readings are taken at the same instant.
    - An exception is the [Throw] completion of the result. *)

From Stdlib Require Import ZArith QArith Qround Lia List Ascii String Bool.
From Stdlib Require Import SpecFloat.
From Stdlib Require Import Sorted Permutation.
From Stdlib Require OrderedTypeEx.
From stdpp Require Import gmap strings pretty sorting.
Import ListNotations.

Local Open Scope Z_scope.
Set Warnings "-register-all".

(** ** The host language *)

Module JS.

(** A [number] is an IEEE-754 binary64 value: 53 bits of precision, the
    exponent of the largest finite value below 1024. *)
Definition number : Type := spec_float.

Definition prec : Z := 53.
Definition emax : Z := 1024.

(** The [number] nearest to an integer; the integer itself below 2^53. *)
Definition double (z : Z) : number := binary_normalize prec emax z 0 false.

(** [x / y] and [x * y], rounded to nearest, ties to even. *)
Definition Number_div (x y : number) : number := SFdiv prec emax x y.
Definition Number_mul (x y : number) : number := SFmul prec emax x y.

(** The integer [m] with the sign [s]. *)
Definition signed (s : bool) (m : positive) : Z :=
  if s then Z.neg m else Z.pos m.

(** [Math.ceil] and [Math.round] of a finite [number], as integers.
    [Math.round] rounds to the nearest integer and a tie towards plus
    infinity.  On an infinity or a NaN the source gives the argument back;
    no division of the embedded code has a zero divisor, and these cases
    read as [0] here. *)
Definition Math_ceil (x : number) : Z :=
  match x with
  | S754_finite s m e =>
      if 0 <=? e then signed s m * 2 ^ e
      else - ((- signed s m) / 2 ^ (- e))
  | _ => 0
  end.

Definition Math_round (x : number) : Z :=
  match x with
  | S754_finite s m e =>
      if 0 <=? e then signed s m * 2 ^ e
      else (2 * signed s m + 2 ^ (- e)) / 2 ^ (1 - e)
  | _ => 0
  end.

(** A finite [number] below zero. *)
Definition is_negative (x : number) : bool :=
  match x with
  | S754_finite s _ _ => s
  | _ => false
  end.

(** [x || 0] for a [number | null]. *)
Definition or0 (x : option Z) : Z :=
  match x with
  | Some v => v
  | None => 0
  end.

(** Truthiness of a [string | undefined] and of a [number | null]. *)
Definition truthy_string (s : option string) : option string :=
  match s with
  | Some EmptyString => None
  | other => other
  end.

Definition truthy_number (n : option Z) : option Z :=
  match n with
  | Some v => if v =? 0 then None else Some v
  | None => None
  end.

(** [s || d] for a [string | undefined]. *)
Definition or_string (s : option string) (d : string) : string :=
  match truthy_string s with
  | Some v => v
  | None => d
  end.

(** [String.prototype.startsWith] and [String.prototype.includes]. *)
Definition startsWith (s p : string) : bool := String.prefix p s.

Fixpoint includes (s sub : string) : bool :=
  String.prefix sub s ||
  match s with
  | EmptyString => false
  | String _ rest => includes rest sub
  end.

(** Completion of a call: a value, or a thrown error. *)
Inductive Completion (A : Type) : Type :=
| Normal (a : A)
| Throw (message : string).
Arguments Normal {A} a.
Arguments Throw {A} message.

Definition bind {A B} (c : Completion A) (k : A -> Completion B) : Completion B :=
  match c with
  | Normal a => k a
  | Throw e => Throw e
  end.

(** [try { body } catch (error) { handler }] over a state: the handler
    runs in the state the body had reached when it threw. *)
Definition try_catch {S A} (body : Completion A * S)
  (handler : string -> S -> Completion A * S) : Completion A * S :=
  match body with
  | (Normal a, s) => (Normal a, s)
  | (Throw error, s) => handler error s
  end.

(** *** JSON values and [JSON.parse] *)

Inductive JSON : Type :=
| JNull
| JBool (b : bool)
| JNumber (lexeme : string)
| JString (s : string)
| JArray (elems : list JSON)
| JObject (members : list (string * JSON)).

Definition quote : ascii := "034"%char.
Definition backslash : ascii := "\"%char.

Definition is_ws (c : ascii) : bool :=
  let n := N_of_ascii c in
  ((n =? 32) || (n =? 9) || (n =? 10) || (n =? 13))%N.

Fixpoint skip_ws (s : list ascii) : list ascii :=
  match s with
  | c :: r => if is_ws c then skip_ws r else s
  | [] => []
  end.

Definition is_digit (c : ascii) : bool :=
  let n := N_of_ascii c in ((48 <=? n) && (n <=? 57))%N.

Definition hex_value (c : ascii) : option N :=
  let n := N_of_ascii c in
  if ((48 <=? n) && (n <=? 57))%N then Some (n - 48)%N
  else if ((65 <=? n) && (n <=? 70))%N then Some (n - 55)%N
  else if ((97 <=? n) && (n <=? 102))%N then Some (n - 87)%N
  else None.

(** The character a two-character escape stands for. *)
Definition simple_escape (c : ascii) : option ascii :=
  if Ascii.eqb c quote then Some quote
  else if Ascii.eqb c backslash then Some backslash
  else if Ascii.eqb c "/" then Some "/"%char
  else if Ascii.eqb c "b" then Some "008"%char
  else if Ascii.eqb c "f" then Some "012"%char
  else if Ascii.eqb c "n" then Some "010"%char
  else if Ascii.eqb c "r" then Some "013"%char
  else if Ascii.eqb c "t" then Some "009"%char
  else None.

(** The body of a string literal, after its opening quote.  A [\uXXXX]
    escape denotes one UTF-16 code unit and contributes one character (its
    low byte: only lengths of parsed strings are observed below). *)
Fixpoint string_body (s acc : list ascii) : option (list ascii * list ascii) :=
  match s with
  | [] => None
  | c :: r =>
      if Ascii.eqb c quote then Some (rev acc, r)
      else if Ascii.eqb c backslash then
        match r with
        | [] => None
        | e :: r1 =>
            match simple_escape e with
            | Some ch => string_body r1 (ch :: acc)
            | None =>
                if Ascii.eqb e "u" then
                  match r1 with
                  | h1 :: h2 :: h3 :: h4 :: r2 =>
                      match hex_value h1, hex_value h2, hex_value h3, hex_value h4 with
                      | Some _, Some _, Some a, Some b =>
                          string_body r2 (ascii_of_N (16 * a + b) :: acc)
                      | _, _, _, _ => None
                      end
                  | _ => None
                  end
                else None
            end
        end
      else if (N_of_ascii c <? 32)%N then None
      else string_body r (c :: acc)
  end.

Fixpoint span_digits (s : list ascii) : list ascii * list ascii :=
  match s with
  | c :: r =>
      if is_digit c then let '(d, r') := span_digits r in (c :: d, r')
      else ([], s)
  | [] => ([], [])
  end.

(** A number lexeme: an optional minus sign, an integer part without a
    leading zero, an optional fraction and an optional exponent. *)
Definition number_lexeme (s : list ascii) : option (list ascii * list ascii) :=
  let '(sign, s1) :=
    match s with
    | "-"%char :: r => (["-"%char], r)
    | _ => ([], s)
    end in
  let int_part :=
    match s1 with
    | "0"%char :: r => Some (["0"%char], r)
    | _ => match span_digits s1 with
           | ([], _) => None
           | (d, r) => Some (d, r)
           end
    end in
  match int_part with
  | None => None
  | Some (i, s2) =>
      let frac :=
        match s2 with
        | "."%char :: r =>
            match span_digits r with
            | ([], _) => None
            | (d, r') => Some ("."%char :: d, r')
            end
        | _ => Some ([], s2)
        end in
      match frac with
      | None => None
      | Some (f, s3) =>
          let expo :=
            match s3 with
            | e :: r =>
                if Ascii.eqb e "e" || Ascii.eqb e "E" then
                  let '(sg, r1) :=
                    match r with
                    | "+"%char :: r' => (["+"%char], r')
                    | "-"%char :: r' => (["-"%char], r')
                    | _ => ([], r)
                    end in
                  match span_digits r1 with
                  | ([], _) => None
                  | (d, r2) => Some (e :: sg ++ d, r2)
                  end
                else Some ([], s3)
            | [] => Some ([], s3)
            end in
          match expo with
          | None => None
          | Some (x, s4) => Some (sign ++ i ++ f ++ x, s4)
          end
      end
  end.

Definition str (l : list ascii) : string := string_of_list_ascii l.
Definition chars (s : string) : list ascii := list_ascii_of_string s.

(** Recursive descent over the value grammar.  [fuel] bounds the depth of
    the calls; every call but the first follows a consumed character by at
    most two levels, so twice the length of the text is enough. *)
Fixpoint parse_value (fuel : nat) (s : list ascii) : option (JSON * list ascii) :=
  match fuel with
  | O => None
  | S fuel' =>
      match skip_ws s with
      | "n"%char :: "u"%char :: "l"%char :: "l"%char :: r => Some (JNull, r)
      | "t"%char :: "r"%char :: "u"%char :: "e"%char :: r => Some (JBool true, r)
      | "f"%char :: "a"%char :: "l"%char :: "s"%char :: "e"%char :: r =>
          Some (JBool false, r)
      | "["%char :: r =>
          match skip_ws r with
          | "]"%char :: r' => Some (JArray [], r')
          | _ => parse_elements fuel' r []
          end
      | "{"%char :: r =>
          match skip_ws r with
          | "}"%char :: r' => Some (JObject [], r')
          | _ => parse_members fuel' r []
          end
      | c :: r =>
          if Ascii.eqb c quote then
            match string_body r [] with
            | Some (body, r') => Some (JString (str body), r')
            | None => None
            end
          else
            match number_lexeme (c :: r) with
            | Some (lex, r') => Some (JNumber (str lex), r')
            | None => None
            end
      | [] => None
      end
  end

with parse_elements (fuel : nat) (s : list ascii) (acc : list JSON)
  : option (JSON * list ascii) :=
  match fuel with
  | O => None
  | S fuel' =>
      match parse_value fuel' s with
      | Some (v, r) =>
          match skip_ws r with
          | ","%char :: r' => parse_elements fuel' r' (v :: acc)
          | "]"%char :: r' => Some (JArray (rev (v :: acc)), r')
          | _ => None
          end
      | None => None
      end
  end

with parse_members (fuel : nat) (s : list ascii) (acc : list (string * JSON))
  : option (JSON * list ascii) :=
  match fuel with
  | O => None
  | S fuel' =>
      match skip_ws s with
      | c :: r =>
          if Ascii.eqb c quote then
            match string_body r [] with
            | Some (key, r1) =>
                match skip_ws r1 with
                | ":"%char :: r2 =>
                    match parse_value fuel' r2 with
                    | Some (v, r3) =>
                        match skip_ws r3 with
                        | ","%char :: r4 =>
                            parse_members fuel' r4 ((str key, v) :: acc)
                        | "}"%char :: r4 =>
                            Some (JObject (rev ((str key, v) :: acc)), r4)
                        | _ => None
                        end
                    | None => None
                    end
                | _ => None
                end
            | None => None
            end
          else None
      | [] => None
      end
  end.

(** [JSON.parse]: [None] is the thrown [SyntaxError]. *)
Definition JSON_parse (text : string) : option JSON :=
  let s := chars text in
  match parse_value (2 * List.length s + 2) s with
  | Some (v, r) =>
      match skip_ws r with
      | [] => Some v
      | _ => None
      end
  | None => None
  end.

(** Builtins of the host that the sources call and that stay abstract:
    the text [String(n)] of the number a numeric lexeme denotes, and
    [Date.parse] ([None] is its [NaN]). *)
Class Host : Type := {
  Number_toString : string -> string;
  Date_parse : string -> option Z
}.

Section Join.
Context {host : Host}.

(** [ToString] of a parsed value, and [Array.prototype.join]: an element
    that is [null] contributes the empty text, a nested array is joined
    with commas. *)
Fixpoint ToString (v : JSON) : string :=
  match v with
  | JNull => "null"
  | JBool true => "true"
  | JBool false => "false"
  | JNumber lexeme => Number_toString lexeme
  | JString s => s
  | JArray elems =>
      (fix join_commas (l : list JSON) : string :=
         match l with
         | [] => EmptyString
         | e :: r =>
             let text := match e with JNull => EmptyString | _ => ToString e end in
             match r with
             | [] => text
             | _ :: _ => String.append text (String.append "," (join_commas r))
             end
         end) elems
  | JObject _ => "[object Object]"
  end.

Definition element_text (e : JSON) : string :=
  match e with
  | JNull => EmptyString
  | _ => ToString e
  end.

Fixpoint Array_join (arr : list JSON) (separator : string) : string :=
  match arr with
  | [] => EmptyString
  | e :: r =>
      match r with
      | [] => element_text e
      | _ :: _ =>
          String.append (element_text e)
            (String.append separator (Array_join r separator))
      end
  end.
End Join.

(** *** Strings *)

(** [String.prototype.indexOf]: the position of the first occurrence, or
    [-1]. *)
Fixpoint indexOf_from (s sub : string) (position : Z) : Z :=
  if String.prefix sub s then position
  else
    match s with
    | EmptyString => -1
    | String _ rest => indexOf_from rest sub (position + 1)
    end.

Definition indexOf (s sub : string) : Z := indexOf_from s sub 0.

(** [String.prototype.substring(start, end)]: each bound is clamped to the
    string, and the two are swapped when the first is the larger. *)
Definition substring (s : string) (start : Z) (stop : option Z) : string :=
  let len := Z.of_nat (String.length s) in
  let clamp := fun x => Z.min (Z.max x 0) len in
  let finalStart := clamp start in
  let finalEnd :=
    match stop with
    | Some e => clamp e
    | None => len
    end in
  let from := Z.min finalStart finalEnd in
  let to := Z.max finalStart finalEnd in
  String.substring (Z.to_nat from) (Z.to_nat (to - from)) s.

(** White space and line terminators among the first 256 code units: tab,
    line feed, vertical tab, form feed, carriage return, space and the
    no-break space. *)
Definition is_whitespace (c : ascii) : bool :=
  let n := N_of_ascii c in
  (((9 <=? n) && (n <=? 13)) || (n =? 32) || (n =? 160))%N.

Fixpoint trimStart_chars (s : list ascii) : list ascii :=
  match s with
  | c :: r => if is_whitespace c then trimStart_chars r else s
  | [] => []
  end.

Definition trimEnd_chars (s : list ascii) : list ascii :=
  List.rev (trimStart_chars (List.rev s)).

(** [String.prototype.trim]. *)
Definition trim (s : string) : string :=
  str (trimEnd_chars (trimStart_chars (chars s))).

(** The part of [s] before the first occurrence of the character [c]:
    [s.split(c)[0]]. *)
Fixpoint first_segment (c : ascii) (s : list ascii) : list ascii :=
  match s with
  | [] => []
  | d :: r => if Ascii.eqb d c then [] else d :: first_segment c r
  end.

(** The value of a run of decimal digits. *)
Definition decimal_value (ds : list ascii) : Z :=
  List.fold_left (fun acc d => 10 * acc + Z.of_N (N_of_ascii d - 48)) ds 0.

(** [parseInt(x, 10)] of a [string | undefined]: leading white space is
    skipped, a sign is read, then the decimal digits up to the first other
    character.  [None] is [NaN], the result when no digit is found; the
    text of [undefined] has none. *)
Definition parseInt (x : option string) : option Z :=
  match x with
  | None => None
  | Some s =>
      let rest := trimStart_chars (chars s) in
      let '(sign, rest) :=
        match rest with
        | "-"%char :: r => (-1, r)
        | "+"%char :: r => (1, r)
        | _ => (1, rest)
        end in
      match fst (span_digits rest) with
      | [] => None
      | d :: ds => Some (sign * decimal_value (d :: ds))
      end
  end.

(** [x || fallback] for a [number] that may be [NaN]. *)
Definition number_or (x : option Z) (fallback : Z) : Z :=
  match truthy_number x with
  | Some v => v
  | None => fallback
  end.

End JS.

(** Arithmetic on [number]s. *)
Declare Scope number_scope.
Delimit Scope number_scope with num.
Infix "/" := JS.Number_div : number_scope.
Infix "*" := JS.Number_mul : number_scope.

(** ** The observation store *)

Module SessionStore.

(** A row of the [observations] table, with the columns the metrics read. *)
Record Observation : Type := {
  id : Z;
  type : option string;
  title : option string;
  subtitle : option string;
  narrative : option string;
  facts : option string;
  concepts : option string;
  files_read : option string;
  files_modified : option string;
  discovery_tokens : option Z;
  created_at_epoch : Z;
  project : option string
}.

(** The database handle: the table in row order, and whether the
    connection still answers.  A statement on a closed connection throws. *)
Record Database : Type := {
  observations : list Observation;
  closed : bool
}.

Definition all (db : Database) (where_ : Observation -> bool)
  : JS.Completion (list Observation) :=
  if closed db then JS.Throw "The database connection is not open"
  else JS.Normal (List.filter where_ (observations db)).


(** [ORDER BY created_at_epoch DESC]: a stable insertion of every row, so
    that rows created in the same millisecond keep their table order. *)
Fixpoint insert_desc (o : Observation) (sorted : list Observation) : list Observation :=
  match sorted with
  | [] => [o]
  | x :: rest =>
      if created_at_epoch x <=? created_at_epoch o then o :: x :: rest
      else x :: insert_desc o rest
  end.

Definition order_by_created_desc (rows : list Observation) : list Observation :=
  List.fold_right insert_desc [] rows.

(** [LIMIT n]: a negative bound does not limit. *)
Definition limit (n : Z) (rows : list Observation) : list Observation :=
  if n <? 0 then rows else List.firstn (Z.to_nat n) rows.

(** [SUM(x)] skips [NULL] and is [NULL] when nothing was added. *)
Definition SUM (xs : list (option Z)) : option Z :=
  List.fold_left
    (fun acc x =>
       match x with
       | None => acc
       | Some v => Some (JS.or0 acc + v)
       end) xs None.

(** [LENGTH(COALESCE(x, d))]. *)
Definition LENGTH_COALESCE (x : option string) (d : string) : Z :=
  match x with
  | Some s => Z.of_nat (String.length s)
  | None => Z.of_nat (String.length d)
  end.

End SessionStore.

(** ** TokenMetricsService *)

Module TokenMetricsService.
Import JS.

Definition CHARS_PER_TOKEN : Z := 4.
Definition CACHE_TTL_MS : Z := 30000.
Definition PROJECTION_CACHE_TTL_MS : Z := 300000.
Definition BROADCAST_THROTTLE_MS : Z := 1000.

Module Summary.
Record TokenSummary : Type := {
  totalObservations : Z;
  totalReadTokens : Z;
  totalDiscoveryTokens : Z;
  savings : Z;
  savingsPercent : Z;
  efficiencyGain : number;
  avgReadTokensPerObs : Z;
  avgDiscoveryTokensPerObs : Z
}.
End Summary.

Module Projection.
Record Totals : Type := {
  totalTokens : Z;
  discoveryTokens : Z;
  continuationTokens : Z
}.

Record EndlessModeProjection : Type := {
  withoutEndlessMode : Totals;
  withEndlessMode : Totals;
  tokensSaved : Z;
  percentSaved : number;
  efficiencyGain : number
}.
End Projection.

(** The object a [SELECT] yields for one row.  There is a field for every
    property the service reads from such an object; a property whose
    column the statement did not select is [None].  ([concepts],
    [files_read] and [files_modified] are read by [calculateReadTokens]
    although the [ObservationRow] interface does not declare them.) *)
Module Row.
Record ObservationRow : Type := {
  id : option Z;
  type : option string;
  title : option string;
  subtitle : option string;
  narrative : option string;
  facts : option string;
  concepts : option string;
  files_read : option string;
  files_modified : option string;
  discovery_tokens : option Z;
  created_at_epoch : option Z;
  project : option string
}.
End Row.

(** [SELECT id, type, title, subtitle, narrative, facts, discovery_tokens,
    created_at_epoch, project FROM observations], the statement of
    [getSummary]. *)
Definition select_summary_columns (o : SessionStore.Observation) : Row.ObservationRow :=
  {| Row.id := Some (SessionStore.id o);
     Row.type := SessionStore.type o;
     Row.title := SessionStore.title o;
     Row.subtitle := SessionStore.subtitle o;
     Row.narrative := SessionStore.narrative o;
     Row.facts := SessionStore.facts o;
     Row.concepts := None;
     Row.files_read := None;
     Row.files_modified := None;
     Row.discovery_tokens := SessionStore.discovery_tokens o;
     Row.created_at_epoch := Some (SessionStore.created_at_epoch o);
     Row.project := SessionStore.project o |}.

(** [SELECT id, type, title, subtitle, narrative, facts, discovery_tokens
    FROM observations], the statement of [getEndlessModeProjection]. *)
Definition select_projection_columns (o : SessionStore.Observation) : Row.ObservationRow :=
  {| Row.id := Some (SessionStore.id o);
     Row.type := SessionStore.type o;
     Row.title := SessionStore.title o;
     Row.subtitle := SessionStore.subtitle o;
     Row.narrative := SessionStore.narrative o;
     Row.facts := SessionStore.facts o;
     Row.concepts := None;
     Row.files_read := None;
     Row.files_modified := None;
     Row.discovery_tokens := SessionStore.discovery_tokens o;
     Row.created_at_epoch := None;
     Row.project := None |}.

(** [project = ?], added to the statement when [project] is truthy; a
    [NULL] project never compares equal. *)
Definition project_condition (project : option string) (o : SessionStore.Observation) : bool :=
  match truthy_string project with
  | Some p =>
      match SessionStore.project o with
      | Some q => String.eqb q p
      | None => false
      end
  | None => true
  end.

(** [created_at_epoch >= ?], added when [sinceEpoch] is truthy. *)
Definition since_condition (sinceEpoch : option Z) (o : SessionStore.Observation) : bool :=
  match truthy_number sinceEpoch with
  | Some e => e <=? SessionStore.created_at_epoch o
  | None => true
  end.

(** The entries of the cache.  The map is shared by all queries; the
    payloads of the two queries studied here are kept apart from the
    others. *)
Inductive CacheData : Type :=
| SummaryData (s : Summary.TokenSummary)
| ProjectionData (p : Projection.EndlessModeProjection)
| OtherData.

Record CacheEntry : Type := {
  data : CacheData;
  timestamp : Z
}.

(** The mutable fields of a service instance. *)
Record Service : Type := {
  cache : gmap string CacheEntry;
  lastBroadcastTime : Z
}.

Definition new_Service : Service :=
  {| cache := ∅; lastBroadcastTime := 0 |}.

Definition getCached (key : string) (ttl now : Z) (this : Service) : option CacheData :=
  match cache this !! key with
  | Some entry => if now - timestamp entry <? ttl then Some (data entry) else None
  | None => None
  end.

Definition setCache (key : string) (d : CacheData) (now : Z) (this : Service) : Service :=
  {| cache := <[key := {| data := d; timestamp := now |}]> (cache this);
     lastBroadcastTime := lastBroadcastTime this |}.

(** The test of [invalidateCache] on one key. *)
Definition invalidates (project : option string) (key : string) : bool :=
  match truthy_string project with
  | None => true
  | Some p => includes key p || startsWith key "summary:"
  end.

(** [for (const key of this.cache.keys()) if (...) this.cache.delete(key)]:
    every key present when the loop starts is visited once. *)
Definition invalidateCache (project : option string) (this : Service) : Service :=
  {| cache :=
       List.fold_left
         (fun m key => if invalidates project key then delete key m else m)
         (List.map fst (map_to_list (cache this))) (cache this);
     lastBroadcastTime := lastBroadcastTime this |}.

Definition shouldBroadcast (now : Z) (this : Service) : bool * Service :=
  if BROADCAST_THROTTLE_MS <=? now - lastBroadcastTime this then
    (true, {| cache := cache this; lastBroadcastTime := now |})
  else (false, this).

Definition estimateOriginalSize (discoveryTokens : Z) : Z := discoveryTokens * 2.

(** The match of [/^(\d+)(h|d|w)$/]: the number and the unit. *)
Fixpoint digits_value (acc : Z) (ds : list ascii) : Z :=
  match ds with
  | [] => acc
  | d :: r => digits_value (10 * acc + Z.of_N (N_of_ascii d - 48)) r
  end.

Definition match_relative (since : string) : option (Z * ascii) :=
  match List.rev (chars since) with
  | unit :: rdigits =>
      match rdigits with
      | [] => None
      | _ :: _ =>
          if List.forallb is_digit rdigits &&
             (Ascii.eqb unit "h" || Ascii.eqb unit "d" || Ascii.eqb unit "w")
          then Some (digits_value 0 (List.rev rdigits), unit)
          else None
      end
  | [] => None
  end.

Section WithHost.
Context {host : Host}.

Definition getJsonArrayContentLength (jsonStr : option string) : Z :=
  match truthy_string jsonStr with
  | None => 0
  | Some s =>
      match JSON_parse s with
      | Some (JArray arr) => Z.of_nat (String.length (Array_join arr EmptyString))
      | Some _ => Z.of_nat (String.length s)
      | None => Z.of_nat (String.length s)
      end
  end.

(** [x?.length || 0]. *)
Definition length_or0 (x : option string) : Z :=
  match x with
  | Some s => Z.of_nat (String.length s)
  | None => 0
  end.

Definition content_size (obs : Row.ObservationRow) : Z :=
  length_or0 (Row.title obs) +
  length_or0 (Row.subtitle obs) +
  length_or0 (Row.narrative obs) +
  getJsonArrayContentLength (Row.facts obs) +
  getJsonArrayContentLength (Row.concepts obs) +
  getJsonArrayContentLength (Row.files_read obs) +
  getJsonArrayContentLength (Row.files_modified obs).

Definition calculateReadTokens (obs : Row.ObservationRow) : Z :=
  Math_ceil (double (content_size obs) / double CHARS_PER_TOKEN)%num.

(** [parseSince].  The number of the match, its products with the unit
    and the difference with [now] are taken on integers, as the
    conventions of the embedding have it: they are the values of the
    source as long as the milliseconds of the period and [now] stay
    below [2 ^ 53], where binary64 holds every integer. *)
Definition parseSince (now : Z) (since : option string) : option Z :=
  match truthy_string since with
  | None => None
  | Some s =>
      match match_relative s with
      | Some (value, unit) =>
          let ms :=
            if Ascii.eqb unit "h" then value * 60 * 60 * 1000
            else if Ascii.eqb unit "d" then value * 24 * 60 * 60 * 1000
            else value * 7 * 24 * 60 * 60 * 1000 in
          Some (now - ms)
      | None => Date_parse s
      end
  end.

(** The body of [getSummary] after the rows are fetched. *)
Definition summary_totals (observations : list Row.ObservationRow) : Z * Z :=
  List.fold_left
    (fun '(totalReadTokens, totalDiscoveryTokens) obs =>
       (totalReadTokens + calculateReadTokens obs,
        totalDiscoveryTokens + or0 (Row.discovery_tokens obs)))
    observations (0, 0).

Definition summarize (observations : list Row.ObservationRow) : Summary.TokenSummary :=
  let '(totalReadTokens, totalDiscoveryTokens) := summary_totals observations in
  let totalObservations := Z.of_nat (List.length observations) in
  let savings := totalDiscoveryTokens - totalReadTokens in
  let savingsPercent :=
    if 0 <? totalDiscoveryTokens
    then Math_round (double savings / double totalDiscoveryTokens * double 100)%num
    else 0 in
  let efficiencyGain :=
    if 0 <? totalReadTokens
    then (double (Math_round
            (double totalDiscoveryTokens / double totalReadTokens * double 10))
          / double 10)%num
    else double 0 in
  {| Summary.totalObservations := totalObservations;
     Summary.totalReadTokens := totalReadTokens;
     Summary.totalDiscoveryTokens := totalDiscoveryTokens;
     Summary.savings := savings;
     Summary.savingsPercent := savingsPercent;
     Summary.efficiencyGain := efficiencyGain;
     Summary.avgReadTokensPerObs :=
       if 0 <? totalObservations
       then Math_round (double totalReadTokens / double totalObservations)%num
       else 0;
     Summary.avgDiscoveryTokensPerObs :=
       if 0 <? totalObservations
       then Math_round (double totalDiscoveryTokens / double totalObservations)%num
       else 0 |}.

Definition zero_summary : Summary.TokenSummary :=
  {| Summary.totalObservations := 0;
     Summary.totalReadTokens := 0;
     Summary.totalDiscoveryTokens := 0;
     Summary.savings := 0;
     Summary.savingsPercent := 0;
     Summary.efficiencyGain := double 0;
     Summary.avgReadTokensPerObs := 0;
     Summary.avgDiscoveryTokensPerObs := 0 |}.

(** [entry.data as TokenSummary].  Only [getSummary] stores under a key
    that starts with [summary:], so the other cases do not arise. *)
Definition as_TokenSummary (d : CacheData) : Summary.TokenSummary :=
  match d with
  | SummaryData s => s
  | _ => zero_summary
  end.

Definition summary_cacheKey (project since : option string) : string :=
  "summary:" +:+ or_string project "all" +:+ ":" +:+ or_string since "all".

Definition getSummary (project since : option string) (now : Z)
  (db : SessionStore.Database) (this : Service)
  : Completion Summary.TokenSummary * Service :=
  let cacheKey := summary_cacheKey project since in
  match getCached cacheKey CACHE_TTL_MS now this with
  | Some cached => (Normal (as_TokenSummary cached), this)
  | None =>
      let sinceEpoch := parseSince now since in
      match SessionStore.all db
              (fun o => project_condition project o && since_condition sinceEpoch o) with
      | Throw e => (Throw e, this)
      | Normal rows =>
          let result := summarize (List.map select_summary_columns rows) in
          (Normal result, setCache cacheKey (SummaryData result) now this)
      end
  end.

(** *** The endless-mode projection *)

(** The three counters of one simulation loop. *)
Record Simulation : Type := {
  cumulativeContext : Z;
  totalDiscovery : Z;
  totalContinuation : Z
}.

Definition start : Simulation :=
  {| cumulativeContext := 0; totalDiscovery := 0; totalContinuation := 0 |}.

Definition without_step (s : Simulation) (obs : Row.ObservationRow) : Simulation :=
  let discoveryTokens := or0 (Row.discovery_tokens obs) in
  let originalSize := estimateOriginalSize discoveryTokens in
  let withoutTotalDiscovery := totalDiscovery s + discoveryTokens in
  let withoutCumulativeContext := cumulativeContext s + originalSize in
  {| cumulativeContext := withoutCumulativeContext;
     totalDiscovery := withoutTotalDiscovery;
     totalContinuation := totalContinuation s + withoutCumulativeContext |}.

Definition with_step (s : Simulation) (obs : Row.ObservationRow) : Simulation :=
  let discoveryTokens := or0 (Row.discovery_tokens obs) in
  let compressedSize := calculateReadTokens obs in
  let withTotalDiscovery := totalDiscovery s + discoveryTokens in
  let withCumulativeContext := cumulativeContext s + compressedSize in
  {| cumulativeContext := withCumulativeContext;
     totalDiscovery := withTotalDiscovery;
     totalContinuation := totalContinuation s + withCumulativeContext |}.

Definition empty_projection : Projection.EndlessModeProjection :=
  {| Projection.withoutEndlessMode :=
       {| Projection.totalTokens := 0;
          Projection.discoveryTokens := 0;
          Projection.continuationTokens := 0 |};
     Projection.withEndlessMode :=
       {| Projection.totalTokens := 0;
          Projection.discoveryTokens := 0;
          Projection.continuationTokens := 0 |};
     Projection.tokensSaved := 0;
     Projection.percentSaved := double 0;
     Projection.efficiencyGain := double 0 |}.

(** The body of [getEndlessModeProjection] after the rows are fetched. *)
Definition simulate (observations : list Row.ObservationRow)
  : Projection.EndlessModeProjection :=
  match observations with
  | [] => empty_projection
  | _ :: _ =>
      let without := List.fold_left without_step observations start in
      let with_ := List.fold_left with_step observations start in
      let withoutTotal := totalDiscovery without + totalContinuation without in
      let withTotal := totalDiscovery with_ + totalContinuation with_ in
      let tokensSaved := withoutTotal - withTotal in
      let percentSaved :=
        if 0 <? withoutTotal
        then (double (Math_round
                (double tokensSaved / double withoutTotal * double 1000))
              / double 10)%num
        else double 0 in
      let efficiencyGain :=
        if 0 <? withTotal
        then (double (Math_round
                (double withoutTotal / double withTotal * double 10))
              / double 10)%num
        else double 0 in
      {| Projection.withoutEndlessMode :=
           {| Projection.totalTokens := withoutTotal;
              Projection.discoveryTokens := totalDiscovery without;
              Projection.continuationTokens := totalContinuation without |};
         Projection.withEndlessMode :=
           {| Projection.totalTokens := withTotal;
              Projection.discoveryTokens := totalDiscovery with_;
              Projection.continuationTokens := totalContinuation with_ |};
         Projection.tokensSaved := tokensSaved;
         Projection.percentSaved := percentSaved;
         Projection.efficiencyGain := efficiencyGain |}
  end.

(** [entry.data as EndlessModeProjection]; only
    [getEndlessModeProjection] stores under a [projection:] key. *)
Definition as_EndlessModeProjection (d : CacheData) : Projection.EndlessModeProjection :=
  match d with
  | ProjectionData p => p
  | _ => empty_projection
  end.

Definition projection_cacheKey (project : option string) (observationCount : Z) : string :=
  "projection:" +:+ or_string project "all" +:+ ":" +:+ pretty observationCount.

(** The rows of [SELECT ... WHERE project = ? ORDER BY created_at_epoch
    DESC LIMIT ?]. *)
Definition recent_observations (project : option string) (observationCount : Z)
  (db : SessionStore.Database) : Completion (list SessionStore.Observation) :=
  bind (SessionStore.all db (project_condition project))
    (fun rows =>
       Normal (SessionStore.limit observationCount
                 (SessionStore.order_by_created_desc rows))).

Definition getEndlessModeProjection (project : option string) (observationCount : Z)
  (now : Z) (db : SessionStore.Database) (this : Service)
  : Completion Projection.EndlessModeProjection * Service :=
  let cacheKey := projection_cacheKey project observationCount in
  match getCached cacheKey PROJECTION_CACHE_TTL_MS now this with
  | Some cached => (Normal (as_EndlessModeProjection cached), this)
  | None =>
      match recent_observations project observationCount db with
      | Throw e => (Throw e, this)
      | Normal rows =>
          let result := simulate (List.map select_projection_columns rows) in
          (Normal result, setCache cacheKey (ProjectionData result) now this)
      end
  end.
End WithHost.

(** *** The quick summary *)

Module Quick.
Record QuickSummary : Type := {
  totalDiscoveryTokens : Z;
  totalReadTokens : Z;
  savings : Z;
  savingsPercent : Z
}.
End Quick.

(** [CAST((LENGTH(COALESCE(title, '')) + LENGTH(COALESCE(subtitle, '')) +
    LENGTH(COALESCE(narrative, '')) + LENGTH(COALESCE(facts, '[]'))) / 4.0
    AS INTEGER)]: the cast of a real truncates. *)
Definition sql_read_tokens (o : SessionStore.Observation) : Z :=
  Z.quot
    (SessionStore.LENGTH_COALESCE (SessionStore.title o) EmptyString +
     SessionStore.LENGTH_COALESCE (SessionStore.subtitle o) EmptyString +
     SessionStore.LENGTH_COALESCE (SessionStore.narrative o) EmptyString +
     SessionStore.LENGTH_COALESCE (SessionStore.facts o) "[]")
    CHARS_PER_TOKEN.

Definition getQuickSummary (db : SessionStore.Database) : Completion Quick.QuickSummary :=
  bind (SessionStore.all db (fun _ => true))
    (fun rows =>
       let discovery := SessionStore.SUM (List.map SessionStore.discovery_tokens rows) in
       let read_tokens := SessionStore.SUM (List.map (fun o => Some (sql_read_tokens o)) rows) in
       let totalDiscoveryTokens := or0 discovery in
       let totalReadTokens := or0 read_tokens in
       let savings := totalDiscoveryTokens - totalReadTokens in
       let savingsPercent :=
         if 0 <? totalDiscoveryTokens
         then Math_round (double savings / double totalDiscoveryTokens * double 100)%num
         else 0 in
       Normal {| Quick.totalDiscoveryTokens := totalDiscoveryTokens;
                 Quick.totalReadTokens := totalReadTokens;
                 Quick.savings := savings;
                 Quick.savingsPercent := savingsPercent |}).

(** *** The time series *)

Module Series.
(** A row of the grouped statement of [getTimeSeries]. *)
Record Row : Type := {
  date : string;
  observations : Z;
  discovery_tokens : option Z;
  read_tokens : option Z
}.

Record TokenTimeSeries : Type := {
  point_date : string;
  point_observations : Z;
  readTokens : Z;
  discoveryTokens : Z;
  cumulativeRead : Z;
  cumulativeDiscovery : Z
}.
End Series.

(** [rows.map(row => ...)] with its two running totals. *)
Fixpoint series_from (cumulativeRead cumulativeDiscovery : Z) (rows : list Series.Row)
  : list Series.TokenTimeSeries :=
  match rows with
  | [] => []
  | row :: rest =>
      let cumulativeRead := cumulativeRead + or0 (Series.read_tokens row) in
      let cumulativeDiscovery := cumulativeDiscovery + or0 (Series.discovery_tokens row) in
      {| Series.point_date := Series.date row;
         Series.point_observations := Series.observations row;
         Series.readTokens := or0 (Series.read_tokens row);
         Series.discoveryTokens := or0 (Series.discovery_tokens row);
         Series.cumulativeRead := cumulativeRead;
         Series.cumulativeDiscovery := cumulativeDiscovery |}
      :: series_from cumulativeRead cumulativeDiscovery rest
  end.

(** [GROUP BY date ORDER BY date ASC]: the distinct dates in ascending
    order of their text. *)
Fixpoint insert_date (d : string) (dates : list string) : list string :=
  match dates with
  | [] => [d]
  | x :: rest =>
      if String.eqb d x then dates
      else if String.ltb d x then d :: dates
      else x :: insert_date d rest
  end.

Definition distinct_dates (dates : list string) : list string :=
  List.fold_right insert_date [] dates.

Section TimeSeries.
Context {host : Host}.

(** The date functions of the database are taken as given: the texts of
    [strftime('%Y-%m-%d %H:00', ...)], [strftime('%Y-W%W', ...)] and
    [date(...)] for a time in seconds since the epoch. *)
Variables strftime_hour strftime_week date_of : Z -> string.

(** The [dateFormat] expression on a row; [created_at_epoch / 1000] is a
    division of integers. *)
Definition dateFormat (granularity : string) (o : SessionStore.Observation) : string :=
  let seconds := Z.quot (SessionStore.created_at_epoch o) 1000 in
  if String.eqb granularity "hour" then strftime_hour seconds
  else if String.eqb granularity "week" then strftime_week seconds
  else date_of seconds.

(** The rows of the grouped statement over the matching observations. *)
Definition time_series_rows (granularity : string)
  (matching : list SessionStore.Observation) : list Series.Row :=
  List.map
    (fun d =>
       let group :=
         List.filter (fun o => String.eqb (dateFormat granularity o) d) matching in
       {| Series.date := d;
          Series.observations := Z.of_nat (List.length group);
          Series.discovery_tokens :=
            SessionStore.SUM (List.map SessionStore.discovery_tokens group);
          Series.read_tokens :=
            SessionStore.SUM (List.map (fun o => Some (sql_read_tokens o)) group) |})
    (distinct_dates (List.map (dateFormat granularity) matching)).

Definition time_series_cacheKey (project : option string) (since granularity : string)
  : string :=
  "time-series:" +:+ or_string project "all" +:+ ":" +:+ since +:+ ":" +:+ granularity.

(** [getTimeSeries].  The cache keeps the payload of a time series as
    [OtherData]; a call that finds a fresh entry returns that payload, and
    is [None] here. *)
Definition getTimeSeries (project since granularity : option string) (now : Z)
  (db : SessionStore.Database) (this : Service)
  : option (Completion (list Series.TokenTimeSeries * string) * Service) :=
  let since := match since with Some s => s | None => "30d" end in
  let granularity := match granularity with Some g => g | None => "day" end in
  let cacheKey := time_series_cacheKey project since granularity in
  match getCached cacheKey CACHE_TTL_MS now this with
  | Some _ => None
  | None =>
      let sinceEpoch :=
        number_or (parseSince now (Some since)) (now - 30 * 24 * 60 * 60 * 1000) in
      Some
        match SessionStore.all db
                (fun o => (sinceEpoch <=? SessionStore.created_at_epoch o) &&
                          project_condition project o) with
        | Throw e => (Throw e, this)
        | Normal matching =>
            let series := series_from 0 0 (time_series_rows granularity matching) in
            (Normal (series, granularity), setCache cacheKey OtherData now this)
        end
  end.
End TimeSeries.

End TokenMetricsService.

(** ** PerformanceTracker *)

Module PerformanceTracker.
Import JS.

Module Queue.
Record QueueHistoryPoint : Type := {
  timestamp : Z;
  queueDepth : Z;
  activeSessions : Z
}.

Record Stats : Type := {
  avgQueueDepth : number;
  peakQueueDepth : Z
}.

Record QueueHistoryResponse : Type := {
  history : list QueueHistoryPoint;
  stats : Stats
}.
End Queue.

Record ProcessingTimeRecord : Type := {
  timestamp : Z;
  duration : Z;
  toolName : string;
  discoveryTokens : Z;
  observationCount : Z
}.

Record PerformanceStats : Type := {
  avgProcessingTime : Z;
  p50ProcessingTime : Z;
  p95ProcessingTime : Z;
  avgQueueDepth : number;
  peakQueueDepth : Z;
  observationsPerMinute : number
}.

Record ProcessingTimesResponse : Type := {
  times : list ProcessingTimeRecord;
  stats : PerformanceStats
}.

Record Tracker : Type := {
  queueHistory : list Queue.QueueHistoryPoint;
  processingTimes : list ProcessingTimeRecord;
  lastSampleTime : Z
}.

Definition MAX_QUEUE_HISTORY : Z := 1000.
Definition MAX_PROCESSING_TIMES : Z := 500.
Definition SAMPLE_INTERVAL_MS : Z := 5000.

Definition new_Tracker : Tracker :=
  {| queueHistory := []; processingTimes := []; lastSampleTime := 0 |}.

(** [array.shift()] when the array grew beyond [max]. *)
Definition trim {A} (max : Z) (l : list A) : list A :=
  if max <? Z.of_nat (List.length l) then List.tl l else l.

Definition recordQueueSample (queueDepth activeSessions now : Z) (this : Tracker) : Tracker :=
  if now - lastSampleTime this <? SAMPLE_INTERVAL_MS then this
  else
    {| queueHistory :=
         trim MAX_QUEUE_HISTORY
           (queueHistory this ++
            [{| Queue.timestamp := now;
                Queue.queueDepth := queueDepth;
                Queue.activeSessions := activeSessions |}]);
       processingTimes := processingTimes this;
       lastSampleTime := now |}.

Definition recordProcessingTime (record : ProcessingTimeRecord) (this : Tracker) : Tracker :=
  {| queueHistory := queueHistory this;
     processingTimes := trim MAX_PROCESSING_TIMES (processingTimes this ++ [record]);
     lastSampleTime := lastSampleTime this |}.

(** [array.slice(-limit)]: the last [limit] elements for a positive
    [limit], the whole array for [0], and the array without its first
    [-limit] elements for a negative one. *)
Definition slice_from_end {A} (limit : Z) (l : list A) : list A :=
  let len := Z.of_nat (List.length l) in
  let relative := - limit in
  let k := if relative <? 0 then Z.max (len + relative) 0 else Z.min relative len in
  List.skipn (Z.to_nat k) l.

(** [array.sort((a, b) => a - b)]. *)
Fixpoint insert_sorted (x : Z) (sorted : list Z) : list Z :=
  match sorted with
  | [] => [x]
  | y :: rest => if x <=? y then x :: y :: rest else y :: insert_sorted x rest
  end.

Definition sort_numeric (l : list Z) : list Z := List.fold_right insert_sorted [] l.

(** [array.reduce((a, b) => a + b, 0)]. *)
Definition sum (l : list Z) : Z := List.fold_left Z.add l 0.

(** [sortedArray[Math.max(0, Math.min(index, length - 1))]]; reading an
    empty array gives [undefined], which no caller does. *)
Definition percentile (sortedArray : list Z) (p : Z) : Z :=
  match sortedArray with
  | [] => 0
  | _ :: _ =>
      let len := Z.of_nat (List.length sortedArray) in
      let index := Math_ceil (double p / double 100 * double len)%num - 1 in
      List.nth (Z.to_nat (Z.max 0 (Z.min index (len - 1)))) sortedArray 0
  end.

Definition default_limit : Z := 100.

(** [parseSince(since) || fallback]. *)
Definition or_number (x : option Z) (fallback : Z) : Z :=
  match truthy_number x with
  | Some v => v
  | None => fallback
  end.

Section WithHost.
Context {host : Host}.

(** The private [parseSince] repeats the one of the token service, and is
    embedded the same way. *)
Definition parseSince (now : Z) (since : option string) : option Z :=
  match truthy_string since with
  | None => None
  | Some s =>
      match TokenMetricsService.match_relative s with
      | Some (value, unit) =>
          let ms :=
            if Ascii.eqb unit "h" then value * 60 * 60 * 1000
            else if Ascii.eqb unit "d" then value * 24 * 60 * 60 * 1000
            else value * 7 * 24 * 60 * 60 * 1000 in
          Some (now - ms)
      | None => Date_parse s
      end
  end.

Definition getQueueHistory (since : option string) (limit : option Z) (now : Z)
  (this : Tracker) : Queue.QueueHistoryResponse :=
  let limit := match limit with Some n => n | None => default_limit end in
  let sinceEpoch := or_number (parseSince now since) (now - 60 * 60 * 1000) in
  let filtered :=
    slice_from_end limit
      (List.filter (fun p => sinceEpoch <=? Queue.timestamp p) (queueHistory this)) in
  let depths := List.map Queue.queueDepth filtered in
  let avgQueueDepth :=
    match depths with
    | [] => double 0
    | _ :: _ =>
        (double (Math_round
           (double (sum depths) / double (Z.of_nat (List.length depths)) * double 10))
         / double 10)%num
    end in
  let peakQueueDepth :=
    match depths with
    | [] => 0
    | d :: rest => List.fold_left Z.max rest d
    end in
  {| Queue.history := filtered;
     Queue.stats := {| Queue.avgQueueDepth := avgQueueDepth;
                       Queue.peakQueueDepth := peakQueueDepth |} |}.

Definition getProcessingTimes (since : option string) (limit : option Z)
  (now now_queue : Z) (this : Tracker) : ProcessingTimesResponse :=
  let limit := match limit with Some n => n | None => default_limit end in
  let sinceEpoch := or_number (parseSince now since) (now - 24 * 60 * 60 * 1000) in
  let filtered :=
    slice_from_end limit
      (List.filter (fun p => sinceEpoch <=? timestamp p) (processingTimes this)) in
  let durations := sort_numeric (List.map duration filtered) in
  let queueStats := getQueueHistory since None now_queue this in
  let processing :=
    match durations, filtered with
    | _ :: _, first :: _ =>
        let timeSpan := timestamp (List.last filtered first) - timestamp first in
        let effectiveTimeSpan := Z.max timeSpan 1 in
        let totalObservations :=
          List.fold_left
            (fun sum r => sum + (if observationCount r =? 0 then 1 else observationCount r))
            filtered 0 in
        (Math_round
           (double (sum durations) / double (Z.of_nat (List.length durations)))%num,
         percentile durations 50,
         percentile durations 95,
         (double (Math_round
            (double totalObservations /
             (double effectiveTimeSpan / double 60000) * double 10))
          / double 10)%num)
    | _, _ => (0, 0, 0, double 0)
    end in
  let '(avg, p50, p95, perMinute) := processing in
  {| times := filtered;
     stats :=
       {| avgProcessingTime := avg;
          p50ProcessingTime := p50;
          p95ProcessingTime := p95;
          avgQueueDepth := Queue.avgQueueDepth (Queue.stats queueStats);
          peakQueueDepth := Queue.peakQueueDepth (Queue.stats queueStats);
          observationsPerMinute := perMinute |} |}.
(** [getCurrentStats]: the statistics of the last hour. *)
Definition getCurrentStats (now now_queue : Z) (this : Tracker) : PerformanceStats :=
  stats (getProcessingTimes (Some "1h") None now now_queue this).
End WithHost.

(** [clear]: both histories are emptied; [lastSampleTime] is not
    assigned. *)
Definition clear (this : Tracker) : Tracker :=
  {| queueHistory := [];
     processingTimes := [];
     lastSampleTime := lastSampleTime this |}.

End PerformanceTracker.

(** ** SDKAgent *)

Module SDKAgent.
Import JS.

(** The [usage] record of an assistant reply. *)
Record Usage : Type := {
  input_tokens : option Z;
  output_tokens : option Z;
  cache_creation_input_tokens : option Z;
  cache_read_input_tokens : option Z
}.

Record ContentBlock : Type := {
  block_type : string;
  text : string
}.

Inductive Content : Type :=
| Blocks (blocks : list ContentBlock)
| Text (s : string)
| OtherContent.

Inductive SDKMessage : Type :=
| Assistant (content : Content) (usage : option Usage)
| Result (subtype : string)
| OtherMessage.

(** The fields of an [ActiveSession] that the agent reads or writes (the
    declaration is in [worker-types], which is not among the sources). *)
Record ActiveSession : Type := {
  sessionDbId : Z;
  claudeSessionId : string;
  sdkSessionId : option string;
  project : string;
  userPrompt : string;
  lastPromptNumber : Z;
  cumulativeInputTokens : Z;
  cumulativeOutputTokens : Z;
  pendingProcessingIds : list Z
}.

Definition set_lastPromptNumber (n : Z) (s : ActiveSession) : ActiveSession :=
  {| sessionDbId := sessionDbId s;
     claudeSessionId := claudeSessionId s;
     sdkSessionId := sdkSessionId s;
     project := project s;
     userPrompt := userPrompt s;
     lastPromptNumber := n;
     cumulativeInputTokens := cumulativeInputTokens s;
     cumulativeOutputTokens := cumulativeOutputTokens s;
     pendingProcessingIds := pendingProcessingIds s |}.

Definition add_tokens (input output : Z) (s : ActiveSession) : ActiveSession :=
  {| sessionDbId := sessionDbId s;
     claudeSessionId := claudeSessionId s;
     sdkSessionId := sdkSessionId s;
     project := project s;
     userPrompt := userPrompt s;
     lastPromptNumber := lastPromptNumber s;
     cumulativeInputTokens := cumulativeInputTokens s + input;
     cumulativeOutputTokens := cumulativeOutputTokens s + output;
     pendingProcessingIds := pendingProcessingIds s |}.

Definition clear_pendingProcessingIds (s : ActiveSession) : ActiveSession :=
  {| sessionDbId := sessionDbId s;
     claudeSessionId := claudeSessionId s;
     sdkSessionId := sdkSessionId s;
     project := project s;
     userPrompt := userPrompt s;
     lastPromptNumber := lastPromptNumber s;
     cumulativeInputTokens := cumulativeInputTokens s;
     cumulativeOutputTokens := cumulativeOutputTokens s;
     pendingProcessingIds := [] |}.

(** *** The message generator *)

Inductive PendingMessageType : Type := observation | summarize.

Record PendingMessage : Type := {
  type : PendingMessageType;
  tool_name : option string;
  tool_input : JSON;
  tool_response : JSON;
  cwd : option string;
  prompt_number : option Z;
  last_user_message : option string;
  last_assistant_message : option string
}.

(** A frame handed to the analyzer; each constructor stands for the prompt
    builder of the same name applied to these arguments. *)
Inductive Frame : Type :=
| InitPrompt (project claudeSessionId userPrompt : string)
| ContinuationPrompt (userPrompt : string) (promptNumber : Z) (claudeSessionId : string)
| ObservationPrompt (tool_name : option string) (tool_input tool_response : JSON)
    (cwd : option string)
| SummaryPrompt (sessionDbId : Z) (sdkSessionId : option string)
    (project userPrompt last_user_message last_assistant_message : string).

Definition first_frame (session : ActiveSession) : Frame :=
  if lastPromptNumber session =? 1
  then InitPrompt (project session) (claudeSessionId session) (userPrompt session)
  else ContinuationPrompt (userPrompt session) (lastPromptNumber session)
         (claudeSessionId session).

(** One turn of the [for await] loop of [createMessageGenerator]: the
    session after the turn, and the frame it yields. *)
Definition generator_step (session : ActiveSession) (message : PendingMessage)
  : ActiveSession * Frame :=
  match type message with
  | observation =>
      let session :=
        match prompt_number message with
        | Some n => set_lastPromptNumber n session
        | None => session
        end in
      (session,
       ObservationPrompt (tool_name message) (tool_input message)
         (tool_response message) (cwd message))
  | summarize =>
      (session,
       SummaryPrompt (sessionDbId session) (sdkSessionId session) (project session)
         (userPrompt session)
         (or_string (last_user_message message) EmptyString)
         (or_string (last_assistant_message message) EmptyString))
  end.

(** What the analyzer receives with a frame: the frame, and the value
    [session.lastPromptNumber] has at that moment. *)
Record Yield : Type := {
  frame : Frame;
  lastPromptNumber_at_yield : Z
}.

Fixpoint pump (session : ActiveSession) (messages : list PendingMessage)
  : list Yield * ActiveSession :=
  match messages with
  | [] => ([], session)
  | message :: rest =>
      let '(session1, f) := generator_step session message in
      let '(yields, final) := pump session1 rest in
      ({| frame := f; lastPromptNumber_at_yield := lastPromptNumber session1 |} :: yields,
       final)
  end.

Definition createMessageGenerator (session : ActiveSession) (messages : list PendingMessage)
  : list Yield * ActiveSession :=
  let '(yields, final) := pump session messages in
  ({| frame := first_frame session;
      lastPromptNumber_at_yield := lastPromptNumber session |} :: yields,
   final).

(** *** Token accounting *)

Definition newline : string := String "010"%char EmptyString.

Definition textContent (content : Content) : string :=
  match content with
  | Blocks blocks =>
      String.concat newline
        (List.map text (List.filter (fun c => String.eqb (block_type c) "text") blocks))
  | Text s => s
  | OtherContent => EmptyString
  end.

(** [if (usage) { ... }]. *)
Definition track_usage (usage : option Usage) (session : ActiveSession) : ActiveSession :=
  match usage with
  | None => session
  | Some u =>
      let session := add_tokens (or0 (input_tokens u)) (or0 (output_tokens u)) session in
      match truthy_number (cache_creation_input_tokens u) with
      | Some created => add_tokens created 0 session
      | None => session
      end
  end.

(** The same reply with another [cache_read_input_tokens]. *)
Definition with_cache_read (read : option Z) (usage : option Usage) : option Usage :=
  match usage with
  | Some u =>
      Some {| input_tokens := input_tokens u;
              output_tokens := output_tokens u;
              cache_creation_input_tokens := cache_creation_input_tokens u;
              cache_read_input_tokens := read |}
  | None => None
  end.

(** What a [usage] adds to the cumulative input and output counts. *)
Definition usage_input (usage : option Usage) : Z :=
  match usage with
  | Some u => or0 (input_tokens u) + or0 (cache_creation_input_tokens u)
  | None => 0
  end.

Definition usage_output (usage : option Usage) : Z :=
  match usage with
  | Some u => or0 (output_tokens u)
  | None => 0
  end.

(** *** Processing a reply *)

(** The capabilities of the loosely typed [worker] argument that the agent
    tests before it uses them. *)
Record WorkerHandle : Type := {
  has_sseBroadcaster : bool;
  has_broadcastProcessingStatus : bool
}.

Section WithCollaborators.
(** The parser and the store are not among the sources; they are taken
    as given.  A store call either throws, or yields the new store with
    the row [id] and its [createdAtEpoch]. *)
Variables ParsedObservation ParsedSummary Store : Type.
Variable parseObservations : string -> string -> list ParsedObservation.
Variable parseSummary : string -> Z -> option ParsedSummary.
Variable observation_type : ParsedObservation -> option string.
Variable storeObservation :
  Store -> string -> string -> ParsedObservation -> Z -> Z -> Completion (Store * (Z * Z)).
Variable storeSummary :
  Store -> string -> string -> ParsedSummary -> Z -> Z -> Completion (Store * (Z * Z)).

(** The calls the agent makes on its collaborators, in order. *)
Inductive Effect : Type :=
| StoredObservation (claudeSessionId project : string) (obs : ParsedObservation)
    (promptNumber discoveryTokens id createdAtEpoch : Z)
| SyncObservation (id : Z) (obs : ParsedObservation)
    (promptNumber createdAtEpoch discoveryTokens : Z)
| SseNewObservation (id : Z) (obs : ParsedObservation) (promptNumber createdAtEpoch : Z)
| BroadcastTokenUpdate
| RecordObservationProcessed (toolTypes : string)
    (durationMs discoveryTokens observationCount : Z)
| StoredSummary (claudeSessionId project : string) (summary : ParsedSummary)
    (promptNumber discoveryTokens id createdAtEpoch : Z)
| SyncSummary (id : Z) (summary : ParsedSummary)
    (promptNumber createdAtEpoch discoveryTokens : Z)
| SseNewSummary (id : Z) (summary : ParsedSummary) (promptNumber createdAtEpoch : Z)
| MarkProcessed (messageId : Z)
| CleanupProcessed (keep : Z)
| BroadcastProcessingStatus.

Record World : Type := {
  store : Store;
  effects : list Effect
}.

Definition emit (es : list Effect) (w : World) : World :=
  {| store := store w; effects := effects w ++ es |}.

Definition with_sse (worker : option WorkerHandle) : bool :=
  match worker with
  | Some h => has_sseBroadcaster h
  | None => false
  end.

Definition markMessagesProcessed (session : ActiveSession) (worker : option WorkerHandle)
  (w : World) : ActiveSession * World :=
  let '(session, w) :=
    match pendingProcessingIds session with
    | [] => (session, w)
    | _ :: _ =>
        (clear_pendingProcessingIds session,
         emit (List.map MarkProcessed (pendingProcessingIds session) ++
               [CleanupProcessed 100]) w)
    end in
  match worker with
  | Some h =>
      if has_broadcastProcessingStatus h
      then (session, emit [BroadcastProcessingStatus] w)
      else (session, w)
  | None => (session, w)
  end.

(** [for (const obs of observations) { ... }] of [processSDKResponse]. *)
Fixpoint store_observations (session : ActiveSession) (worker : option WorkerHandle)
  (discoveryTokens : Z) (observations : list ParsedObservation) (w : World)
  : Completion unit * World :=
  match observations with
  | [] => (Normal tt, w)
  | obs :: rest =>
      match storeObservation (store w) (claudeSessionId session) (project session) obs
              (lastPromptNumber session) discoveryTokens with
      | Throw e => (Throw e, w)
      | Normal (store', (obsId, createdAtEpoch)) =>
          let w := {| store := store'; effects := effects w |} in
          let w :=
            emit [StoredObservation (claudeSessionId session) (project session) obs
                    (lastPromptNumber session) discoveryTokens obsId createdAtEpoch;
                  SyncObservation obsId obs (lastPromptNumber session) createdAtEpoch
                    discoveryTokens] w in
          let w :=
            if with_sse worker
            then emit [SseNewObservation obsId obs (lastPromptNumber session)
                         createdAtEpoch;
                       BroadcastTokenUpdate] w
            else w in
          store_observations session worker discoveryTokens rest w
      end
  end.

Definition toolTypes (observations : list ParsedObservation) : string :=
  String.concat ","
    (List.map (fun o => or_string (observation_type o) "unknown") observations).

Definition processSDKResponse (session : ActiveSession) (text : string)
  (worker : option WorkerHandle) (discoveryTokens : Z) (processingStart finished : Z)
  (w : World) : Completion unit * ActiveSession * World :=
  let observations := parseObservations text (claudeSessionId session) in
  match store_observations session worker discoveryTokens observations w with
  | (Throw e, w) => (Throw e, session, w)
  | (Normal _, w) =>
      let w :=
        match worker, observations with
        | Some _, _ :: _ =>
            emit [RecordObservationProcessed (toolTypes observations)
                    (finished - processingStart) discoveryTokens
                    (Z.of_nat (List.length observations))] w
        | _, _ => w
        end in
      let stored :=
        match parseSummary text (sessionDbId session) with
        | None => (Normal tt, w)
        | Some summary =>
            match storeSummary (store w) (claudeSessionId session) (project session)
                    summary (lastPromptNumber session) discoveryTokens with
            | Throw e => (Throw e, w)
            | Normal (store', (summaryId, createdAtEpoch)) =>
                let w := {| store := store'; effects := effects w |} in
                let w :=
                  emit [StoredSummary (claudeSessionId session) (project session) summary
                          (lastPromptNumber session) discoveryTokens summaryId
                          createdAtEpoch;
                        SyncSummary summaryId summary (lastPromptNumber session)
                          createdAtEpoch discoveryTokens] w in
                (Normal tt,
                 if with_sse worker
                 then emit [SseNewSummary summaryId summary (lastPromptNumber session)
                              createdAtEpoch] w
                 else w)
            end
        end in
      match stored with
      | (Throw e, w) => (Throw e, session, w)
      | (Normal _, w) =>
          let '(session, w) := markMessagesProcessed session worker w in
          (Normal tt, session, w)
      end
  end.

(** The body of [for await (const message of queryResult)] in
    [startSession], for one message. *)
Definition on_message (message : SDKMessage) (worker : option WorkerHandle)
  (processingStart finished : Z) (session : ActiveSession) (w : World)
  : Completion unit * ActiveSession * World :=
  match message with
  | Assistant content usage =>
      let textContent := textContent content in
      let responseSize := Z.of_nat (String.length textContent) in
      let tokensBeforeResponse :=
        cumulativeInputTokens session + cumulativeOutputTokens session in
      let session := track_usage usage session in
      let discoveryTokens :=
        (cumulativeInputTokens session + cumulativeOutputTokens session)
        - tokensBeforeResponse in
      if 0 <? responseSize
      then processSDKResponse session textContent worker discoveryTokens
             processingStart finished w
      else
        let '(session, w) := markMessagesProcessed session worker w in
        (Normal tt, session, w)
  | _ => (Normal tt, session, w)
  end.

(** The discovery-token argument of a persisting call. *)
Definition persisted_discoveryTokens (e : Effect) : option Z :=
  match e with
  | StoredObservation _ _ _ _ discoveryTokens _ _ => Some discoveryTokens
  | _ => None
  end.
End WithCollaborators.

(** *** Configuration helpers *)

Definition quote_mark : string := String "034"%char EmptyString.

Definition not_found : string :=
  "Claude executable not found. Please either:" +:+ newline +:+
  "1. Add " +:+ quote_mark +:+ "claude" +:+ quote_mark +:+ " to your system PATH, or" +:+ newline +:+
  "2. Set CLAUDE_CODE_PATH in ~/.claude-mem/settings.json".

(** [findClaudeExecutable].  [CLAUDE_CODE_PATH] is the setting as loaded
    from the settings file, [existsSync] the file test, and [execSync] the
    outcome of the lookup command: its output, or the exception it throws.
    The debug line logged for a failed lookup is not kept. *)
Definition findClaudeExecutable (CLAUDE_CODE_PATH : option string)
  (existsSync : string -> bool) (execSync : Completion string) : Completion string :=
  match truthy_string CLAUDE_CODE_PATH with
  | Some path =>
      if existsSync path then Normal path
      else Throw ("CLAUDE_CODE_PATH is set to " +:+ quote_mark +:+ path +:+ quote_mark +:+
                  " but the file does not exist.")
  | None =>
      match execSync with
      | Normal output =>
          let claudePath :=
            trim (str (first_segment "010"%char (chars (trim output)))) in
          match truthy_string (Some claudePath) with
          | Some claudePath => Normal claudePath
          | None => Throw not_found
          end
      | Throw _ => Throw not_found
      end
  end.

End SDKAgent.

(** ** WorkerService *)

Module WorkerService.
Import JS.

Inductive SSEEvent : Type :=
| token_update (tokens : TokenMetricsService.Summary.TokenSummary)
| processing_status (isProcessing : bool) (queueDepth : Z).

Section WithBroadcaster.
Context {host : Host}.

(** The broadcaster is not among the sources: its state is abstract and
    a [broadcast] either returns or throws. *)
Variable SSEBroadcaster : Type.
Variable broadcast : SSEBroadcaster -> SSEEvent -> Completion SSEBroadcaster.

(** The fields of the worker that [broadcastTokenUpdate] touches, and two
    records of what it did: every call of [sseBroadcaster.broadcast] with
    the clock reading of the call that made it, and the lines handed to
    [logger.warn]. *)
Record Worker : Type := {
  lastTokenBroadcast : Z;
  tokenMetricsService : option TokenMetricsService.Service;
  sseBroadcaster : SSEBroadcaster;
  broadcasts : list (Z * SSEEvent);
  warnings : list string
}.

Definition new_Worker (sse : SSEBroadcaster) : Worker :=
  {| lastTokenBroadcast := 0;
     tokenMetricsService := None;
     sseBroadcaster := sse;
     broadcasts := [];
     warnings := [] |}.

Definition set_lastTokenBroadcast (now : Z) (this : Worker) : Worker :=
  {| lastTokenBroadcast := now;
     tokenMetricsService := tokenMetricsService this;
     sseBroadcaster := sseBroadcaster this;
     broadcasts := broadcasts this;
     warnings := warnings this |}.

Definition set_tokenMetricsService (service : TokenMetricsService.Service) (this : Worker)
  : Worker :=
  {| lastTokenBroadcast := lastTokenBroadcast this;
     tokenMetricsService := Some service;
     sseBroadcaster := sseBroadcaster this;
     broadcasts := broadcasts this;
     warnings := warnings this |}.

Definition logger_warn (line : string) (this : Worker) : Worker :=
  {| lastTokenBroadcast := lastTokenBroadcast this;
     tokenMetricsService := tokenMetricsService this;
     sseBroadcaster := sseBroadcaster this;
     broadcasts := broadcasts this;
     warnings := warnings this ++ [line] |}.

(** [this.sseBroadcaster.broadcast(event)]. *)
Definition sse_broadcast (now : Z) (event : SSEEvent) (this : Worker)
  : Completion unit * Worker :=
  let this :=
    {| lastTokenBroadcast := lastTokenBroadcast this;
       tokenMetricsService := tokenMetricsService this;
       sseBroadcaster := sseBroadcaster this;
       broadcasts := broadcasts this ++ [(now, event)];
       warnings := warnings this |} in
  match broadcast (sseBroadcaster this) event with
  | Normal sse =>
      (Normal tt,
       {| lastTokenBroadcast := lastTokenBroadcast this;
          tokenMetricsService := tokenMetricsService this;
          sseBroadcaster := sse;
          broadcasts := broadcasts this;
          warnings := warnings this |})
  | Throw e => (Throw e, this)
  end.

(** [this.tokenMetricsService.getSummary()] on an initialized service. *)
Definition service_getSummary (now : Z) (db : SessionStore.Database)
  (service : TokenMetricsService.Service) (this : Worker)
  : Completion TokenMetricsService.Summary.TokenSummary * Worker :=
  let '(result, service) := TokenMetricsService.getSummary None None now db service in
  (result, set_tokenMetricsService service this).

Definition broadcastTokenUpdate (now : Z) (db : SessionStore.Database) (this : Worker)
  : Completion unit * Worker :=
  if now - lastTokenBroadcast this <? 1000 then (Normal tt, this)
  else
    let this := set_lastTokenBroadcast now this in
    match tokenMetricsService this with
    | None => (Normal tt, this)
    | Some service =>
        try_catch
          (match service_getSummary now db service this with
           | (Normal summary, this) => sse_broadcast now (token_update summary) this
           | (Throw e, this) => (Throw e, this)
           end)
          (fun error this =>
             (Normal tt, logger_warn "Failed to broadcast token update" this))
    end.

(** Successive calls, each with the clock reading and the store it
    finds. *)
Fixpoint drive (calls : list (Z * SessionStore.Database)) (this : Worker) : Worker :=
  match calls with
  | [] => this
  | (now, db) :: rest => drive rest (snd (broadcastTokenUpdate now db this))
  end.

Definition is_token_update (b : Z * SSEEvent) : bool :=
  match snd b with
  | token_update _ => true
  | _ => false
  end.

(** The clock readings of the [token_update] emissions, oldest first. *)
Definition emission_times (this : Worker) : list Z :=
  List.map fst (List.filter is_token_update (broadcasts this)).

(** What [broadcastTokenUpdate] adds to the record of broadcasts. *)
Definition emitted (now : Z) (db : SessionStore.Database) (this : Worker)
  : list (Z * SSEEvent) :=
  if now - lastTokenBroadcast this <? 1000 then []
  else
    match tokenMetricsService this with
    | None => []
    | Some service =>
        match fst (TokenMetricsService.getSummary None None now db service) with
        | Normal summary => [(now, token_update summary)]
        | Throw _ => []
        end
    end.
End WithBroadcaster.

(** [recordObservationProcessed] touches the performance tracker only.
    The two figures it asks the session manager for, and the two clock
    readings (its own and the one of [recordQueueSample]), are
    arguments. *)
Definition recordObservationProcessed (toolName : string)
  (durationMs discoveryTokens observationCount : Z)
  (now queueDepth activeSessions now_sample : Z)
  (performanceTracker : PerformanceTracker.Tracker) : PerformanceTracker.Tracker :=
  PerformanceTracker.recordQueueSample queueDepth activeSessions now_sample
    (PerformanceTracker.recordProcessingTime
       {| PerformanceTracker.timestamp := now;
          PerformanceTracker.duration := durationMs;
          PerformanceTracker.toolName := toolName;
          PerformanceTracker.discoveryTokens := discoveryTokens;
          PerformanceTracker.observationCount := observationCount |}
       performanceTracker).

(** *** The instruction sections *)

Definition extractBetween (content startMarker endMarker : string) : string :=
  let startIdx := indexOf content startMarker in
  let endIdx := indexOf content endMarker in
  if startIdx =? -1 then content
  else if endIdx =? -1 then substring content startIdx None
  else trim (substring content startIdx (Some endIdx)).

(** What a property read on the [sections] object gives: the text of an
    own property, or, for a name that the object inherits from
    [Object.prototype], a value that is not a text. *)
Inductive SectionValue : Type :=
| SectionText (text : string)
| Inherited (name : string).

Definition Object_prototype_names : list string :=
  ["constructor"; "__defineGetter__"; "__defineSetter__"; "hasOwnProperty";
   "__lookupGetter__"; "__lookupSetter__"; "isPrototypeOf";
   "propertyIsEnumerable"; "toString"; "valueOf"; "__proto__";
   "toLocaleString"].

Definition sections (content : string) : list (string * string) :=
  [("workflow", extractBetween content "## The Workflow" "## Search Parameters");
   ("search_params", extractBetween content "## Search Parameters" "## Examples");
   ("examples", extractBetween content "## Examples" "## Why This Workflow");
   ("all", content)].

Fixpoint own_property (name : string) (object : list (string * string)) : option string :=
  match object with
  | [] => None
  | (key, value) :: rest =>
      if String.eqb key name then Some value else own_property name rest
  end.

(** [sections[topic] || sections['all']]. *)
Definition extractInstructionSection (content topic : string) : SectionValue :=
  let all :=
    match own_property "all" (sections content) with
    | Some text => text
    | None => EmptyString
    end in
  match own_property topic (sections content) with
  | Some text => SectionText (or_string (Some text) all)
  | None =>
      if List.existsb (String.eqb topic) Object_prototype_names
      then Inherited topic
      else SectionText all
  end.

End WorkerService.

(** ** TokenRoutes *)

(** The handlers of the dashboard endpoints, as functions of the query
    parameters (each a text given once, or absent) to the value handed to
    [res.json]. *)
Module TokenRoutes.
Import JS.

Record Period : Type := {
  since : string;
  project : string
}.

Section WithHost.
Context {host : Host}.

Definition handleGetSummary (project since : option string) (now : Z)
  (db : SessionStore.Database) (service : TokenMetricsService.Service)
  : Completion (TokenMetricsService.Summary.TokenSummary * Period) *
    TokenMetricsService.Service :=
  match TokenMetricsService.getSummary project since now db service with
  | (Normal summary, service) =>
      (Normal (summary,
               {| since := or_string since "all";
                  project := or_string project "all" |}),
       service)
  | (Throw e, service) => (Throw e, service)
  end.


Definition handleGetQueueHistory (since limit : option string) (now : Z)
  (tracker : PerformanceTracker.Tracker) : PerformanceTracker.Queue.QueueHistoryResponse :=
  let since := or_string since "1h" in
  let limit := number_or (parseInt limit) 100 in
  PerformanceTracker.getQueueHistory (Some since) (Some limit) now tracker.

Definition handleGetProcessingTimes (since limit : option string) (now now_queue : Z)
  (tracker : PerformanceTracker.Tracker) : PerformanceTracker.ProcessingTimesResponse :=
  let since := or_string since "24h" in
  let limit := number_or (parseInt limit) 100 in
  PerformanceTracker.getProcessingTimes (Some since) (Some limit) now now_queue tracker.
End WithHost.

End TokenRoutes.

(** ** The design document's formulas *)

Module Spec.
Import JS.

Section WithHost.
Context {host : Host}.

(** [concat] of a field: the elements of a JSON array joined without
    separators, the raw text when the field is not a JSON array. *)
Definition concat_length (field : option string) : Z :=
  match field with
  | None => 0
  | Some s =>
      match JSON_parse s with
      | Some (JArray arr) => Z.of_nat (String.length (Array_join arr EmptyString))
      | _ => Z.of_nat (String.length s)
      end
  end.

Definition text_length (field : option string) : Z :=
  match field with
  | None => 0
  | Some s => Z.of_nat (String.length s)
  end.

(** [S]: title + subtitle + narrative + concat(facts) + concat(concepts)
    + concat(files_read) + concat(files_modified), on a stored
    observation. *)
Definition charLen (o : SessionStore.Observation) : Z :=
  text_length (SessionStore.title o) +
  text_length (SessionStore.subtitle o) +
  text_length (SessionStore.narrative o) +
  concat_length (SessionStore.facts o) +
  concat_length (SessionStore.concepts o) +
  concat_length (SessionStore.files_read o) +
  concat_length (SessionStore.files_modified o).

(** The read-token cost [ceil(S/4)]. *)
Definition readTokens (o : SessionStore.Observation) : Z :=
  Math_ceil (double (charLen o) / double 4)%num.
End WithHost.

(** [round(x)] on exact rationals: the nearest integer, a half rounded
    up. *)
Definition round (x : Q) : Z := Qfloor (x + (1 # 2)).

(** [x] lies exactly halfway between two integers. *)
Definition halfway (x : Q) : Prop := exists k : Z, (x == inject_Z k + (1 # 2))%Q.

(** [k] is [round(x)], or one less when [x] is halfway. *)
Definition rounded (x : Q) (k : Z) : Prop :=
  k = round x \/ (halfway x /\ k = round x - 1).


(** The discovery tokens of a stored observation, none counting as 0. *)
Definition discovery (o : SessionStore.Observation) : Z :=
  or0 (SessionStore.discovery_tokens o).

Section Projection.
Context {host : Host}.





End Projection.


(** The relations of the document between the fields of a summary, the
    roundings taken on exact numbers; [/ 10] gives the [number] nearest
    to the tenth. *)
Definition summary_math (r : TokenMetricsService.Summary.TokenSummary) : Prop :=
  let n := TokenMetricsService.Summary.totalObservations r in
  let R := TokenMetricsService.Summary.totalReadTokens r in
  let D := TokenMetricsService.Summary.totalDiscoveryTokens r in
  let savings := TokenMetricsService.Summary.savings r in
  savings = D - R /\
  savings + R = D /\
  TokenMetricsService.Summary.savingsPercent r =
    (if D =? 0 then 0 else round (inject_Z savings / inject_Z D * 100)) /\
  TokenMetricsService.Summary.efficiencyGain r =
    (if R =? 0 then double 0
     else (double (round (inject_Z D / inject_Z R * 10)) / double 10)%num) /\
  TokenMetricsService.Summary.avgReadTokensPerObs r =
    (if n =? 0 then 0 else round (inject_Z R / inject_Z n)) /\
  TokenMetricsService.Summary.avgDiscoveryTokensPerObs r =
    (if n =? 0 then 0 else round (inject_Z D / inject_Z n)).

(** The relations as a summary keeps them, for totals up to [2 ^ 40]: the
    two ratios are rounded as the document says unless the exact value is
    halfway between two integers, where the rounding can be one less; the
    averages are rounded as the document says. *)
Definition summary_relations (r : TokenMetricsService.Summary.TokenSummary) : Prop :=
  let n := TokenMetricsService.Summary.totalObservations r in
  let R := TokenMetricsService.Summary.totalReadTokens r in
  let D := TokenMetricsService.Summary.totalDiscoveryTokens r in
  let savings := TokenMetricsService.Summary.savings r in
  savings = D - R /\
  savings + R = D /\
  (n <= 2 ^ 40 -> R <= 2 ^ 40 -> D <= 2 ^ 40 ->
   (if D =? 0 then TokenMetricsService.Summary.savingsPercent r = 0
    else rounded (inject_Z savings / inject_Z D * 100)
           (TokenMetricsService.Summary.savingsPercent r)) /\
   (if R =? 0 then TokenMetricsService.Summary.efficiencyGain r = double 0
    else exists k,
           rounded (inject_Z D / inject_Z R * 10) k /\
           TokenMetricsService.Summary.efficiencyGain r = (double k / double 10)%num) /\
   TokenMetricsService.Summary.avgReadTokensPerObs r =
     (if n =? 0 then 0 else round (inject_Z R / inject_Z n)) /\
   TokenMetricsService.Summary.avgDiscoveryTokensPerObs r =
     (if n =? 0 then 0 else round (inject_Z D / inject_Z n))).

(** The four top-level numbers of a summary. *)
Definition quick_of (s : TokenMetricsService.Summary.TokenSummary)
  : TokenMetricsService.Quick.QuickSummary :=
  {| TokenMetricsService.Quick.totalDiscoveryTokens :=
       TokenMetricsService.Summary.totalDiscoveryTokens s;
     TokenMetricsService.Quick.totalReadTokens :=
       TokenMetricsService.Summary.totalReadTokens s;
     TokenMetricsService.Quick.savings := TokenMetricsService.Summary.savings s;
     TokenMetricsService.Quick.savingsPercent :=
       TokenMetricsService.Summary.savingsPercent s |}.

(** Emissions at least a second apart, pairwise. *)
Definition spaced (times : list Z) : Prop :=
  forall (i j : nat) (ti tj : Z),
    (i < j)%nat -> nth_error times i = Some ti -> nth_error times j = Some tj ->
    1000 <= tj - ti.

(** The sum of [f] over a sequence. *)
Fixpoint sum_over {A} (f : A -> Z) (l : list A) : Z :=
  match l with
  | [] => 0
  | x :: rest => f x + sum_over f rest
  end.

(** Every summary the cache holds satisfies the relations. *)
Definition cached_summaries_ok (this : TokenMetricsService.Service) : Prop :=
  forall key entry s,
    TokenMetricsService.cache this !! key = Some entry ->
    TokenMetricsService.data entry = TokenMetricsService.SummaryData s ->
    summary_relations s.

(** The store never holds a negative discovery count. *)
Definition discovery_nonneg (db : SessionStore.Database) : Prop :=
  forall o, In o (SessionStore.observations db) ->
    0 <= or0 (SessionStore.discovery_tokens o).

(** The recorded emissions are a second apart and none is later than the
    worker's [lastTokenBroadcast]. *)
Definition throttle_inv {SSE : Type} (this : WorkerService.Worker SSE) : Prop :=
  spaced (WorkerService.emission_times SSE this) /\
  Forall (fun t => t <= WorkerService.lastTokenBroadcast SSE this)
    (WorkerService.emission_times SSE this).

(** Calls whose clock readings lie within [width] milliseconds. *)
Definition within_window (width : Z) (calls : list (Z * SessionStore.Database)) : Prop :=
  forall a b, In a (List.map fst calls) -> In b (List.map fst calls) -> a - b <= width.

(** The prompt number an item of the queue carries into the session. *)
Definition carried (message : SDKAgent.PendingMessage) : option Z :=
  match SDKAgent.type message with
  | SDKAgent.observation => SDKAgent.prompt_number message
  | SDKAgent.summarize => None
  end.

(** The carried prompt numbers never fall below [n] nor below an earlier
    one. *)
Fixpoint ascending (n : Z) (messages : list SDKAgent.PendingMessage) : Prop :=
  match messages with
  | [] => True
  | message :: rest =>
      match carried message with
      | Some k => n <= k /\ ascending k rest
      | None => ascending n rest
      end
  end.

(** The nearest-rank index [ceil(p/100 * n) - 1], on exact rationals. *)
Definition nearest_rank (p : Z) (n : nat) : Z :=
  Qceiling (inject_Z p / 100 * inject_Z (Z.of_nat n))%Q - 1.

(** The tracker keeps at most [MAX_PROCESSING_TIMES] processing records. *)
Definition bounded_history (this : PerformanceTracker.Tracker) : Prop :=
  Z.of_nat (List.length (PerformanceTracker.processingTimes this)) <=
  PerformanceTracker.MAX_PROCESSING_TIMES.
End Spec.

(** ** Concrete inputs *)

Module Examples.
Import JS.

(** A host whose abstract builtins are never consulted by the inputs
    below. *)
Definition plain_host : Host :=
  {| Number_toString := fun lexeme => lexeme;
     Date_parse := fun _ => None |}.

Definition dq : string := String quote EmptyString.

Definition row (id : Z) (title : string) (facts concepts : option string)
  (discovery created : Z) (project : string) : SessionStore.Observation :=
  {| SessionStore.id := id;
     SessionStore.type := Some "discovery";
     SessionStore.title := Some title;
     SessionStore.subtitle := Some EmptyString;
     SessionStore.narrative := Some EmptyString;
     SessionStore.facts := facts;
     SessionStore.concepts := concepts;
     SessionStore.files_read := Some "[]";
     SessionStore.files_modified := Some "[]";
     SessionStore.discovery_tokens := Some discovery;
     SessionStore.created_at_epoch := created;
     SessionStore.project := Some project |}.

(** The observation of the first scenario of the design document. *)
Definition scenario1 : SessionStore.Observation :=
  row 1 "ok" (Some "[]") (Some "[]") 40 1000 "demo".

(** The same observation with one concept, ["abcd"]. *)
Definition with_concept : SessionStore.Observation :=
  row 1 "ok" (Some "[]") (Some ("[" +:+ dq +:+ "abcd" +:+ dq +:+ "]")) 40 1000 "demo".

(** An observation of 17 read tokens and 40 discovery tokens: the saving
    is 23 of 40, that is 57.5 percent on exact numbers. *)
Definition half_percent : SessionStore.Observation :=
  row 1 "Traced the token accounting of the worker through its summary cache"
    (Some "[]") (Some "[]") 40 1000 "demo".



Definition five_letters : SessionStore.Observation :=
  row 1 "abcde" None None 40 1000 "demo".

Definition open_db (rows : list SessionStore.Observation) : SessionStore.Database :=
  {| SessionStore.observations := rows; SessionStore.closed := false |}.

Definition closed_db : SessionStore.Database :=
  {| SessionStore.observations := []; SessionStore.closed := true |}.

Definition three_rows : list SessionStore.Observation :=
  [ row 1 "first" (Some "[]") None 10 1000 "demo";
    row 2 "second one" (Some "[]") None 30 3000 "demo";
    row 3 "third" (Some "[]") None 20 2000 "other" ].

(** A cache with one entry of each of two queries. *)
Definition entry : TokenMetricsService.CacheEntry :=
  {| TokenMetricsService.data := TokenMetricsService.OtherData;
     TokenMetricsService.timestamp := 0 |}.

Definition two_entries : TokenMetricsService.Service :=
  {| TokenMetricsService.cache :=
       <["projection:all:50" := entry]> (<["summary:foo:all" := entry]> ∅);
     TokenMetricsService.lastBroadcastTime := 0 |}.

(** A broadcaster that keeps the frames it was given. *)
Definition keep_frames (frames : list WorkerService.SSEEvent) (e : WorkerService.SSEEvent)
  : Completion (list WorkerService.SSEEvent) :=
  Normal (frames ++ [e]).

(** A broadcaster whose [broadcast] throws. *)
Definition broken_pipe (frames : list WorkerService.SSEEvent) (e : WorkerService.SSEEvent)
  : Completion (list WorkerService.SSEEvent) :=
  Throw "write after end".

Definition ready_worker : WorkerService.Worker (list WorkerService.SSEEvent) :=
  {| WorkerService.lastTokenBroadcast := 0;
     WorkerService.tokenMetricsService := Some TokenMetricsService.new_Service;
     WorkerService.sseBroadcaster := [];
     WorkerService.broadcasts := [];
     WorkerService.warnings := [] |}.

(** Five calls within 300 ms. *)
Definition five_calls : list (Z * SessionStore.Database) :=
  List.map (fun t => (t, open_db [scenario1]))
    [1700000000000; 1700000000050; 1700000000120; 1700000000200; 1700000000300].

Definition session (promptNumber : Z) : SDKAgent.ActiveSession :=
  {| SDKAgent.sessionDbId := 7;
     SDKAgent.claudeSessionId := "claude-7";
     SDKAgent.sdkSessionId := None;
     SDKAgent.project := "demo";
     SDKAgent.userPrompt := "fix the build";
     SDKAgent.lastPromptNumber := promptNumber;
     SDKAgent.cumulativeInputTokens := 0;
     SDKAgent.cumulativeOutputTokens := 0;
     SDKAgent.pendingProcessingIds := [] |}.

Definition observation_message (promptNumber : option Z) : SDKAgent.PendingMessage :=
  {| SDKAgent.type := SDKAgent.observation;
     SDKAgent.tool_name := Some "Read";
     SDKAgent.tool_input := JNull;
     SDKAgent.tool_response := JNull;
     SDKAgent.cwd := None;
     SDKAgent.prompt_number := promptNumber;
     SDKAgent.last_user_message := None;
     SDKAgent.last_assistant_message := None |}.

Definition sample (timestamp duration : Z) : PerformanceTracker.ProcessingTimeRecord :=
  {| PerformanceTracker.timestamp := timestamp;
     PerformanceTracker.duration := duration;
     PerformanceTracker.toolName := "discovery";
     PerformanceTracker.discoveryTokens := 100;
     PerformanceTracker.observationCount := 1 |}.

(** The duration samples of the sixth scenario, recorded out of order. *)
Definition five_samples : PerformanceTracker.Tracker :=
  {| PerformanceTracker.queueHistory := [];
     PerformanceTracker.processingTimes :=
       [sample 1000 30; sample 2000 10; sample 3000 50; sample 4000 20; sample 5000 40];
     PerformanceTracker.lastSampleTime := 0 |}.

(** No processing record, one queue sample of depth 3. *)
Definition queue_only : PerformanceTracker.Tracker :=
  PerformanceTracker.recordQueueSample 3 1 6000 PerformanceTracker.new_Tracker.

(** A reply with a usage record, a parser that finds two observations in any
    text, and a store that numbers its rows. *)
Definition reply : SDKAgent.SDKMessage :=
  SDKAgent.Assistant (SDKAgent.Text "two findings")
    (Some {| SDKAgent.input_tokens := Some 100;
             SDKAgent.output_tokens := Some 20;
             SDKAgent.cache_creation_input_tokens := Some 30;
             SDKAgent.cache_read_input_tokens := Some 999 |}).

Definition two_findings (text claudeSessionId : string) : list string :=
  ["first finding"; "second finding"]%string.

Definition no_summary (text : string) (sessionDbId : Z) : option unit := None.

Definition numbering_store (next : Z) (claudeSessionId project : string) (obs : string)
  (promptNumber discoveryTokens : Z) : Completion (Z * (Z * Z)) :=
  Normal (next + 1, (next, 1700000000000)).

Definition numbering_summaries (next : Z) (claudeSessionId project : string) (summary : unit)
  (promptNumber discoveryTokens : Z) : Completion (Z * (Z * Z)) :=
  Normal (next + 1, (next, 1700000000000)).

Definition fresh_world : SDKAgent.World string unit Z :=
  {| SDKAgent.store := 1; SDKAgent.effects := [] |}.

Definition after_reply
  : Completion unit * SDKAgent.ActiveSession * SDKAgent.World string unit Z :=
  SDKAgent.on_message string unit Z two_findings no_summary (fun _ => None)
    numbering_store numbering_summaries reply None 0 5 (session 1) fresh_world.
End Examples.

(** ** Notions used by the further properties *)

Module Laws.
Import JS.

(** The sum of the sizes of a sequence, each size counted once for its
    own element and once for every element after it. *)
Fixpoint weighted {A} (size : A -> Z) (l : list A) : Z :=
  match l with
  | [] => 0
  | x :: rest => Z.of_nat (List.length l) * size x + weighted size rest
  end.

Section Effects.
Context {ParsedObservation ParsedSummary : Type}.

(** The calls by which the agent settles the pending messages: marking
    one processed, cleaning up, and announcing the processing status. *)
Definition is_mark (e : SDKAgent.Effect ParsedObservation ParsedSummary) : bool :=
  match e with
  | SDKAgent.MarkProcessed _ _ _ => true
  | SDKAgent.CleanupProcessed _ _ _ => true
  | SDKAgent.BroadcastProcessingStatus _ _ => true
  | _ => false
  end.

(** The message a [markProcessed] call names. *)
Definition marked (e : SDKAgent.Effect ParsedObservation ParsedSummary) : option Z :=
  match e with
  | SDKAgent.MarkProcessed _ _ messageId => Some messageId
  | _ => None
  end.

(** The number of rows a [cleanupProcessed] call keeps. *)
Definition cleanup (e : SDKAgent.Effect ParsedObservation ParsedSummary) : option Z :=
  match e with
  | SDKAgent.CleanupProcessed _ _ keep => Some keep
  | _ => None
  end.
End Effects.

(** The prompt number carried last by a sequence of queued messages, or
    [n] when none carries one. *)
Definition last_carried (n : Z) (messages : list SDKAgent.PendingMessage) : Z :=
  List.fold_left
    (fun n message =>
       match Spec.carried message with
       | Some k => k
       | None => n
       end) messages n.

(** [piece] occurs in [whole] as a run of consecutive characters. *)
Definition part_of (piece whole : string) : Prop :=
  exists before after, whole = before +:+ piece +:+ after.

(** The calls that write a tracker. *)
Inductive TrackerCall : Type :=
| RecordQueueSample (queueDepth activeSessions now : Z)
| RecordProcessingTime (record : PerformanceTracker.ProcessingTimeRecord)
| Clear.

Definition call (c : TrackerCall) (this : PerformanceTracker.Tracker)
  : PerformanceTracker.Tracker :=
  match c with
  | RecordQueueSample queueDepth activeSessions now =>
      PerformanceTracker.recordQueueSample queueDepth activeSessions now this
  | RecordProcessingTime record => PerformanceTracker.recordProcessingTime record this
  | Clear => PerformanceTracker.clear this
  end.

(** A tracker after a sequence of calls, the first call first. *)
Definition after (calls : list TrackerCall) (this : PerformanceTracker.Tracker)
  : PerformanceTracker.Tracker :=
  List.fold_left (fun this c => call c this) calls this.

(** The last 100 processing records of the last hour. *)
Definition last_hour (now : Z) (this : PerformanceTracker.Tracker)
  : list PerformanceTracker.ProcessingTimeRecord :=
  PerformanceTracker.slice_from_end 100
    (List.filter (fun p => now - 3600000 <=? PerformanceTracker.timestamp p)
       (PerformanceTracker.processingTimes this)).

(** Each time is at least [gap] after every earlier one. *)
Definition apart (gap : Z) (times : list Z) : Prop :=
  StronglySorted (fun earlier later => gap <= later - earlier) times.

(** The record of a right shift locates [N / D]: its mantissa is the
    integer part, its round bit says whether the rest reaches a half, and
    its sticky bit whether the rest is neither nothing nor a half. *)
Definition locates (mrs : shr_record) (N D : Z) : Prop :=
  0 <= shr_m mrs /\
  0 <= N - shr_m mrs * D < D /\
  shr_r mrs = (D <=? 2 * (N - shr_m mrs * D)) /\
  shr_s mrs = negb ((N - shr_m mrs * D =? 0) || (2 * (N - shr_m mrs * D) =? D)).

(** The unit in which the values of [number]s are compared: [2 ^ -200],
    below the last digit of every [number] met here. *)
Definition grid : Z := 2 ^ 200.

(** The value of a finite [number], in units of [2 ^ -200]. *)
Definition scaled (x : JS.number) : Z :=
  match x with
  | S754_finite s m e => JS.signed s m * 2 ^ (e + 200)
  | _ => 0
  end.

(** A finite [number] with a mantissa of 53 digits and an exponent between
    [lo] and [hi]. *)
Definition normal (lo hi : Z) (x : JS.number) : Prop :=
  match x with
  | S754_finite _ m e => Z.pos (digits2_pos m) = 53 /\ lo <= e <= hi
  | _ => False
  end.

(** Each text is before every later one, in the order of the character
    codes. *)
Definition ascending (texts : list string) : Prop :=
  StronglySorted (fun earlier later => String.ltb earlier later = true) texts.

(** The last [n] elements of a list, all of them when it has fewer. *)
Definition lastn {A} (n : nat) (l : list A) : list A :=
  List.skipn (List.length l - n) l.

(** [total] is the running sum of [value] along the series: at each point
    it is the sum of the values up to and including that point. *)
Definition running {A} (value total : A -> Z) (series : list A) : Prop :=
  forall earlier p later,
    series = earlier ++ p :: later ->
    total p = Spec.sum_over value (earlier ++ [p]).
End Laws.

(** * Properties *)

(** ** Facts about the host operations *)

Section HostFacts.
Import JS.

(** A [number] made from non-negative integers by a division is not
    negative, and neither is its ceiling. *)
Lemma binary_round_aux_sign (mx ex : Z) (lx : location) :
  is_negative (binary_round_aux prec emax false mx ex lx) = false.
Proof.
  unfold binary_round_aux.
  destruct (shr_fexp prec emax mx ex lx) as [mrs' e'].
  destruct (shr_fexp prec emax _ e' loc_Exact) as [mrs'' e''].
  destruct (shr_m mrs''); [reflexivity | | reflexivity].
  destruct (e'' <=? emax - prec); reflexivity.
Qed.

Lemma double_sign (z : Z) : 0 <= z -> is_negative (double z) = false.
Proof.
  intros Hz. unfold double, binary_normalize.
  destruct z as [|p|p]; [reflexivity | | lia].
  unfold binary_round. destruct (shl_align p 0 _) as [mz ez].
  apply binary_round_aux_sign.
Qed.

Lemma Number_div_sign (x y : number) :
  is_negative x = false -> is_negative y = false -> is_negative (x / y)%num = false.
Proof.
  destruct x as [sx|sx| |sx mx ex], y as [sy|sy| |sy my ey]; cbn; try reflexivity.
  intros -> ->. cbn [xorb].
  destruct (SFdiv_core_binary prec emax (Z.pos mx) ex (Z.pos my) ey) as [[mz ez] lz].
  apply binary_round_aux_sign.
Qed.

Lemma Math_ceil_nonneg (x : number) : is_negative x = false -> 0 <= Math_ceil x.
Proof.
  destruct x as [s|s| |s m e]; cbn [is_negative Math_ceil]; try lia.
  intros ->. cbn [signed]. destruct (0 <=? e) eqn:He.
  - pose proof (Z.pow_nonneg 2 e). nia.
  - assert (0 < 2 ^ (- e)) as Hpos by (apply Z.pow_pos_nonneg; lia).
    assert ((- Z.pos m) / 2 ^ (- e) <= 0) by (apply Z.div_le_upper_bound; lia).
    lia.
Qed.

Lemma Math_ceil_div_nonneg (a b : Z) :
  0 <= a -> 0 <= b -> 0 <= Math_ceil (double a / double b)%num.
Proof.
  intros Ha Hb. apply Math_ceil_nonneg, Number_div_sign; apply double_sign; assumption.
Qed.

(** [Math.ceil(a / 4)] on the sizes up to 4096, where the quotient is
    checked value by value. *)
Lemma Math_ceil_quarter (a : Z) :
  0 <= a <= 4096 -> Math_ceil (double a / double 4)%num = (a + 3) / 4.
Proof.
  intros Ha. apply Z.eqb_eq.
  assert (Hall : forallb (fun n => Math_ceil (double (Z.of_nat n) / double 4)%num =?
                                   (Z.of_nat n + 3) / 4) (seq 0 4097) = true)
    by (vm_compute; reflexivity).
  rewrite forallb_forall in Hall.
  specialize (Hall (Z.to_nat a) ltac:(apply in_seq; lia)).
  rewrite Z2Nat.id in Hall by lia. exact Hall.
Qed.

Lemma inject_Z_nonzero (b : Z) : b <> 0 -> ~ (inject_Z b == 0)%Q.
Proof.
  intros Hb Heq. apply Hb.
  unfold Qeq in Heq. simpl in Heq. lia.
Qed.

(** The nearest-rank index in integer arithmetic. *)
Lemma nearest_rank_div (p : Z) (n : nat) :
  Spec.nearest_rank p n = - ((- (p * Z.of_nat n)) / 100) - 1.
Proof.
  unfold Spec.nearest_rank, Qceiling. f_equal. f_equal.
  rewrite Zdiv_Qdiv. apply Qfloor_comp.
  rewrite inject_Z_opp, inject_Z_mult. change (inject_Z 100) with 100%Q. field.
Qed.

(** [Math.ceil((p / 100) * n) - 1] in binary64 is the nearest-rank index,
    for the two percents the tracker asks for and every length its
    bounded history can have; checked length by length. *)
Lemma Math_ceil_percent (p : Z) (n : nat) :
  p = 50 \/ p = 95 -> (n <= 500)%nat ->
  Math_ceil (double p / double 100 * double (Z.of_nat n))%num - 1 =
  Spec.nearest_rank p n.
Proof.
  intros Hp Hn. rewrite nearest_rank_div. apply Z.eqb_eq.
  pose (same_index := fun (p : Z) (n : nat) =>
    Math_ceil (double p / double 100 * double (Z.of_nat n))%num - 1 =?
    - ((- (p * Z.of_nat n)) / 100) - 1).
  assert (Hall : forallb (fun n => same_index 50 n && same_index 95 n)%bool
                   (seq 0 501) = true)
    by (vm_compute; reflexivity).
  rewrite forallb_forall in Hall.
  specialize (Hall n ltac:(apply in_seq; lia)).
  apply andb_prop in Hall. destruct Hall as [H50 H95].
  destruct Hp as [-> | ->]; assumption.
Qed.

Lemma prefix_spec (p s : string) :
  String.prefix p s = true <-> exists post, s = p +:+ post.
Proof.
  revert s. induction p as [|c p IH]; intros s.
  - split; [intros _; exists s; reflexivity | intros _; destruct s; reflexivity].
  - destruct s as [|d s]; simpl.
    + split; [discriminate | intros [post H]; discriminate].
    + destruct (ascii_dec c d) as [->|Hne].
      * rewrite IH. split; intros [post H]; exists post.
        -- rewrite H. reflexivity.
        -- injection H as H. exact H.
      * split; [discriminate | intros [post H]; injection H as H1 H2; congruence].
Qed.

(** [s.includes(sub)]: [sub] occurs in [s]. *)
Lemma includes_spec (s sub : string) :
  includes s sub = true <-> exists pre post, s = pre +:+ sub +:+ post.
Proof.
  induction s as [|c s IH]; cbn [includes].
  - rewrite orb_false_r, prefix_spec. split.
    + intros [post H]. exists EmptyString, post. exact H.
    + intros [pre [post H]]. destruct pre; cbn [String.append] in H.
      * exists post. exact H.
      * discriminate.
  - rewrite orb_true_iff, prefix_spec, IH. split.
    + intros [[post H] | [pre [post H]]].
      * exists EmptyString, post. exact H.
      * exists (String c pre), post. cbn [String.append]. rewrite H. reflexivity.
    + intros [pre [post H]]. destruct pre as [|d pre]; cbn [String.append] in H.
      * left. exists post. exact H.
      * right. exists pre, post. injection H as _ H. exact H.
Qed.
End HostFacts.

(** ** Rounding in binary64 *)

(** Division and multiplication round to the nearest [number].  The facts
    below follow the rounding of the Standard Library's specification
    step by step: the shifts that bring a mantissa to 53 digits keep track
    of where the exact value lies, and the final choice is the nearer
    neighbour. *)
Section RoundingFacts.
Import JS.

Lemma digits_bounds (p : positive) :
  2 ^ (Z.pos (digits2_pos p) - 1) <= Z.pos p < 2 ^ Z.pos (digits2_pos p).
Proof.
  induction p as [p IH|p IH|]; cbn [digits2_pos]; [| |cbn; lia].
  - rewrite Pos2Z.inj_succ, (Pos2Z.inj_xI p).
    replace (Z.succ (Z.pos (digits2_pos p)) - 1) with (Z.succ (Z.pos (digits2_pos p) - 1))
      by lia.
    rewrite !Z.pow_succ_r by lia. lia.
  - rewrite Pos2Z.inj_succ, (Pos2Z.inj_xO p).
    replace (Z.succ (Z.pos (digits2_pos p)) - 1) with (Z.succ (Z.pos (digits2_pos p) - 1))
      by lia.
    rewrite !Z.pow_succ_r by lia. lia.
Qed.

Lemma digits_unique (p : positive) (d : Z) :
  2 ^ (d - 1) <= Z.pos p < 2 ^ d -> Z.pos (digits2_pos p) = d.
Proof.
  intros [Hlow Hhigh]. pose proof (digits_bounds p) as [Hl Hh].
  set (d' := Z.pos (digits2_pos p)) in *.
  assert (Hd : 0 < d).
  { destruct (Z.lt_trichotomy d 0) as [Hneg | [-> | Hpos]]; [|cbn in Hhigh; lia | exact Hpos].
    rewrite Z.pow_neg_r in Hhigh by exact Hneg. lia. }
  destruct (Z.lt_trichotomy d' d) as [Hlt | [Heq | Hgt]]; [|exact Heq|].
  - assert (2 ^ d' <= 2 ^ (d - 1)) by (apply Z.pow_le_mono_r; lia). lia.
  - assert (2 ^ d <= 2 ^ (d' - 1)) by (apply Z.pow_le_mono_r; lia). lia.
Qed.

Ltac bool_cases :=
  repeat match goal with
         | |- context [?a <=? ?b] => destruct (Z.leb_spec a b)
         | |- context [?a =? ?b] => destruct (Z.eqb_spec a b)
         end;
  cbn [negb orb andb]; try reflexivity; try lia.

Lemma shr_1_locates (mrs : shr_record) (N D : Z) :
  0 < D -> Laws.locates mrs N D -> Laws.locates (shr_1 mrs) N (D * 2).
Proof.
  intros HD. destruct mrs as [m r s]. unfold Laws.locates. cbn [shr_m shr_r shr_s].
  intros (Hm & Hrest & -> & ->).
  destruct m as [|[p|p|]|p]; [| | | |lia]; cbn [shr_1 shr_m shr_r shr_s];
    try rewrite (Pos2Z.inj_xI p) in *; try rewrite (Pos2Z.inj_xO p) in *.
  - split; [lia|]. split; [lia|]. split; bool_cases.
  - split; [lia|]. split; [lia|]. split; bool_cases.
  - split; [lia|]. split; [lia|]. split; bool_cases.
  - split; [lia|]. split; [lia|]. split; bool_cases.
Qed.

Lemma iter_shr_1_locates (p : positive) :
  forall (mrs : shr_record) (N D : Z),
    0 < D -> Laws.locates mrs N D -> Laws.locates (SpecFloat.iter_pos shr_1 p mrs) N (D * 2 ^ Z.pos p).
Proof.
  induction p as [p IH|p IH|]; intros mrs N D HD Hloc; cbn [SpecFloat.iter_pos].
  - rewrite (Pos2Z.inj_xI p).
    replace (D * 2 ^ (2 * Z.pos p + 1)) with (D * 2 * 2 ^ Z.pos p * 2 ^ Z.pos p)
      by (rewrite Z.pow_add_r, Z.pow_1_r, <- Z.add_diag, Z.pow_add_r by lia; ring).
    assert (0 < 2 ^ Z.pos p) by (apply Z.pow_pos_nonneg; lia).
    apply IH; [nia|]. apply IH; [lia|]. apply shr_1_locates; assumption.
  - rewrite (Pos2Z.inj_xO p).
    replace (D * 2 ^ (2 * Z.pos p)) with (D * 2 ^ Z.pos p * 2 ^ Z.pos p)
      by (rewrite <- Z.add_diag, Z.pow_add_r by lia; ring).
    assert (0 < 2 ^ Z.pos p) by (apply Z.pow_pos_nonneg; lia).
    apply IH; [nia|]. apply IH; assumption.
  - change (2 ^ 1) with 2. apply shr_1_locates; assumption.
Qed.

Lemma shr_locates (mrs : shr_record) (e n N D : Z) :
  0 < D -> 0 <= n -> Laws.locates mrs N D ->
  exists mrs', shr mrs e n = (mrs', e + n) /\ Laws.locates mrs' N (D * 2 ^ n).
Proof.
  intros HD Hn Hloc. destruct n as [|p|p]; [| |lia]; cbn [shr].
  - exists mrs. split; [f_equal; lia|]. rewrite Z.pow_0_r, Z.mul_1_r. exact Hloc.
  - eexists. split; [reflexivity|]. apply iter_shr_1_locates; assumption.
Qed.

Lemma round_nearest_even_locates (mrs : shr_record) (N D : Z) :
  0 < D -> Laws.locates mrs N D ->
  let k := round_nearest_even (shr_m mrs) (loc_of_shr_record mrs) in
  shr_m mrs <= k <= shr_m mrs + 1 /\ 2 * Z.abs (k * D - N) <= D.
Proof.
  intros HD. destruct mrs as [m r s]. unfold Laws.locates. cbn [shr_m shr_r shr_s].
  intros (Hm & Hrest & Hr & Hs).
  destruct r, s; cbn [loc_of_shr_record round_nearest_even];
    symmetry in Hr, Hs;
    try apply Z.leb_le in Hr; try apply Z.leb_gt in Hr;
    try apply negb_true_iff in Hs; try apply negb_false_iff in Hs;
    try apply orb_false_iff in Hs; try apply orb_true_iff in Hs;
    repeat match goal with
           | H : _ /\ _ |- _ => destruct H
           | H : _ \/ _ |- _ => destruct H
           | H : (_ =? _) = true |- _ => apply Z.eqb_eq in H
           | H : (_ =? _) = false |- _ => apply Z.eqb_neq in H
           end;
    try destruct (Z.even m); split; nia.
Qed.

Lemma exact_locates (m D : Z) :
  0 <= m -> 0 < D -> Laws.locates (shr_record_of_loc m loc_Exact) (m * D) D.
Proof.
  intros Hm HD. unfold Laws.locates. cbn [shr_record_of_loc shr_m shr_r shr_s].
  replace (m * D - m * D) with 0 by lia.
  split; [exact Hm|]. split; [lia|]. split; bool_cases.
Qed.

Lemma new_location_locates (q r D : Z) :
  0 <= q -> 0 <= r < D ->
  Laws.locates (shr_record_of_loc q (new_location D r)) (q * D + r) D.
Proof.
  intros Hq Hr. unfold new_location, new_location_even, new_location_odd.
  assert (Hrest : q * D + r - q * D = r) by lia.
  destruct (Z.even D) eqn:Heven.
  - destruct (Z.eqb_spec r 0) as [-> | Hne].
    + unfold Laws.locates. cbn [shr_record_of_loc shr_m shr_r shr_s]. rewrite Hrest.
      split; [exact Hq|]. split; [lia|]. split; bool_cases.
    + destruct (Z.compare_spec (2 * r) D) as [Heq | Hlt | Hgt];
        unfold Laws.locates; cbn [shr_record_of_loc shr_m shr_r shr_s]; rewrite Hrest;
        (split; [exact Hq|]); (split; [lia|]); split; bool_cases.
  - assert (Hodd : exists j, D = 2 * j + 1).
    { apply Z.odd_spec. rewrite <- Z.negb_even, Heven. reflexivity. }
    destruct Hodd as [j Hj].
    destruct (Z.eqb_spec r 0) as [-> | Hne].
    + unfold Laws.locates. cbn [shr_record_of_loc shr_m shr_r shr_s]. rewrite Hrest.
      split; [exact Hq|]. split; [lia|]. split; bool_cases.
    + destruct (Z.compare_spec (2 * r + 1) D) as [Heq | Hlt | Hgt];
        unfold Laws.locates; cbn [shr_record_of_loc shr_m shr_r shr_s]; rewrite Hrest;
        (split; [exact Hq|]); (split; [lia|]); split; bool_cases.
Qed.

Lemma fexp_normal (e : Z) : -1021 <= e -> fexp prec emax e = e - 53.
Proof. unfold fexp, SpecFloat.emin, prec, emax. lia. Qed.

Lemma binary_round_aux_nearest (s : bool) (q : positive) (ex : Z) (lx : location)
  (N D : Z) :
  0 < D ->
  Laws.locates (shr_record_of_loc (Z.pos q) lx) N D ->
  53 <= Z.pos (digits2_pos q) ->
  -1074 <= ex -> ex + Z.pos (digits2_pos q) <= 1023 ->
  exists (m : positive) (n : Z),
    binary_round_aux prec emax s (Z.pos q) ex lx = S754_finite s m (ex + n) /\
    Z.pos (digits2_pos q) - 53 <= n <= Z.pos (digits2_pos q) - 52 /\
    Z.pos (digits2_pos m) = 53 /\
    2 * Z.abs (Z.pos m * 2 ^ n * D - N) <= 2 ^ n * D.
Proof.
  intros HD Hloc Hd Hex Hover.
  assert (Hq : shr_m (shr_record_of_loc (Z.pos q) lx) = Z.pos q)
    by (destruct lx as [|[]]; reflexivity).
  pose proof (digits_bounds q) as [Hql Hqh].
  set (d := Z.pos (digits2_pos q)) in *.
  unfold binary_round_aux, shr_fexp. cbn [Zdigits2]. fold d.
  rewrite fexp_normal by lia.
  replace (d + ex - 53 - ex) with (d - 53) by lia.
  destruct (shr_locates _ ex (d - 53) N D HD ltac:(lia) Hloc) as (mrs1 & -> & Hloc1).
  set (n1 := d - 53) in *.
  assert (Hn1 : 0 < 2 ^ n1) by (apply Z.pow_pos_nonneg; lia).
  assert (Hhigh : 2 ^ d = 2 ^ 53 * 2 ^ n1)
    by (rewrite <- Z.pow_add_r by lia; f_equal; lia).
  assert (Hlow : 2 ^ (d - 1) = 2 ^ 52 * 2 ^ n1)
    by (rewrite <- Z.pow_add_r by lia; f_equal; lia).
  destruct Hloc as (_ & Hrest & _). rewrite Hq in Hrest.
  assert (Hm1 : 2 ^ 52 <= shr_m mrs1 < 2 ^ 53).
  { destruct Hloc1 as (_ & Hrest1 & _).
    set (m1 := shr_m mrs1) in *. change (2 ^ 52) with 4503599627370496 in *.
    change (2 ^ 53) with 9007199254740992 in *.
    assert (HDn : 0 < D * 2 ^ n1) by nia.
    assert (Hup : N < 9007199254740992 * (D * 2 ^ n1)).
    { assert (Z.pos q + 1 <= 9007199254740992 * 2 ^ n1) by lia.
      assert ((Z.pos q + 1) * D <= 9007199254740992 * 2 ^ n1 * D)
        by (apply Z.mul_le_mono_nonneg_r; lia).
      lia. }
    assert (Hdown : 4503599627370496 * (D * 2 ^ n1) <= N).
    { assert (4503599627370496 * 2 ^ n1 * D <= Z.pos q * D)
        by (apply Z.mul_le_mono_nonneg_r; lia).
      lia. }
    split.
    - assert (4503599627370496 * (D * 2 ^ n1) < (m1 + 1) * (D * 2 ^ n1)) by lia.
      apply Z.mul_lt_mono_pos_r in H; lia.
    - assert (m1 * (D * 2 ^ n1) < 9007199254740992 * (D * 2 ^ n1)) by lia.
      apply Z.mul_lt_mono_pos_r in H; lia. }
  destruct (round_nearest_even_locates mrs1 N _ (Z.mul_pos_pos _ _ HD Hn1) Hloc1)
    as [Hk Hbound].
  set (k := round_nearest_even (shr_m mrs1) (loc_of_shr_record mrs1)) in *.
  destruct k as [|kp|kp] eqn:Hkp; [lia| |lia].
  cbn [Zdigits2].
  destruct (Z.eq_dec (Z.pos kp) (2 ^ 53)) as [Hcarry | Hnocarry].
  - assert (kp = 9007199254740992%positive) as -> by (apply Pos2Z.inj; exact Hcarry).
    change (Z.pos (digits2_pos 9007199254740992)) with 54.
    rewrite fexp_normal by lia.
    replace (54 + (ex + n1) - 53 - (ex + n1)) with 1 by lia.
    cbn [shr shr_record_of_loc SpecFloat.iter_pos shr_1 shr_m].
    replace (ex + n1 + 1 <=? emax - prec) with true
      by (symmetry; apply Z.leb_le; unfold emax, prec; lia).
    exists 4503599627370496%positive, (n1 + 1).
    split; [f_equal; lia|]. split; [lia|]. split; [reflexivity|].
    rewrite Z.pow_add_r, Z.pow_1_r by lia.
    change (Z.pos 9007199254740992) with (2 * Z.pos 4503599627370496) in Hbound.
    nia.
  - assert (Hdk : Z.pos (digits2_pos kp) = 53)
      by (apply digits_unique; change (53 - 1) with 52; lia).
    rewrite Hdk, fexp_normal by lia.
    replace (53 + (ex + n1) - 53 - (ex + n1)) with 0 by lia.
    cbn [shr shr_record_of_loc shr_m].
    replace (ex + n1 <=? emax - prec) with true
      by (symmetry; apply Z.leb_le; unfold emax, prec; lia).
    exists kp, n1. split; [reflexivity|]. split; [lia|]. split; [exact Hdk|].
    replace (Z.pos kp * 2 ^ n1 * D) with (Z.pos kp * (D * 2 ^ n1)) by ring.
    replace (2 ^ n1 * D) with (D * 2 ^ n1) by ring. exact Hbound.
Qed.

Lemma binary_round_aux_exact (s : bool) (q : positive) (ex : Z) :
  Z.pos (digits2_pos q) = 53 -> -1074 <= ex <= 971 ->
  binary_round_aux prec emax s (Z.pos q) ex loc_Exact = S754_finite s q ex.
Proof.
  intros Hd Hex. unfold binary_round_aux, shr_fexp.
  cbn [Zdigits2 shr_record_of_loc]. rewrite Hd, fexp_normal by lia.
  replace (53 + ex - 53 - ex) with 0 by lia.
  cbn [shr shr_m loc_of_shr_record round_nearest_even Zdigits2 shr_record_of_loc].
  rewrite Hd, fexp_normal by lia.
  replace (53 + ex - 53 - ex) with 0 by lia. cbn [shr shr_m].
  replace (ex <=? emax - prec) with true
    by (symmetry; apply Z.leb_le; unfold emax, prec; lia).
  reflexivity.
Qed.

Lemma iter_xO (m k : positive) : Z.pos (Pos.iter xO m k) = Z.pos m * 2 ^ Z.pos k.
Proof.
  induction k as [|k IH] using Pos.peano_ind.
  - cbn [Pos.iter]. rewrite Z.pow_1_r. lia.
  - rewrite Pos.iter_succ, (Pos2Z.inj_xO (Pos.iter xO m k)), IH, Pos2Z.inj_succ,
      Z.pow_succ_r by lia. ring.
Qed.

(** A nonzero integer below [2 ^ 53] is a [number]: [double] gives it
    exactly, with a mantissa of 53 digits. *)
Lemma double_finite (a : Z) :
  a <> 0 -> Z.abs a < 2 ^ 53 ->
  exists (m : positive) (shift : Z),
    double a = S754_finite (a <? 0) m (- shift) /\
    0 <= shift <= 52 /\
    Z.pos (digits2_pos m) = 53 /\
    Z.pos m = Z.abs a * 2 ^ shift.
Proof.
  assert (Hpos : forall (s : bool) (p : positive),
            Z.pos p < 2 ^ 53 ->
            exists (m : positive) (shift : Z),
              binary_round prec emax s p 0 = S754_finite s m (- shift) /\
              0 <= shift <= 52 /\
              Z.pos (digits2_pos m) = 53 /\
              Z.pos m = Z.pos p * 2 ^ shift).
  { intros s p Hp. pose proof (digits_bounds p) as [Hl Hh].
    set (d := Z.pos (digits2_pos p)) in *.
    assert (Hd : 1 <= d <= 53).
    { split; [unfold d; lia|].
      destruct (Z.le_gt_cases d 53) as [H | H]; [exact H|].
      assert (2 ^ 53 <= 2 ^ (d - 1)) by (apply Z.pow_le_mono_r; lia). lia. }
    unfold binary_round. fold d. rewrite fexp_normal by lia. unfold shl_align.
    replace (d + 0 - 53 - 0) with (d - 53) by lia.
    destruct (d - 53) as [|k|k] eqn:Hk; [|lia|].
    - exists p, 0. rewrite binary_round_aux_exact by (unfold d in *; lia).
      split; [reflexivity|]. split; [lia|]. split; [unfold d in *; lia|].
      rewrite Z.pow_0_r. lia.
    - assert (Hdigits : Z.pos (digits2_pos (Pos.iter xO p k)) = 53).
      { apply digits_unique. rewrite iter_xO. change (53 - 1) with 52.
        assert (0 < 2 ^ Z.pos k) by (apply Z.pow_pos_nonneg; lia).
        assert (H52 : 2 ^ 52 = 2 ^ (d - 1) * 2 ^ Z.pos k)
          by (rewrite <- Z.pow_add_r by lia; f_equal; lia).
        assert (H53 : 2 ^ 53 = 2 ^ d * 2 ^ Z.pos k)
          by (rewrite <- Z.pow_add_r by lia; f_equal; lia).
        rewrite H52, H53. split.
        - apply Z.mul_le_mono_nonneg_r; lia.
        - apply Z.mul_lt_mono_pos_r; lia. }
      exists (Pos.iter xO p k), (Z.pos k).
      rewrite binary_round_aux_exact by (exact Hdigits || lia).
      split; [f_equal; lia|]. split; [lia|]. split; [exact Hdigits | apply iter_xO]. }
  intros Hne Ha. unfold double, binary_normalize.
  destruct a as [|p|p]; [contradiction| |].
  - destruct (Hpos false p Ha) as (m & shift & H). exists m, shift. exact H.
  - destruct (Hpos true p Ha) as (m & shift & H). exists m, shift. exact H.
Qed.

Lemma Number_div_nearest (sx sy : bool) (mx my : positive) (ex ey : Z) :
  Z.pos (digits2_pos mx) = 53 -> Z.pos (digits2_pos my) = 53 ->
  -400 <= ex <= 400 -> -400 <= ey <= 400 ->
  exists (m : positive) (n : Z),
    (S754_finite sx mx ex / S754_finite sy my ey)%num =
      S754_finite (xorb sx sy) m (ex - ey - 53 + n) /\
    0 <= n <= 2 /\
    Z.pos (digits2_pos m) = 53 /\
    2 * Z.abs (Z.pos m * 2 ^ n * Z.pos my - Z.pos mx * 2 ^ 53) <= 2 ^ n * Z.pos my.
Proof.
  intros Hdx Hdy Hex Hey.
  pose proof (digits_bounds mx) as Hmx. pose proof (digits_bounds my) as Hmy.
  rewrite Hdx in Hmx. rewrite Hdy in Hmy. change (53 - 1) with 52 in *.
  unfold Number_div, SFdiv, SFdiv_core_binary. cbn [Zdigits2]. rewrite Hdx, Hdy.
  rewrite fexp_normal by lia.
  replace (Z.min (53 + ex - (53 + ey) - 53) (ex - ey)) with (ex - ey - 53) by lia.
  replace (ex - ey - (ex - ey - 53)) with 53 by lia.
  rewrite Z.shiftl_mul_pow2 by lia.
  pose proof (Z.div_eucl_eq (Z.pos mx * 2 ^ 53) (Z.pos my) ltac:(lia)) as Heq.
  pose proof (Z.mod_pos_bound (Z.pos mx * 2 ^ 53) (Z.pos my) ltac:(lia)) as Hmod.
  unfold Z.modulo in Hmod.
  destruct (Z.div_eucl (Z.pos mx * 2 ^ 53) (Z.pos my)) as [q r].
  change (2 ^ 52) with 4503599627370496 in *. change (2 ^ 53) with 9007199254740992 in *.
  assert (Hq : 4503599627370496 <= q < 4 * 4503599627370496) by nia.
  destruct q as [|q|q]; [lia| |lia].
  pose proof (digits_bounds q) as Hdq.
  assert (Hd : 53 <= Z.pos (digits2_pos q) <= 54).
  { split.
    - destruct (Z.le_gt_cases 53 (Z.pos (digits2_pos q))) as [H | H]; [exact H|].
      assert (2 ^ Z.pos (digits2_pos q) <= 2 ^ 52) by (apply Z.pow_le_mono_r; lia).
      change (2 ^ 52) with 4503599627370496 in *. lia.
    - destruct (Z.le_gt_cases (Z.pos (digits2_pos q)) 54) as [H | H]; [exact H|].
      assert (2 ^ 54 <= 2 ^ (Z.pos (digits2_pos q) - 1)) by (apply Z.pow_le_mono_r; lia).
      change (2 ^ 54) with 18014398509481984 in *. lia. }
  destruct (binary_round_aux_nearest (xorb sx sy) q (ex - ey - 53) (new_location (Z.pos my) r)
              (Z.pos mx * 9007199254740992) (Z.pos my)) as (m & n & Hr & Hn & Hdm & Hb);
    try lia.
  { rewrite Heq. rewrite (Z.mul_comm (Z.pos my) (Z.pos q)).
    apply new_location_locates; lia. }
  exists m, n. split; [exact Hr|]. split; [lia|]. split; [exact Hdm | exact Hb].
Qed.

Lemma Number_mul_nearest (sx sy : bool) (mx my : positive) (ex ey : Z) :
  Z.pos (digits2_pos mx) = 53 -> Z.pos (digits2_pos my) = 53 ->
  -400 <= ex <= 400 -> -400 <= ey <= 400 ->
  exists (m : positive) (n : Z),
    (S754_finite sx mx ex * S754_finite sy my ey)%num =
      S754_finite (xorb sx sy) m (ex + ey + n) /\
    52 <= n <= 54 /\
    Z.pos (digits2_pos m) = 53 /\
    2 * Z.abs (Z.pos m * 2 ^ n - Z.pos mx * Z.pos my) <= 2 ^ n.
Proof.
  intros Hdx Hdy Hex Hey.
  pose proof (digits_bounds mx) as Hmx. pose proof (digits_bounds my) as Hmy.
  rewrite Hdx in Hmx. rewrite Hdy in Hmy. change (53 - 1) with 52 in *.
  unfold Number_mul, SFmul.
  change (2 ^ 52) with 4503599627370496 in *. change (2 ^ 53) with 9007199254740992 in *.
  pose proof (digits_bounds (mx * my)) as Hdq. rewrite Pos2Z.inj_mul in Hdq.
  assert (Hprod : 4503599627370496 * 4503599627370496 <= Z.pos mx * Z.pos my <
                  9007199254740992 * 9007199254740992) by nia.
  assert (Hd : 105 <= Z.pos (digits2_pos (mx * my)) <= 106).
  { split.
    - destruct (Z.le_gt_cases 105 (Z.pos (digits2_pos (mx * my)))) as [H | H]; [exact H|].
      assert (2 ^ Z.pos (digits2_pos (mx * my)) <= 2 ^ 104)
        by (apply Z.pow_le_mono_r; lia).
      change (2 ^ 104) with (4503599627370496 * 4503599627370496) in *. lia.
    - destruct (Z.le_gt_cases (Z.pos (digits2_pos (mx * my))) 106) as [H | H]; [exact H|].
      assert (2 ^ 106 <= 2 ^ (Z.pos (digits2_pos (mx * my)) - 1))
        by (apply Z.pow_le_mono_r; lia).
      change (2 ^ 106) with (9007199254740992 * 9007199254740992) in *. lia. }
  destruct (binary_round_aux_nearest (xorb sx sy) (mx * my) (ex + ey) loc_Exact
              (Z.pos mx * Z.pos my) 1) as (m & n & Hr & Hn & Hdm & Hb); try lia.
  { rewrite <- Pos2Z.inj_mul. rewrite <- (Z.mul_1_r (Z.pos (mx * my))) at 2.
    apply exact_locates; lia. }
  exists m, n. split; [exact Hr|]. split; [lia|]. split; [exact Hdm|].
  rewrite !Z.mul_1_r in Hb. exact Hb.
Qed.

Lemma grid_pos : 0 < Laws.grid.
Proof. unfold Laws.grid. apply Z.pow_pos_nonneg; lia. Qed.

Lemma grid_split (e : Z) : -200 <= e <= 0 -> Laws.grid = 2 ^ (- e) * 2 ^ (e + 200).
Proof. intros He. unfold Laws.grid. rewrite <- Z.pow_add_r by lia. f_equal. lia. Qed.

Lemma Math_round_scaled (x : number) :
  Laws.normal (-200) 400 x -> Math_round x = (2 * Laws.scaled x + Laws.grid) / (2 * Laws.grid).
Proof.
  destruct x as [| | |s m e]; cbn [Laws.normal]; try contradiction.
  intros [_ He]. cbn [Math_round Laws.scaled]. pose proof grid_pos as HG.
  destruct (Z.leb_spec 0 e) as [Hpos | Hneg].
  - replace (2 ^ (e + 200)) with (2 ^ e * Laws.grid)
      by (unfold Laws.grid; rewrite <- Z.pow_add_r by lia; reflexivity).
    replace (2 * (signed s m * (2 ^ e * Laws.grid)) + Laws.grid)
      with ((signed s m * 2 ^ e) * (2 * Laws.grid) + Laws.grid) by ring.
    rewrite Z.div_add_l by lia. rewrite Z.div_small by lia. lia.
  - rewrite (grid_split e) by lia.
    assert (0 < 2 ^ (- e)) by (apply Z.pow_pos_nonneg; lia).
    assert (0 < 2 ^ (e + 200)) by (apply Z.pow_pos_nonneg; lia).
    replace (2 ^ (1 - e)) with (2 * 2 ^ (- e))
      by (rewrite <- Z.pow_succ_r by lia; f_equal; lia).
    replace (2 * (signed s m * 2 ^ (e + 200)) + 2 ^ (- e) * 2 ^ (e + 200))
      with ((2 * signed s m + 2 ^ (- e)) * 2 ^ (e + 200)) by ring.
    replace (2 * (2 ^ (- e) * 2 ^ (e + 200))) with (2 * 2 ^ (- e) * 2 ^ (e + 200)) by ring.
    rewrite Z.div_mul_cancel_r by lia. reflexivity.
Qed.

Lemma scaled_double (a : Z) :
  a <> 0 -> Z.abs a < 2 ^ 53 ->
  Laws.normal (-52) 0 (double a) /\ Laws.scaled (double a) = a * Laws.grid.
Proof.
  intros Hne Ha. destruct (double_finite a Hne Ha) as (m & shift & -> & Hs & Hd & Hm).
  cbn [Laws.normal Laws.scaled]. split; [split; [exact Hd | lia]|].
  rewrite (grid_split (- shift)) by lia. rewrite Z.opp_involutive.
  assert (Hsign : signed (a <? 0) m = a * 2 ^ shift).
  { unfold signed. destruct (Z.ltb_spec a 0).
    - change (Z.neg m) with (- Z.pos m). rewrite Hm, (Z.abs_neq a) by lia. ring.
    - rewrite Hm, (Z.abs_eq a) by lia. ring. }
  rewrite Hsign. ring.
Qed.

Lemma signed_mul (s t : bool) (m : positive) (x : Z) :
  signed (xorb s t) m * (signed t 1 * x) = signed s m * x.
Proof. destruct s, t; cbn [xorb signed]; lia. Qed.

Lemma signed_abs (s : bool) (x y : Z) :
  Z.abs (signed s 1 * x - signed s 1 * y) = Z.abs (x - y).
Proof. destruct s; cbn [signed]; lia. Qed.

Lemma signed_unit_abs (s : bool) (x : Z) : Z.abs (signed s 1 * x) = Z.abs x.
Proof. destruct s; cbn [signed]; lia. Qed.

Lemma signed_unit (s : bool) (m : positive) : signed s m = signed s 1 * Z.pos m.
Proof. destruct s; cbn [signed]; lia. Qed.

(** The error of a division, in units of the Laws.grid. *)
Lemma Number_div_error (sx sy : bool) (mx my : positive) (ex ey : Z) :
  Z.pos (digits2_pos mx) = 53 -> Z.pos (digits2_pos my) = 53 ->
  -60 <= ex <= 60 -> -60 <= ey <= 60 ->
  exists (m : positive) (n : Z),
    (S754_finite sx mx ex / S754_finite sy my ey)%num =
      S754_finite (xorb sx sy) m (ex - ey - 53 + n) /\
    0 <= n <= 2 /\
    Z.pos (digits2_pos m) = 53 /\
    2 * Z.abs (Z.pos m * 2 ^ n * Z.pos my - Z.pos mx * 2 ^ 53) <= 2 ^ n * Z.pos my /\
    Laws.scaled (S754_finite sx mx ex / S754_finite sy my ey)%num *
      Laws.scaled (S754_finite sy my ey) - Laws.scaled (S754_finite sx mx ex) * Laws.grid =
    signed sx 1 * ((Z.pos m * 2 ^ n * Z.pos my - Z.pos mx * 2 ^ 53) * 2 ^ (ex + 347)).
Proof.
  intros Hdx Hdy Hex Hey.
  destruct (Number_div_nearest sx sy mx my ex ey Hdx Hdy ltac:(lia) ltac:(lia))
    as (m & n & Hq & Hn & Hdm & Hb).
  exists m, n. rewrite Hq. split; [reflexivity|]. split; [exact Hn|].
  split; [exact Hdm|]. split; [exact Hb|].
  cbn [Laws.scaled].
  replace (2 ^ (ex - ey - 53 + n + 200)) with (2 ^ n * 2 ^ (ex - ey + 147))
    by (rewrite <- Z.pow_add_r by lia; f_equal; lia).
  assert (H1 : 2 ^ (ex - ey + 147) * 2 ^ (ey + 200) = 2 ^ (ex + 347))
    by (rewrite <- Z.pow_add_r by lia; f_equal; lia).
  assert (H2 : 2 ^ (ex + 200) * Laws.grid = 2 ^ 53 * 2 ^ (ex + 347))
    by (unfold Laws.grid; rewrite <- !Z.pow_add_r by lia; f_equal; lia).
  rewrite (signed_unit (xorb sx sy) m), (signed_unit sy my), (signed_unit sx mx).
  replace (signed (xorb sx sy) 1 * Z.pos m * (2 ^ n * 2 ^ (ex - ey + 147)) *
           (signed sy 1 * Z.pos my * 2 ^ (ey + 200)))
    with (signed (xorb sx sy) 1 * (signed sy 1 *
            (Z.pos m * 2 ^ n * Z.pos my * (2 ^ (ex - ey + 147) * 2 ^ (ey + 200))))) by ring.
  rewrite signed_mul, H1.
  replace (signed sx 1 * Z.pos mx * 2 ^ (ex + 200) * Laws.grid)
    with (signed sx 1 * (Z.pos mx * (2 ^ (ex + 200) * Laws.grid))) by ring.
  rewrite H2. ring.
Qed.

(** The quotient of two Laws.normal numbers is within a relative distance of
    [1 / (2 ^ 53 - 1)] of the exact quotient. *)
Lemma Number_div_scaled (x y : number) :
  Laws.normal (-60) 60 x -> Laws.normal (-60) 60 y ->
  Laws.normal (-180) 70 (x / y)%num /\
  (2 ^ 53 - 1) * Z.abs (Laws.scaled (x / y)%num * Laws.scaled y - Laws.scaled x * Laws.grid) <=
  Z.abs (Laws.scaled x) * Laws.grid.
Proof.
  destruct x as [| | |sx mx ex], y as [| | |sy my ey]; cbn [Laws.normal]; try tauto.
  intros [Hdx Hex] [Hdy Hey].
  destruct (Number_div_error sx sy mx my ex ey Hdx Hdy Hex Hey)
    as (m & n & Hq & Hn & Hdm & Hb & ->).
  rewrite Hq. cbn [Laws.normal]. split; [split; [exact Hdm | lia]|].
  pose proof (digits_bounds m) as Hm. rewrite Hdm in Hm. change (53 - 1) with 52 in Hm.
  set (T := 2 ^ (ex + 347)).
  assert (HT : 0 < T) by (apply Z.pow_pos_nonneg; lia).
  assert (Hn2 : 0 < 2 ^ n) by (apply Z.pow_pos_nonneg; lia).
  assert (H2 : 2 ^ (ex + 200) * Laws.grid = 2 ^ 53 * T)
    by (unfold T, Laws.grid; rewrite <- !Z.pow_add_r by lia; f_equal; lia).
  rewrite signed_unit_abs. cbn [Laws.scaled]. rewrite (signed_unit sx mx).
  replace (signed sx 1 * Z.pos mx * 2 ^ (ex + 200))
    with (signed sx 1 * (Z.pos mx * 2 ^ (ex + 200))) by ring.
  rewrite signed_unit_abs.
  assert (0 < 2 ^ (ex + 200)) by (apply Z.pow_pos_nonneg; lia).
  rewrite (Z.abs_eq (Z.pos mx * 2 ^ (ex + 200))) by lia.
  replace (Z.pos mx * 2 ^ (ex + 200) * Laws.grid) with (Z.pos mx * (2 ^ (ex + 200) * Laws.grid))
    by ring.
  rewrite H2.
  rewrite Z.abs_mul, (Z.abs_eq T) by lia.
  set (V := Z.abs (Z.pos m * 2 ^ n * Z.pos my - Z.pos mx * 2 ^ 53)) in *.
  assert (Hrel : (2 ^ 53 - 1) * V <= Z.pos mx * 2 ^ 53).
  { set (ED := 2 ^ n * Z.pos my) in *.
    assert (HX : 2 ^ 52 * ED <= Z.pos m * 2 ^ n * Z.pos my).
    { replace (Z.pos m * 2 ^ n * Z.pos my) with (Z.pos m * ED) by (unfold ED; ring).
      apply Z.mul_le_mono_nonneg_r; unfold ED; nia. }
    change (2 ^ 53) with 9007199254740992 in *. change (2 ^ 52) with 4503599627370496 in *.
    unfold V in *. lia. }
  replace ((2 ^ 53 - 1) * (V * T)) with ((2 ^ 53 - 1) * V * T) by ring.
  replace (Z.pos mx * (2 ^ 53 * T)) with (Z.pos mx * 2 ^ 53 * T) by ring.
  apply Z.mul_le_mono_nonneg_r; lia.
Qed.

Lemma signed_xorb (s t : bool) : signed (xorb s t) 1 = signed s 1 * signed t 1.
Proof. destruct s, t; reflexivity. Qed.

(** The product of two Laws.normal numbers is within a relative distance of
    [1 / (2 ^ 53 - 1)] of the exact product. *)
Lemma Number_mul_scaled (x y : number) :
  Laws.normal (-180) 70 x -> Laws.normal (-60) 60 y ->
  Laws.normal (-200) 200 (x * y)%num /\
  (2 ^ 53 - 1) * Z.abs (Laws.scaled (x * y)%num * Laws.grid - Laws.scaled x * Laws.scaled y) <=
  Z.abs (Laws.scaled x * Laws.scaled y).
Proof.
  destruct x as [| | |sx mx ex], y as [| | |sy my ey]; cbn [Laws.normal]; try tauto.
  intros [Hdx Hex] [Hdy Hey].
  destruct (Number_mul_nearest sx sy mx my ex ey Hdx Hdy ltac:(lia) ltac:(lia))
    as (m & n & -> & Hn & Hdm & Hb).
  cbn [Laws.normal Laws.scaled]. split; [split; [exact Hdm | lia]|].
  pose proof (digits_bounds m) as Hm. rewrite Hdm in Hm. change (53 - 1) with 52 in Hm.
  set (T := 2 ^ (ex + ey + 400)).
  assert (HT : 0 < T) by (apply Z.pow_pos_nonneg; lia).
  assert (Hn2 : 0 < 2 ^ n) by (apply Z.pow_pos_nonneg; lia).
  assert (H1 : 2 ^ (ex + ey + n + 200) * Laws.grid = 2 ^ n * T)
    by (unfold T, Laws.grid; rewrite <- !Z.pow_add_r by lia; f_equal; lia).
  assert (H2 : 2 ^ (ex + 200) * 2 ^ (ey + 200) = T)
    by (unfold T; rewrite <- Z.pow_add_r by lia; f_equal; lia).
  rewrite (signed_unit (xorb sx sy) m), (signed_unit sy my), (signed_unit sx mx).
  rewrite signed_xorb.
  replace (signed sx 1 * signed sy 1 * Z.pos m * 2 ^ (ex + ey + n + 200) * Laws.grid)
    with (signed sx 1 * (signed sy 1 * (Z.pos m * (2 ^ (ex + ey + n + 200) * Laws.grid))))
    by ring.
  replace (signed sx 1 * Z.pos mx * 2 ^ (ex + 200) * (signed sy 1 * Z.pos my * 2 ^ (ey + 200)))
    with (signed sx 1 * (signed sy 1 *
            (Z.pos mx * Z.pos my * (2 ^ (ex + 200) * 2 ^ (ey + 200))))) by ring.
  rewrite H1, H2, signed_abs, signed_abs, !signed_unit_abs.
  replace (Z.pos m * (2 ^ n * T) - Z.pos mx * Z.pos my * T)
    with ((Z.pos m * 2 ^ n - Z.pos mx * Z.pos my) * T) by ring.
  rewrite !Z.abs_mul, (Z.abs_eq T) by lia.
  set (V := Z.abs (Z.pos m * 2 ^ n - Z.pos mx * Z.pos my)) in *.
  rewrite <- Z.abs_mul, (Z.abs_eq (Z.pos mx * Z.pos my)) by lia.
  assert (Hrel : (2 ^ 53 - 1) * V <= Z.pos mx * Z.pos my).
  { assert (HX : 2 ^ 52 * 2 ^ n <= Z.pos m * 2 ^ n)
      by (apply Z.mul_le_mono_nonneg_r; lia).
    change (2 ^ 53) with 9007199254740992 in *. change (2 ^ 52) with 4503599627370496 in *.
    unfold V in *. lia. }
  replace ((2 ^ 53 - 1) * (V * T)) with ((2 ^ 53 - 1) * V * T) by ring.
  apply Z.mul_le_mono_nonneg_r; lia.
Qed.

(** Rounding a value that is close enough to [n / den]: the result is the
    rounding of [n / den], or one less when [n / den] is halfway. *)
Lemma round_close (v n den : Z) :
  0 < den -> 2 * Z.abs (v * den - n * Laws.grid) < Laws.grid ->
  let k := (2 * v + Laws.grid) / (2 * Laws.grid) in
  let r := (2 * n + den) / (2 * den) in
  k = r \/ ((2 * n + den) mod (2 * den) = 0 /\ k = r - 1).
Proof.
  intros Hden Hclose k r. pose proof grid_pos as HG.
  pose proof (Z.div_mod (2 * v + Laws.grid) (2 * Laws.grid) ltac:(lia)) as Hk.
  pose proof (Z.mod_pos_bound (2 * v + Laws.grid) (2 * Laws.grid) ltac:(lia)) as Hkm.
  pose proof (Z.div_mod (2 * n + den) (2 * den) ltac:(lia)) as Hr.
  pose proof (Z.mod_pos_bound (2 * n + den) (2 * den) ltac:(lia)) as Hrm.
  fold k in Hk. fold r in Hr.
  set (kr := (2 * v + Laws.grid) mod (2 * Laws.grid)) in *.
  set (rr := (2 * n + den) mod (2 * den)) in *.
  assert (Hle : k <= r).
  { assert (H : 2 * den * k * Laws.grid < (2 * n + den + 1) * Laws.grid) by nia.
    apply Z.mul_lt_mono_pos_r in H; [|exact HG].
    assert (2 * den * k < 2 * den * (r + 1)) by lia.
    apply Z.mul_lt_mono_pos_l in H0; lia. }
  assert (Hge : (2 * n + den) <= 2 * den * (k + 1)).
  { assert (H : (2 * n + den - 1) * Laws.grid < 2 * den * (k + 1) * Laws.grid) by nia.
    apply Z.mul_lt_mono_pos_r in H; [|exact HG]. lia. }
  assert (Hcases : r <= k \/ (rr = 0 /\ k = r - 1)).
  { destruct (Z.le_gt_cases r k) as [H | H]; [left; exact H | right].
    assert (2 * den * r <= 2 * den * (k + 1)) by lia.
    apply Z.mul_le_mono_pos_l in H0; [|lia].
    assert (k = r - 1) by lia. subst k. split; [|assumption]. nia. }
  destruct Hcases as [H | H]; [left; lia | right; exact H].
Qed.

Lemma normal_weaken (lo hi lo' hi' : Z) (x : number) :
  lo' <= lo -> hi <= hi' -> Laws.normal lo hi x -> Laws.normal lo' hi' x.
Proof.
  intros Hlo Hhi. destruct x as [| | |s m e]; cbn [Laws.normal]; try tauto.
  intros [Hd He]. split; [exact Hd | lia].
Qed.

(** [(a / b) * c] in binary64 is closer to the exact value than half of
    [1 / b], the least distance between two values of that kind that
    differ. *)
Lemma ratio_close (a b c : Z) :
  a <> 0 -> Z.abs a <= 2 ^ 40 -> 0 < b < 2 ^ 53 -> 0 < c <= 1000 ->
  Laws.normal (-200) 200 (double a / double b * double c)%num /\
  2 * Z.abs (Laws.scaled (double a / double b * double c)%num * b - a * c * Laws.grid) < Laws.grid.
Proof.
  intros Ha Hamax Hb Hc. pose proof grid_pos as HG.
  change (2 ^ 40) with 1099511627776 in *. change (2 ^ 53) with 9007199254740992 in *.
  destruct (scaled_double a Ha ltac:(change (2 ^ 53) with 9007199254740992; lia))
    as [Na Sa].
  destruct (scaled_double b ltac:(lia) ltac:(change (2 ^ 53) with 9007199254740992; lia))
    as [Nb Sb].
  destruct (scaled_double c ltac:(lia) ltac:(change (2 ^ 53) with 9007199254740992; lia))
    as [Nc Sc].
  apply (normal_weaken _ _ (-60) 60) in Na, Nb, Nc; try lia.
  destruct (Number_div_scaled _ _ Na Nb) as [Nq Bq].
  destruct (Number_mul_scaled _ _ Nq Nc) as [Np Bp].
  split; [exact Np|].
  set (sq := Laws.scaled (double a / double b)%num) in *.
  set (sp := Laws.scaled (double a / double b * double c)%num) in *.
  rewrite Sa, Sb in Bq. rewrite Sc in Bp.
  change (2 ^ 53 - 1) with 9007199254740991 in *.
  set (K := 9007199254740991) in *.
  assert (H1 : K * Z.abs (sq * b - a * Laws.grid) <= Z.abs a * Laws.grid).
  { replace (sq * (b * Laws.grid) - a * Laws.grid * Laws.grid) with ((sq * b - a * Laws.grid) * Laws.grid) in Bq
      by ring.
    rewrite Z.abs_mul, (Z.abs_eq Laws.grid), (Z.abs_mul a Laws.grid), (Z.abs_eq Laws.grid) in Bq by lia.
    replace (K * (Z.abs (sq * b - a * Laws.grid) * Laws.grid))
      with (K * Z.abs (sq * b - a * Laws.grid) * Laws.grid) in Bq by ring.
    apply Z.mul_le_mono_pos_r in Bq; [exact Bq | exact HG]. }
  assert (H2 : K * Z.abs (sp - sq * c) <= Z.abs sq * c).
  { replace (sp * Laws.grid - sq * (c * Laws.grid)) with ((sp - sq * c) * Laws.grid) in Bp by ring.
    replace (sq * (c * Laws.grid)) with (sq * c * Laws.grid) in Bp by ring.
    rewrite !Z.abs_mul, (Z.abs_eq Laws.grid), (Z.abs_eq c) in Bp by lia.
    replace (K * (Z.abs (sp - sq * c) * Laws.grid))
      with (K * Z.abs (sp - sq * c) * Laws.grid) in Bp by ring.
    apply Z.mul_le_mono_pos_r in Bp; [exact Bp | exact HG]. }
  set (E1 := sq * b - a * Laws.grid) in *. set (E2 := sp - sq * c) in *.
  replace (sp * b - a * c * Laws.grid) with (E2 * b + c * E1) by (unfold E1, E2; ring).
  assert (H3 : Z.abs sq * b <= Z.abs a * Laws.grid + Z.abs E1).
  { rewrite <- (Z.abs_eq b) at 1 by lia. rewrite <- Z.abs_mul.
    rewrite <- (Z.abs_eq Laws.grid) at 1 by lia. rewrite <- (Z.abs_mul a Laws.grid).
    unfold E1. lia. }
  assert (H4 : K * K * (Z.abs E2 * b) <= (K + 1) * (Z.abs a * Laws.grid) * c).
  { assert (K * Z.abs E2 * b <= Z.abs sq * c * b)
      by (apply Z.mul_le_mono_nonneg_r; lia).
    assert (Z.abs sq * b * c <= (Z.abs a * Laws.grid + Z.abs E1) * c)
      by (apply Z.mul_le_mono_nonneg_r; lia).
    assert (K * (K * Z.abs E2 * b) <= K * ((Z.abs a * Laws.grid + Z.abs E1) * c))
      by (apply Z.mul_le_mono_nonneg_l; unfold K; lia).
    assert (K * Z.abs E1 * c <= Z.abs a * Laws.grid * c)
      by (apply Z.mul_le_mono_nonneg_r; lia).
    lia. }
  assert (H5 : K * K * (c * Z.abs E1) <= K * (Z.abs a * Laws.grid) * c).
  { assert (K * Z.abs E1 * c <= Z.abs a * Laws.grid * c)
      by (apply Z.mul_le_mono_nonneg_r; lia).
    assert (K * (K * Z.abs E1 * c) <= K * (Z.abs a * Laws.grid * c))
      by (apply Z.mul_le_mono_nonneg_l; unfold K; lia).
    lia. }
  assert (H6 : Z.abs (E2 * b + c * E1) <= Z.abs E2 * b + c * Z.abs E1).
  { rewrite <- (Z.abs_eq b) at 2 by lia. rewrite <- (Z.abs_eq c) at 2 by lia.
    rewrite <- !Z.abs_mul. apply Z.abs_triangle. }
  assert (H7 : Z.abs a * c <= 1099511627776 * 1000)
    by (apply Z.mul_le_mono_nonneg; lia).
  assert (H8 : K * K * (2 * Z.abs (E2 * b + c * E1)) < K * K * Laws.grid).
  { assert (K * K * (2 * Z.abs (E2 * b + c * E1)) <=
            2 * (2 * K + 1) * (Z.abs a * c) * Laws.grid) by lia.
    assert (2 * (2 * K + 1) * (Z.abs a * c) * Laws.grid < K * K * Laws.grid).
    { apply Z.mul_lt_mono_pos_r; [exact HG|]. unfold K. lia. }
    lia. }
  apply Z.mul_lt_mono_pos_l in H8; [exact H8 | unfold K; lia].
Qed.

(** [Math.round((a / b) * c)] against the exact rounding of [a * c / b]. *)
Lemma Math_round_ratio (a b c : Z) :
  Z.abs a <= 2 ^ 40 -> 0 < b < 2 ^ 53 -> 0 < c <= 1000 ->
  let k := Math_round (double a / double b * double c)%num in
  let r := (2 * (a * c) + b) / (2 * b) in
  k = r \/ ((2 * (a * c) + b) mod (2 * b) = 0 /\ k = r - 1).
Proof.
  intros Ha Hb Hc k r. destruct (Z.eq_dec a 0) as [-> | Hne].
  - left. subst k r.
    destruct (double_finite b ltac:(lia) ltac:(lia)) as (mb & sb & -> & _).
    destruct (double_finite c ltac:(lia) ltac:(change (2 ^ 53) with 9007199254740992; lia))
      as (mc & sc & -> & _).
    cbn. rewrite Z.div_small by lia. reflexivity.
  - destruct (ratio_close a b c Hne Ha Hb Hc) as [Np Hclose]. subst k.
    rewrite Math_round_scaled by (eapply normal_weaken; [| |exact Np]; lia).
    apply round_close; [lia|].
    replace (a * c * Laws.grid) with (a * c * Laws.grid) by ring. exact Hclose.
Qed.

(** [Math.round(a / b)] is the exact rounding of the quotient: a
    quotient that is halfway between two integers is a [number] and the
    division returns it. *)
Lemma Math_round_quotient (a b : Z) :
  0 <= a <= 2 ^ 40 -> 0 < b < 2 ^ 53 ->
  Math_round (double a / double b)%num = (2 * a + b) / (2 * b).
Proof.
  intros Ha Hb. pose proof grid_pos as HG.
  change (2 ^ 40) with 1099511627776 in *. change (2 ^ 53) with 9007199254740992 in *.
  destruct (Z.eq_dec a 0) as [-> | Hne].
  - destruct (double_finite b ltac:(lia) ltac:(change (2 ^ 53) with 9007199254740992; lia))
      as (mb & sb & -> & _).
    cbn. rewrite Z.div_small by lia. reflexivity.
  - destruct (double_finite a Hne ltac:(change (2 ^ 53) with 9007199254740992; lia))
      as (ma & sa & Hda & Hsa & Hdma & Hma).
    destruct (double_finite b ltac:(lia) ltac:(change (2 ^ 53) with 9007199254740992; lia))
      as (mb & sb & Hdb & Hsb & Hdmb & Hmb).
    rewrite (Z.abs_eq a) in Hma by lia. rewrite (Z.abs_eq b) in Hmb by lia.
    replace (a <? 0) with false in Hda by (symmetry; apply Z.ltb_ge; lia).
    replace (b <? 0) with false in Hdb by (symmetry; apply Z.ltb_ge; lia).
    destruct (Number_div_error false false ma mb (- sa) (- sb) Hdma Hdmb
                ltac:(lia) ltac:(lia)) as (m & n & Hq & Hn & Hdm & Hbound & Herr).
    rewrite <- Hda, <- Hdb in Hq, Herr.
    destruct (scaled_double a Hne ltac:(change (2 ^ 53) with 9007199254740992; lia))
      as [Na Sa].
    destruct (scaled_double b ltac:(lia) ltac:(change (2 ^ 53) with 9007199254740992; lia))
      as [Nb Sb].
    apply (normal_weaken _ _ (-60) 60) in Na, Nb; try lia.
    rewrite Sa, Sb in Herr. cbn [signed] in Herr.
    set (q := (double a / double b)%num) in *.
    assert (Nq : Laws.normal (-200) 400 q).
    { rewrite Hq. cbn [Laws.normal xorb]. split; [exact Hdm | lia]. }
    rewrite (Math_round_scaled q Nq).
    set (V := Z.pos m * 2 ^ n * Z.pos mb - Z.pos ma * 2 ^ 53) in *.
    set (T := 2 ^ (- sa + 347)) in *.
    assert (HT : 0 < T) by (apply Z.pow_pos_nonneg; lia).
    assert (Hn2 : 0 < 2 ^ n) by (apply Z.pow_pos_nonneg; lia).
    assert (Herr' : (Laws.scaled q * b - a * Laws.grid) * Laws.grid = V * T) by lia.
    destruct (Z.eq_dec ((2 * a + b) mod (2 * b)) 0) as [Htie | Hfree].
    + (* the quotient is halfway: the division is exact *)
      apply Z.mod_divide in Htie; [|lia]. destruct Htie as [r Hr].
      assert (Hsa12 : 12 <= sa).
      { pose proof (digits_bounds ma) as Hb52. rewrite Hdma in Hb52.
        change (53 - 1) with 52 in Hb52. rewrite Hma in Hb52.
        destruct (Z.le_gt_cases 12 sa) as [H | H]; [exact H|].
        assert (2 ^ sa <= 2 ^ 11) by (apply Z.pow_le_mono_r; lia).
        change (2 ^ 11) with 2048 in *. change (2 ^ 52) with 4503599627370496 in *.
        assert (a * 2 ^ sa <= 1099511627776 * 2048) by (apply Z.mul_le_mono_nonneg; lia).
        lia. }
      set (j := sa + 52 - n - sb).
      assert (Hpow : 2 ^ sa * 2 ^ 53 = 2 * 2 ^ j * (2 ^ n * 2 ^ sb)).
      { replace 2 with (2 ^ 1) at 3 by reflexivity.
        rewrite <- !Z.pow_add_r by (unfold j; lia). f_equal. unfold j. lia. }
      assert (HV : V = 0).
      { assert (Hexact : Z.pos ma * 2 ^ 53 = (2 * r - 1) * 2 ^ j * (2 ^ n * Z.pos mb)).
        { rewrite Hma, Hmb.
          assert (2 * (a * 2 ^ sa * 2 ^ 53) =
                  2 * ((2 * r - 1) * 2 ^ j * (2 ^ n * (b * 2 ^ sb)))); [|lia].
          replace (2 * (a * 2 ^ sa * 2 ^ 53)) with (2 * a * (2 ^ sa * 2 ^ 53)) by ring.
          rewrite Hpow. replace (2 * a) with (r * (2 * b) - b) by lia. ring. }
        unfold V in *. rewrite Hexact in Hbound |- *.
        set (ED := 2 ^ n * Z.pos mb) in *.
        assert (HED : 0 < ED) by (unfold ED; nia).
        replace (Z.pos m * 2 ^ n * Z.pos mb) with (Z.pos m * ED) in * by (unfold ED; ring).
        replace (Z.pos m * ED - (2 * r - 1) * 2 ^ j * ED)
          with ((Z.pos m - (2 * r - 1) * 2 ^ j) * ED) in * by ring.
        rewrite Z.abs_mul, (Z.abs_eq ED) in Hbound by lia.
        assert (Z.abs (Z.pos m - (2 * r - 1) * 2 ^ j) = 0); [|nia].
        assert (2 * Z.abs (Z.pos m - (2 * r - 1) * 2 ^ j) * ED < 2 * ED) by lia.
        apply Z.mul_lt_mono_pos_r in H; lia. }
      rewrite HV, Z.mul_0_l in Herr'.
      assert (Hsq : Laws.scaled q * b = a * Laws.grid) by nia.
      assert (Hk : (2 * Laws.scaled q + Laws.grid) * b = r * (2 * Laws.grid) * b) by nia.
      apply Z.mul_cancel_r in Hk; [|lia]. rewrite Hk, Z.div_mul by lia.
      rewrite Hr, Z.div_mul by lia. reflexivity.
    + destruct (Number_div_scaled (double a) (double b) Na Nb) as [_ Bq].
      fold q in Bq. rewrite Sa, Sb in Bq. change (2 ^ 53 - 1) with 9007199254740991 in Bq.
      assert (Hclose : 2 * Z.abs (Laws.scaled q * b - a * Laws.grid) < Laws.grid).
      { replace (Laws.scaled q * (b * Laws.grid) - a * Laws.grid * Laws.grid)
          with ((Laws.scaled q * b - a * Laws.grid) * Laws.grid) in Bq by ring.
        rewrite Z.abs_mul, (Z.abs_eq Laws.grid), (Z.abs_mul a Laws.grid), (Z.abs_eq Laws.grid),
          (Z.abs_eq a) in Bq by lia.
        replace (9007199254740991 * (Z.abs (Laws.scaled q * b - a * Laws.grid) * Laws.grid))
          with (9007199254740991 * Z.abs (Laws.scaled q * b - a * Laws.grid) * Laws.grid) in Bq by ring.
        apply Z.mul_le_mono_pos_r in Bq; [|exact HG].
        assert (a * Laws.grid <= 1099511627776 * Laws.grid)
          by (apply Z.mul_le_mono_nonneg_r; lia).
        lia. }
      destruct (round_close (Laws.scaled q) a b ltac:(lia) Hclose) as [H | [H _]];
        [exact H | contradiction].
Qed.

(** *** Against the exact roundings *)

Lemma round_ratio (a b c : Z) :
  0 < b ->
  Spec.round (inject_Z a / inject_Z b * inject_Z c) = (2 * (a * c) + b) / (2 * b).
Proof.
  intros Hb. unfold Spec.round. rewrite Zdiv_Qdiv. apply Qfloor_comp.
  rewrite !inject_Z_plus, !inject_Z_mult. change (inject_Z 2) with 2%Q.
  field. apply inject_Z_nonzero. lia.
Qed.

Lemma halfway_ratio (a b c : Z) :
  0 < b -> (2 * (a * c) + b) mod (2 * b) = 0 ->
  Spec.halfway (inject_Z a / inject_Z b * inject_Z c).
Proof.
  intros Hb Hmod. apply Z.mod_divide in Hmod; [|lia]. destruct Hmod as [r Hr].
  exists (r - 1). destruct b as [|p|p]; [lia| |lia].
  unfold Qeq, Qdiv, Qmult, Qinv, Qplus, inject_Z. cbn [Qnum Qden].
  rewrite !Pos2Z.inj_mul, !Z.mul_1_r. cbn [Z.mul Pos.mul]. lia.
Qed.

Lemma Math_round_rounded (a b c : Z) :
  Z.abs a <= 2 ^ 40 -> 0 < b < 2 ^ 53 -> 0 < c <= 1000 ->
  Spec.rounded (inject_Z a / inject_Z b * inject_Z c)
    (Math_round (double a / double b * double c)%num).
Proof.
  intros Ha Hb Hc. unfold Spec.rounded. rewrite round_ratio by lia.
  destruct (Math_round_ratio a b c Ha Hb Hc) as [H | [Hmod H]].
  - left. exact H.
  - right. split; [apply halfway_ratio; [lia | exact Hmod] | exact H].
Qed.

Lemma Math_round_average (a b : Z) :
  0 <= a <= 2 ^ 40 -> 0 < b < 2 ^ 53 ->
  Math_round (double a / double b)%num = Spec.round (inject_Z a / inject_Z b).
Proof.
  intros Ha Hb. rewrite Math_round_quotient by assumption.
  unfold Spec.round. rewrite Zdiv_Qdiv. apply Qfloor_comp.
  rewrite !inject_Z_plus, !inject_Z_mult. change (inject_Z 2) with 2%Q.
  field. apply inject_Z_nonzero. lia.
Qed.

End RoundingFacts.

(** ** The cache of the token service *)

Section CacheFacts.
Import JS TokenMetricsService.

(** Deleting, one key after the other, the keys of [keys] that satisfy
    [drop]. *)
Lemma fold_delete_lookup {V} (drop : string -> bool) (keys : list string)
  (m : gmap string V) (k : string) :
  List.fold_left (fun m key => if drop key then delete key m else m) keys m !! k =
  if drop k && bool_decide (k ∈ keys) then None else m !! k.
Proof.
  revert m. induction keys as [|key keys IH]; intros m; cbn [List.fold_left].
  - rewrite bool_decide_eq_false_2 by apply not_elem_of_nil.
    rewrite andb_false_r. reflexivity.
  - rewrite IH. destruct (drop k) eqn:Hk; cbn [andb].
    + destruct (decide (key = k)) as [->|Hne].
      * rewrite Hk, lookup_delete_eq.
        rewrite (bool_decide_eq_true_2 (k ∈ k :: keys)) by apply list_elem_of_here.
        destruct (bool_decide (k ∈ keys)); reflexivity.
      * assert (Hin : k ∈ key :: keys <-> k ∈ keys).
        { rewrite elem_of_cons. split; [intros [?|?]; [congruence|assumption] | auto]. }
        rewrite (bool_decide_ext _ _ Hin).
        destruct (bool_decide (k ∈ keys)); [reflexivity|].
        destruct (drop key); [apply lookup_delete_ne; assumption | reflexivity].
    + destruct (drop key) eqn:Hkey; [|reflexivity].
      apply lookup_delete_ne. intros ->. congruence.
Qed.

Lemma keys_of_map {V} (m : gmap string V) (k : string) :
  k ∈ List.map fst (map_to_list m) <-> is_Some (m !! k).
Proof.
  rewrite list_elem_of_In, in_map_iff. split.
  - intros [[k' v] [Hk Hin]]. cbn in Hk. subst k'.
    apply list_elem_of_In, elem_of_map_to_list in Hin. eauto.
  - intros [v Hv]. exists (k, v). split; [reflexivity|].
    apply list_elem_of_In, elem_of_map_to_list. exact Hv.
Qed.

Lemma invalidateCache_lookup (project : option string) (this : Service) (key : string) :
  cache (invalidateCache project this) !! key =
  if invalidates project key then None else cache this !! key.
Proof.
  unfold invalidateCache. cbn [cache]. rewrite fold_delete_lookup.
  destruct (invalidates project key); cbn [andb]; [|reflexivity].
  destruct (bool_decide_reflect (key ∈ List.map fst (map_to_list (cache this))))
    as [Hin|Hout]; [reflexivity|].
  destruct (cache this !! key) eqn:Hlk; [|reflexivity].
  exfalso. apply Hout, keys_of_map. eauto.
Qed.

Lemma invalidates_spec (project : option string) (key : string) :
  invalidates project key = true <->
  (project = None \/ project = Some EmptyString \/
   exists p, project = Some p /\
     ((exists pre post, key = pre +:+ p +:+ post) \/
      (exists rest, key = "summary:" +:+ rest))).
Proof.
  unfold invalidates, truthy_string, startsWith.
  destruct project as [[|c p]|].
  - split; [intros _; right; left; reflexivity | reflexivity].
  - rewrite orb_true_iff, includes_spec, prefix_spec. split.
    + intros H. right. right. exists (String c p). split; [reflexivity | exact H].
    + intros [H | [H | [q [Hq H]]]]; try discriminate.
      injection Hq as <-. exact H.
  - split; [intros _; left; reflexivity | reflexivity].
Qed.

(** C5, as the code has it.  [invalidateCache] removes from the cache
    exactly the entries whose key passes its test and keeps every other
    entry as it was; without a project (or with the empty one) the test
    passes for every key, and with a project it passes for the keys that
    contain the project as a substring and for the keys that start with
    [summary:]. *)
Theorem invalidateCache_drops (project : option string) (this : Service) (key : string) :
  cache (invalidateCache project this) !! key =
    (if invalidates project key then None else cache this !! key) /\
  (invalidates project key = true <->
   (project = None \/ project = Some EmptyString \/
    exists p, project = Some p /\
      ((exists pre post, key = pre +:+ p +:+ post) \/
       (exists rest, key = "summary:" +:+ rest)))) /\
  lastBroadcastTime (invalidateCache project this) = lastBroadcastTime this.
Proof.
  split; [apply invalidateCache_lookup|].
  split; [apply invalidates_spec | reflexivity].
Qed.

(** C5 fails as stated.  Without a project, [invalidateCache] also deletes
    a key that is not of the form [summary:*]; with the project [bar], it
    also deletes a key that does not mention [bar]. *)
Lemma invalidateCache_deletes_more :
  (startsWith "projection:all:50" "summary:" = false /\
   cache Examples.two_entries !! "projection:all:50" = Some Examples.entry /\
   cache (invalidateCache None Examples.two_entries) !! "projection:all:50" = None) /\
  (includes "summary:foo:all" "bar" = false /\
   cache Examples.two_entries !! "summary:foo:all" = Some Examples.entry /\
   cache (invalidateCache (Some "bar") Examples.two_entries) !! "summary:foo:all" = None).
Proof. vm_compute. repeat split. Qed.
End CacheFacts.

(** ** Read tokens and the summary *)

Section SummaryFacts.
Import JS TokenMetricsService.
Context {host : Host}.

Lemma getJsonArrayContentLength_concat (field : option string) :
  getJsonArrayContentLength field = Spec.concat_length field.
Proof.
  unfold getJsonArrayContentLength, Spec.concat_length, truthy_string.
  destruct field as [[|c s]|]; reflexivity.
Qed.

Lemma concat_length_nonneg (field : option string) : 0 <= Spec.concat_length field.
Proof.
  unfold Spec.concat_length.
  destruct field as [s|]; [|lia].
  destruct (JSON_parse s) as [[]|]; lia.
Qed.

Lemma length_or0_text (field : option string) : length_or0 field = Spec.text_length field.
Proof. reflexivity. Qed.

Lemma content_size_nonneg (obs : Row.ObservationRow) : 0 <= content_size obs.
Proof.
  unfold content_size. rewrite !getJsonArrayContentLength_concat.
  pose proof (concat_length_nonneg (Row.facts obs)).
  pose proof (concat_length_nonneg (Row.concepts obs)).
  pose proof (concat_length_nonneg (Row.files_read obs)).
  pose proof (concat_length_nonneg (Row.files_modified obs)).
  unfold length_or0.
  destruct (Row.title obs), (Row.subtitle obs), (Row.narrative obs); lia.
Qed.

(** The heuristic on a row object of up to 4096 characters:
    [ceil(size / 4)], that is [(size + 3) / 4]. *)
Lemma calculateReadTokens_ceil (obs : Row.ObservationRow) :
  content_size obs <= 4096 ->
  calculateReadTokens obs = (content_size obs + 3) / 4.
Proof.
  intros Hsize. unfold calculateReadTokens, CHARS_PER_TOKEN.
  apply Math_ceil_quarter. pose proof (content_size_nonneg obs). lia.
Qed.

Lemma calculateReadTokens_nonneg (obs : Row.ObservationRow) : 0 <= calculateReadTokens obs.
Proof.
  unfold calculateReadTokens, CHARS_PER_TOKEN.
  apply Math_ceil_div_nonneg; [apply content_size_nonneg | lia].
Qed.

(** What [getSummary] counts for a stored observation: the columns its
    statement selects. *)
Lemma calculateReadTokens_selected (o : SessionStore.Observation) :
  calculateReadTokens (select_summary_columns o) =
  Math_ceil
    (double
       (Spec.text_length (SessionStore.title o) +
        Spec.text_length (SessionStore.subtitle o) +
        Spec.text_length (SessionStore.narrative o) +
        Spec.concat_length (SessionStore.facts o)) / double 4)%num.
Proof.
  unfold calculateReadTokens, content_size, select_summary_columns. cbn [Row.title
    Row.subtitle Row.narrative Row.facts Row.concepts Row.files_read Row.files_modified].
  rewrite !getJsonArrayContentLength_concat, !length_or0_text.
  cbn [Spec.concat_length]. rewrite !Z.add_0_r. reflexivity.
Qed.

Lemma summary_totals_from (observations : list Row.ObservationRow) (r d : Z) :
  List.fold_left
    (fun '(totalReadTokens, totalDiscoveryTokens) obs =>
       (totalReadTokens + calculateReadTokens obs,
        totalDiscoveryTokens + or0 (Row.discovery_tokens obs)))
    observations (r, d) =
  (r + Spec.sum_over calculateReadTokens observations,
   d + Spec.sum_over (fun obs => or0 (Row.discovery_tokens obs)) observations).
Proof.
  revert r d. induction observations as [|obs rest IH]; intros r d; cbn.
  - f_equal; lia.
  - rewrite IH. f_equal; lia.
Qed.

(** The loop of [getSummary] adds up the per-row costs. *)
Lemma summary_totals_sums (observations : list Row.ObservationRow) :
  summary_totals observations =
  (Spec.sum_over calculateReadTokens observations,
   Spec.sum_over (fun obs => or0 (Row.discovery_tokens obs)) observations).
Proof. unfold summary_totals. rewrite summary_totals_from. reflexivity. Qed.

Lemma sum_over_nonneg {A} (f : A -> Z) (l : list A) :
  (forall x, In x l -> 0 <= f x) -> 0 <= Spec.sum_over f l.
Proof.
  induction l as [|x rest IH]; intros H; cbn; [lia|].
  pose proof (H x (or_introl eq_refl)).
  pose proof (IH (fun y Hy => H y (or_intror Hy))). lia.
Qed.

Lemma positive_test (x : Z) : 0 <= x -> (0 <? x) = negb (x =? 0).
Proof. intros H. destruct (Z.ltb_spec 0 x), (Z.eqb_spec x 0); cbn; lia || reflexivity. Qed.

Lemma summarize_math (observations : list Row.ObservationRow) :
  0 <= Spec.sum_over (fun obs => or0 (Row.discovery_tokens obs)) observations ->
  Spec.summary_relations (summarize observations).
Proof.
  intros HD. unfold summarize. rewrite summary_totals_sums.
  set (R := Spec.sum_over calculateReadTokens observations).
  set (D := Spec.sum_over _ observations) in *.
  assert (HR : 0 <= R) by (apply sum_over_nonneg; intros; apply calculateReadTokens_nonneg).
  set (n := Z.of_nat (List.length observations)).
  assert (Hn : 0 <= n) by (unfold n; lia).
  unfold Spec.summary_relations. cbn.
  rewrite !(positive_test D HD), !(positive_test R HR), !(positive_test n Hn).
  split; [reflexivity|]. split; [lia|]. intros Hn40 HR40 HD40.
  change (2 ^ 40) with 1099511627776 in *.
  repeat split.
  - destruct (Z.eqb_spec D 0); [reflexivity|]. cbn [negb].
    apply (Math_round_rounded (D - R) D 100);
      change (2 ^ 40) with 1099511627776; change (2 ^ 53) with 9007199254740992; lia.
  - destruct (Z.eqb_spec R 0); [reflexivity|]. cbn [negb].
    eexists. split; [|reflexivity].
    apply (Math_round_rounded D R 10);
      change (2 ^ 40) with 1099511627776; change (2 ^ 53) with 9007199254740992; lia.
  - destruct (Z.eqb_spec n 0); [reflexivity|]. cbn [negb].
    apply Math_round_average;
      change (2 ^ 40) with 1099511627776; change (2 ^ 53) with 9007199254740992; lia.
  - destruct (Z.eqb_spec n 0); [reflexivity|]. cbn [negb].
    apply Math_round_average;
      change (2 ^ 40) with 1099511627776; change (2 ^ 53) with 9007199254740992; lia.
Qed.

Lemma zero_summary_math : Spec.summary_relations zero_summary.
Proof. unfold Spec.summary_relations. cbn. repeat split. Qed.

Lemma selected_discovery_nonneg (rows : list SessionStore.Observation) :
  (forall o, In o rows -> 0 <= or0 (SessionStore.discovery_tokens o)) ->
  0 <= Spec.sum_over (fun obs => or0 (Row.discovery_tokens obs))
         (List.map select_summary_columns rows).
Proof.
  intros H. apply sum_over_nonneg. intros x Hx.
  apply in_map_iff in Hx as [o [<- Ho]]. cbn. apply H, Ho.
Qed.

(** C4, as the service keeps it.  On a store that answers and holds no
    negative discovery count, and from a cache whose summaries satisfy
    the relations (the cache of a new service does), [getSummary] returns
    a record with [savings = totalDiscoveryTokens - totalReadTokens] (so
    [savings + totalReadTokens = totalDiscoveryTokens]) and, for totals
    up to [2 ^ 40]: [savingsPercent] is
    [round(savings / totalDiscoveryTokens * 100)], or one less than that
    when the exact value is halfway between two integers, and 0 for no
    discovery tokens; [efficiencyGain] is the [number] nearest to a tenth
    of [round(totalDiscoveryTokens / totalReadTokens * 10)], that
    rounding again possibly one less at a halfway value, and 0 for no
    read tokens; both averages are the totals over [totalObservations]
    rounded to the nearest integer, or 0 for no observation.  The cache
    it leaves satisfies the relations again. *)
Theorem getSummary_math (project since : option string) (now : Z)
  (db : SessionStore.Database) (this : Service) :
  SessionStore.closed db = false ->
  Spec.discovery_nonneg db ->
  Spec.cached_summaries_ok this ->
  exists r this',
    getSummary project since now db this = (Normal r, this') /\
    Spec.summary_relations r /\
    Spec.cached_summaries_ok this'.
Proof.
  intros Hopen Hdb Hcache. unfold getSummary.
  destruct (getCached _ CACHE_TTL_MS now this) as [cached|] eqn:Hget.
  - exists (as_TokenSummary cached), this. split; [reflexivity|]. split; [|exact Hcache].
    unfold getCached in Hget.
    destruct (cache this !! summary_cacheKey project since) as [entry|] eqn:Hlk;
      [|discriminate].
    destruct (now - timestamp entry <? CACHE_TTL_MS); [|discriminate].
    injection Hget as <-.
    destruct (data entry) as [s| |] eqn:Hdata; cbn.
    + eapply Hcache; eassumption.
    + apply zero_summary_math.
    + apply zero_summary_math.
  - unfold SessionStore.all. rewrite Hopen.
    eexists. eexists. split; [reflexivity|].
    assert (Hmath : Spec.summary_relations
              (summarize (List.map select_summary_columns
                 (List.filter
                    (fun o => project_condition project o &&
                              since_condition (parseSince now since) o)
                    (SessionStore.observations db))))).
    { apply summarize_math, selected_discovery_nonneg.
      intros o Ho. apply filter_In in Ho as [Ho _]. apply Hdb, Ho. }
    split; [exact Hmath|].
    intros key entry s Hlk Hdata. unfold setCache in Hlk. cbn [cache] in Hlk.
    destruct (decide (summary_cacheKey project since = key)) as [<-|Hne].
    + rewrite lookup_insert_eq in Hlk. injection Hlk as <-.
      cbn in Hdata. injection Hdata as <-. exact Hmath.
    + rewrite lookup_insert_ne in Hlk by assumption.
      eapply Hcache; eassumption.
Qed.

(** The read-token total of [getSummary] is the sum, over the rows that
    match the filter, of the cost of the selected columns. *)
Lemma getSummary_totalReadTokens (project since : option string) (now : Z)
  (db : SessionStore.Database) (this : Service) :
  SessionStore.closed db = false ->
  getCached (summary_cacheKey project since) CACHE_TTL_MS now this = None ->
  exists r this',
    getSummary project since now db this = (Normal r, this') /\
    Summary.totalReadTokens r =
      Spec.sum_over (fun o => calculateReadTokens (select_summary_columns o))
        (List.filter
           (fun o => project_condition project o &&
                     since_condition (parseSince now since) o)
           (SessionStore.observations db)).
Proof.
  intros Hopen Hmiss. unfold getSummary. rewrite Hmiss.
  unfold SessionStore.all. rewrite Hopen.
  eexists. eexists. split; [reflexivity|].
  unfold summarize. rewrite summary_totals_sums. cbn.
  induction (List.filter _ _) as [|o rest IH]; cbn; [reflexivity|].
  rewrite IH. reflexivity.
Qed.

(** C1 at the failing input.  For a store whose only observation has the
    title [ok] and the concepts [["abcd"]], the document's cost is
    [ceil((2 + 4) / 4) = 2], and [getSummary] reports a read-token total
    of 1: its statement does not select [concepts], [files_read] and
    [files_modified], so [calculateReadTokens] finds them undefined. *)
Theorem getSummary_omits_concepts :
  exists r this',
    getSummary None None 5000 (Examples.open_db [Examples.with_concept]) new_Service =
      (Normal r, this') /\
    Summary.totalReadTokens r = 1 /\
    Spec.readTokens Examples.with_concept = 2.
Proof.
  eexists. eexists. split; [reflexivity|].
  split; vm_compute; reflexivity.
Qed.
End SummaryFacts.

(** ** The rows of the projection *)

Section RecentRows.
Import SessionStore.





End RecentRows.

(** ** The endless-mode projection *)

Section ProjectionFacts.
Import JS TokenMetricsService.
Context {host : Host}.












End ProjectionFacts.

(** ** The message generator *)

Section GeneratorFacts.
Import JS SDKAgent.

(** One turn of the generator: the session's [lastPromptNumber] becomes
    the carried prompt number, and stays as it is when none is carried. *)
Lemma generator_step_lastPromptNumber (session : ActiveSession) (message : PendingMessage) :
  lastPromptNumber (fst (generator_step session message)) =
  match Spec.carried message with
  | Some n => n
  | None => lastPromptNumber session
  end.
Proof.
  unfold generator_step, Spec.carried.
  destruct (type message); [|reflexivity].
  destruct (prompt_number message); reflexivity.
Qed.

Lemma pump_head (session : ActiveSession) (message : PendingMessage)
  (rest : list PendingMessage) :
  List.map lastPromptNumber_at_yield (fst (pump session (message :: rest))) =
  lastPromptNumber (fst (generator_step session message)) ::
  List.map lastPromptNumber_at_yield
    (fst (pump (fst (generator_step session message)) rest)).
Proof.
  cbn [pump]. destruct (generator_step session message) as [session1 f].
  cbn [fst]. destruct (pump session1 rest) as [yields final]. reflexivity.
Qed.

Lemma pump_ascending (messages : list PendingMessage) (session : ActiveSession) :
  Spec.ascending (lastPromptNumber session) messages ->
  Sorted Z.le (List.map lastPromptNumber_at_yield (fst (pump session messages))) /\
  Forall (Z.le (lastPromptNumber session))
    (List.map lastPromptNumber_at_yield (fst (pump session messages))).
Proof.
  revert session. induction messages as [|message rest IH]; intros session Hasc.
  - cbn. split; constructor.
  - rewrite pump_head.
    pose proof (generator_step_lastPromptNumber session message) as Hstep.
    set (session1 := fst (generator_step session message)) in *.
    cbn [Spec.ascending] in Hasc.
    assert (Hle : lastPromptNumber session <= lastPromptNumber session1 /\
                  Spec.ascending (lastPromptNumber session1) rest).
    { rewrite Hstep. destruct (Spec.carried message); [exact Hasc | split; [lia | exact Hasc]]. }
    destruct Hle as [Hle Hrest].
    destruct (IH session1 Hrest) as [Hsorted Hall].
    split.
    + constructor; [exact Hsorted|].
      destruct (List.map lastPromptNumber_at_yield (fst (pump session1 rest))) as [|y ys];
        constructor.
      apply Forall_inv in Hall. exact Hall.
    + constructor; [exact Hle|].
      eapply List.Forall_impl; [|exact Hall]. cbn. intros; lia.
Qed.

(** C8, as the code has it.  A turn of the generator for an observation
    that carries a prompt number sets [lastPromptNumber] to it before the
    frame is yielded, and any other turn leaves it as it is; so along a
    queue whose carried prompt numbers never fall below the session's
    [lastPromptNumber] nor below an earlier one, the value the analyzer
    finds at each frame never decreases. *)
Theorem createMessageGenerator_lastPromptNumber (session : ActiveSession)
  (messages : list PendingMessage) :
  Spec.ascending (lastPromptNumber session) messages ->
  Sorted Z.le
    (List.map lastPromptNumber_at_yield (fst (createMessageGenerator session messages))) /\
  (forall s message rest,
      List.map lastPromptNumber_at_yield (fst (pump s (message :: rest))) =
      (match Spec.carried message with
       | Some n => n
       | None => lastPromptNumber s
       end) ::
      List.map lastPromptNumber_at_yield
        (fst (pump (fst (generator_step s message)) rest))).
Proof.
  intros Hasc. split.
  - unfold createMessageGenerator.
    destruct (pump_ascending messages session Hasc) as [Hsorted Hall].
    destruct (pump session messages) as [yields final]. cbn in *.
    constructor; [exact Hsorted|].
    destruct (List.map lastPromptNumber_at_yield yields) as [|y ys]; constructor.
    apply Forall_inv in Hall. exact Hall.
  - intros s message rest. rewrite pump_head, generator_step_lastPromptNumber.
    reflexivity.
Qed.

(** C8 fails as stated.  In a session at prompt 3, an observation that
    carries the prompt number 2 lowers [lastPromptNumber] to 2. *)
Lemma lastPromptNumber_decreases :
  lastPromptNumber
    (fst (generator_step (Examples.session 3) (Examples.observation_message (Some 2)))) = 2 /\
  lastPromptNumber
    (fst (generator_step (Examples.session 3) (Examples.observation_message (Some 2))))
  < lastPromptNumber (Examples.session 3).
Proof. split; vm_compute; reflexivity. Qed.
End GeneratorFacts.

(** ** Token accounting *)

Section AccountingFacts.
Import JS SDKAgent.

Variables ParsedObservation ParsedSummary Store : Type.
Variable parseObservations : string -> string -> list ParsedObservation.
Variable parseSummary : string -> Z -> option ParsedSummary.
Variable observation_type : ParsedObservation -> option string.
Variable storeObservation :
  Store -> string -> string -> ParsedObservation -> Z -> Z -> Completion (Store * (Z * Z)).
Variable storeSummary :
  Store -> string -> string -> ParsedSummary -> Z -> Z -> Completion (Store * (Z * Z)).

Local Abbreviation World := (World ParsedObservation ParsedSummary Store).
Local Abbreviation persisted :=
  (persisted_discoveryTokens ParsedObservation ParsedSummary).
Local Abbreviation store_all :=
  (store_observations ParsedObservation ParsedSummary Store storeObservation).
Local Abbreviation mark := (markMessagesProcessed ParsedObservation ParsedSummary Store).
Local Abbreviation process :=
  (processSDKResponse ParsedObservation ParsedSummary Store parseObservations parseSummary
     observation_type storeObservation storeSummary).
Local Abbreviation handle :=
  (on_message ParsedObservation ParsedSummary Store parseObservations parseSummary
     observation_type storeObservation storeSummary).

Lemma track_usage_input (usage : option Usage) (session : ActiveSession) :
  cumulativeInputTokens (track_usage usage session) =
  cumulativeInputTokens session + usage_input usage.
Proof.
  unfold track_usage, usage_input, truthy_number.
  destruct usage as [u|]; [|cbn; lia].
  destruct (cache_creation_input_tokens u) as [c|]; cbn; [|lia].
  destruct (Z.eqb_spec c 0); cbn; lia.
Qed.

Lemma track_usage_output (usage : option Usage) (session : ActiveSession) :
  cumulativeOutputTokens (track_usage usage session) =
  cumulativeOutputTokens session + usage_output usage.
Proof.
  unfold track_usage, usage_output, truthy_number.
  destruct usage as [u|]; [|cbn; lia].
  destruct (cache_creation_input_tokens u) as [c|]; cbn; [|lia].
  destruct (c =? 0); cbn; lia.
Qed.

Lemma track_usage_cache_read (read : option Z) (usage : option Usage)
  (session : ActiveSession) :
  track_usage (with_cache_read read usage) session = track_usage usage session.
Proof. destruct usage; reflexivity. Qed.

Lemma store_observations_effects (session : ActiveSession) (worker : option WorkerHandle)
  (d : Z) (observations : list ParsedObservation) :
  forall w : World,
  exists new,
    effects _ _ _ (snd (store_all session worker d observations w)) =
      effects _ _ _ w ++ new /\
    Forall (eq d) (omap persisted new) /\
    (fst (store_all session worker d observations w) = Normal tt ->
     omap persisted new = List.repeat d (List.length observations)).
Proof.
  induction observations as [|obs rest IH]; intros w; cbn [store_observations].
  - exists []. rewrite app_nil_r. repeat split; constructor.
  - destruct (storeObservation _ _ _ _ _ _) as [[store' [obsId createdAtEpoch]]|e].
    + match goal with
      | |- context [store_observations _ _ _ _ _ _ _ rest ?w1] =>
          destruct (IH w1) as (new & Hnew & Hall & Hnormal);
          assert (Hw1 : exists mine,
                     effects _ _ _ w1 = effects _ _ _ w ++ mine /\
                     omap persisted mine = [d])
      end.
      { destruct (with_sse worker); cbn; eexists; rewrite <- ?app_assoc;
          (split; [reflexivity|]); reflexivity. }
      destruct Hw1 as (mine & Hmine & Hd).
      exists (mine ++ new). rewrite Hnew, Hmine, app_assoc, omap_app, Hd.
      split; [reflexivity|]. split.
      * constructor; [reflexivity | exact Hall].
      * intros Hok. cbn. f_equal. apply Hnormal, Hok.
    + exists []. cbn. rewrite app_nil_r. repeat split; try constructor. discriminate.
Qed.

Lemma markMessagesProcessed_effects (session : ActiveSession)
  (worker : option WorkerHandle) (w : World) :
  exists new,
    effects _ _ _ (snd (mark session worker w)) = effects _ _ _ w ++ new /\
    omap persisted new = [] /\
    cumulativeInputTokens (fst (mark session worker w)) = cumulativeInputTokens session /\
    cumulativeOutputTokens (fst (mark session worker w)) = cumulativeOutputTokens session.
Proof.
  unfold markMessagesProcessed.
  assert (Hmarks : forall ids : list Z,
             omap persisted (List.map (MarkProcessed _ _) ids) = []).
  { induction ids as [|i ids IHids]; [reflexivity | exact IHids]. }
  destruct (pendingProcessingIds session) as [|i rest];
    (destruct worker as [h|]; [destruct (has_broadcastProcessingStatus h)|]);
    unfold emit; cbn [effects fst snd];
    eexists; rewrite <- ?app_assoc;
    (split; [reflexivity || (symmetry; apply app_nil_r) |]);
    rewrite ?omap_app, ?Hmarks; repeat split; reflexivity.
Qed.

Lemma processSDKResponse_effects (session : ActiveSession) (text : string)
  (worker : option WorkerHandle) (d processingStart finished : Z) (w : World) :
  exists new,
    effects _ _ _ (snd (process session text worker d processingStart finished w)) =
      effects _ _ _ w ++ new /\
    Forall (eq d) (omap persisted new) /\
    (fst (fst (process session text worker d processingStart finished w)) = Normal tt ->
     omap persisted new =
     List.repeat d (List.length (parseObservations text (claudeSessionId session)))) /\
    cumulativeInputTokens
      (snd (fst (process session text worker d processingStart finished w))) =
      cumulativeInputTokens session /\
    cumulativeOutputTokens
      (snd (fst (process session text worker d processingStart finished w))) =
      cumulativeOutputTokens session.
Proof.
  unfold processSDKResponse.
  destruct (store_observations_effects session worker d
              (parseObservations text (claudeSessionId session)) w)
    as (new & Hnew & Hall & Hnormal).
  destruct (store_all session worker d _ w) as [[[]|e] w1]; cbn [fst snd] in *.
  2: { exists new. cbn. split; [exact Hnew|]. split; [exact Hall|].
       split; [discriminate | auto]. }
  specialize (Hnormal eq_refl).
  match goal with
  | |- context [parseSummary _ _] =>
      match goal with
      | |- context [storeSummary (store _ _ _ ?w2)] =>
          assert (H2 : exists extra,
                     effects _ _ _ w2 = effects _ _ _ w1 ++ extra /\
                     omap persisted extra = [])
      end
  end.
  { destruct worker; destruct (parseObservations text (claudeSessionId session));
      unfold emit; cbn [effects]; eexists;
      (split; [reflexivity || (symmetry; apply app_nil_r) | reflexivity]). }
  match goal with
  | |- context [storeSummary (store _ _ _ ?w2)] => generalize dependent w2
  end.
  intros w2 (extra & Hextra & Hnone).
  assert (Hmark : forall w3 : World,
             (exists more, effects _ _ _ w3 = effects _ _ _ w2 ++ more /\
                           omap persisted more = []) ->
             exists new',
               effects _ _ _ (snd (let '(session, w) := mark session worker w3 in
                                   (Normal tt, session, w))) =
                 effects _ _ _ w ++ new' /\
               Forall (eq d) (omap persisted new') /\
               omap persisted new' =
                 List.repeat d
                   (List.length (parseObservations text (claudeSessionId session))) /\
               cumulativeInputTokens
                 (snd (fst (let '(session, w) := mark session worker w3 in
                            (@Normal unit tt, session, w)))) =
                 cumulativeInputTokens session /\
               cumulativeOutputTokens
                 (snd (fst (let '(session, w) := mark session worker w3 in
                            (@Normal unit tt, session, w)))) =
                 cumulativeOutputTokens session).
  { intros w3 (more & Hmore & Hnone').
    destruct (markMessagesProcessed_effects session worker w3)
      as (marks & Hmarks & Hnone'' & Hin & Hout).
    destruct (mark session worker w3) as [session' w']. cbn [fst snd] in *.
    exists (new ++ extra ++ more ++ marks).
    rewrite Hmarks, Hmore, Hextra, Hnew, !omap_app, Hnone, Hnone', Hnone''.
    rewrite <- !app_assoc, !app_nil_r. auto. }
  destruct (parseSummary text (sessionDbId session)) as [summary|].
  - destruct (storeSummary _ _ _ _ _ _) as [[store' [summaryId createdAtEpoch]]|e].
    + destruct (Hmark
                  (if with_sse worker
                   then emit _ _ _
                          [SseNewSummary _ _ summaryId summary (lastPromptNumber session)
                             createdAtEpoch]
                          (emit _ _ _
                             [StoredSummary _ _ (claudeSessionId session) (project session)
                                summary (lastPromptNumber session) d summaryId
                                createdAtEpoch;
                              SyncSummary _ _ summaryId summary (lastPromptNumber session)
                                createdAtEpoch d]
                             {| store := store'; effects := effects _ _ _ w2 |})
                   else emit _ _ _
                          [StoredSummary _ _ (claudeSessionId session) (project session)
                             summary (lastPromptNumber session) d summaryId
                             createdAtEpoch;
                           SyncSummary _ _ summaryId summary (lastPromptNumber session)
                             createdAtEpoch d]
                          {| store := store'; effects := effects _ _ _ w2 |}))
        as (new' & H1 & H2 & H3 & H4 & H5).
      { destruct (with_sse worker); unfold emit; cbn [effects]; eexists;
          rewrite <- ?app_assoc; (split; [reflexivity | reflexivity]). }
      exists new'. auto.
    + exists (new ++ extra). cbn [fst snd].
      rewrite Hextra, Hnew, omap_app, Hnone, app_nil_r, <- app_assoc.
      split; [reflexivity|]. split; [exact Hall|]. split; [discriminate | auto].
  - destruct (Hmark w2) as (new' & H1 & H2 & H3 & H4 & H5).
    { exists []. rewrite app_nil_r. auto. }
    exists new'. auto.
Qed.

Lemma track_usage_claudeSessionId (usage : option Usage) (session : ActiveSession) :
  claudeSessionId (track_usage usage session) = claudeSessionId session.
Proof.
  unfold track_usage. destruct usage as [u|]; [|reflexivity].
  destruct (truthy_number (cache_creation_input_tokens u)); reflexivity.
Qed.

Lemma persisted_among (d : Z) (new : list (Effect ParsedObservation ParsedSummary)) :
  Forall (eq d) (omap persisted new) ->
  forall e d', In e new -> persisted e = Some d' -> d' = d.
Proof.
  intros Hall e d' Hin He. rewrite Forall_forall in Hall. symmetry. apply Hall.
  apply list_elem_of_omap. exists e. split; [apply list_elem_of_In, Hin | exact He].
Qed.

(** C2.  For an assistant reply, with [tokensBefore] the sum of the two
    cumulative counts before the update: the cumulative input count grows
    by [input_tokens + cache_creation_input_tokens], the cumulative output
    count by [output_tokens] (absent fields count as 0), the outcome does
    not depend on [cache_read_input_tokens], and every observation
    persisted while the reply is processed is stored with the
    discovery-token argument
    [(cumulativeInputTokens + cumulativeOutputTokens) - tokensBefore]; when
    the processing of a non-empty reply completes, there is one such call
    per parsed observation. *)
Theorem on_message_token_accounting (content : Content) (usage : option Usage)
  (worker : option WorkerHandle) (processingStart finished : Z)
  (session : ActiveSession) (w : World) :
  let r := handle (Assistant content usage) worker processingStart finished session w in
  let session' := snd (fst r) in
  let tokensBefore := cumulativeInputTokens session + cumulativeOutputTokens session in
  let discoveryTokens :=
    (cumulativeInputTokens session' + cumulativeOutputTokens session') - tokensBefore in
  cumulativeInputTokens session' = cumulativeInputTokens session + usage_input usage /\
  cumulativeOutputTokens session' = cumulativeOutputTokens session + usage_output usage /\
  discoveryTokens = usage_input usage + usage_output usage /\
  (forall read,
      handle (Assistant content (with_cache_read read usage)) worker processingStart
        finished session w = r) /\
  exists new,
    effects _ _ _ (snd r) = effects _ _ _ w ++ new /\
    (forall e d, In e new -> persisted e = Some d -> d = discoveryTokens) /\
    (fst (fst r) = Normal tt -> textContent content <> EmptyString ->
     omap persisted new =
     List.repeat discoveryTokens
       (List.length (parseObservations (textContent content) (claudeSessionId session)))).
Proof.
  intros r session' tokensBefore discoveryTokens.
  pose proof (track_usage_input usage session) as Hin.
  pose proof (track_usage_output usage session) as Hout.
  assert (Hcum : cumulativeInputTokens session' =
                   cumulativeInputTokens (track_usage usage session) /\
                 cumulativeOutputTokens session' =
                   cumulativeOutputTokens (track_usage usage session) /\
                 exists new,
                   effects _ _ _ (snd r) = effects _ _ _ w ++ new /\
                   Forall (eq ((cumulativeInputTokens (track_usage usage session) +
                                cumulativeOutputTokens (track_usage usage session))
                               - tokensBefore)) (omap persisted new) /\
                   (fst (fst r) = Normal tt -> textContent content <> EmptyString ->
                    omap persisted new =
                    List.repeat
                      ((cumulativeInputTokens (track_usage usage session) +
                        cumulativeOutputTokens (track_usage usage session))
                       - tokensBefore)
                      (List.length (parseObservations (textContent content)
                                      (claudeSessionId session))))).
  { subst session' r tokensBefore. unfold on_message.
    destruct (0 <? Z.of_nat (String.length (textContent content))) eqn:Hsize.
    - destruct (processSDKResponse_effects (track_usage usage session)
                  (textContent content) worker
                  ((cumulativeInputTokens (track_usage usage session) +
                    cumulativeOutputTokens (track_usage usage session))
                   - (cumulativeInputTokens session + cumulativeOutputTokens session))
                  processingStart finished w)
        as (new & Hnew & Hall & Hnormal & Hi & Ho).
      rewrite track_usage_claudeSessionId in Hnormal.
      split; [exact Hi|]. split; [exact Ho|].
      exists new. split; [exact Hnew|]. split; [exact Hall|].
      intros Hok _. apply Hnormal, Hok.
    - destruct (markMessagesProcessed_effects (track_usage usage session) worker w)
        as (marks & Hmarks & Hnone & Hi & Ho).
      destruct (mark (track_usage usage session) worker w) as [session1 w1].
      cbn [fst snd] in *.
      split; [exact Hi|]. split; [exact Ho|].
      exists marks. split; [exact Hmarks|]. rewrite Hnone. split; [constructor|].
      intros _ Htext. exfalso. apply Htext.
      destruct (textContent content); [reflexivity | discriminate]. }
  destruct Hcum as (Hi & Ho & new & Hnew & Hall & Hnormal).
  assert (Hd : discoveryTokens =
               (cumulativeInputTokens (track_usage usage session) +
                cumulativeOutputTokens (track_usage usage session)) - tokensBefore)
    by (subst discoveryTokens; rewrite Hi, Ho; reflexivity).
  split; [rewrite Hi; exact Hin|]. split; [rewrite Ho; exact Hout|].
  split; [subst discoveryTokens tokensBefore; rewrite Hi, Ho, Hin, Hout; lia|].
  split.
  - intros read. subst r. unfold on_message.
    rewrite track_usage_cache_read. reflexivity.
  - exists new. rewrite Hd. split; [exact Hnew|].
    split; [apply persisted_among, Hall | exact Hnormal].
Qed.
End AccountingFacts.

(** ** Processing-time statistics *)

Section PercentileFacts.
Import JS PerformanceTracker.
Context {host : Host}.

Lemma insert_sorted_perm (x : Z) (l : list Z) : Permutation (insert_sorted x l) (x :: l).
Proof.
  induction l as [|y rest IH]; cbn; [reflexivity|].
  destruct (x <=? y); [reflexivity|].
  rewrite IH. apply perm_swap.
Qed.

Lemma insert_sorted_sorted (x : Z) (l : list Z) :
  Sorted Z.le l -> Sorted Z.le (insert_sorted x l).
Proof.
  induction l as [|y rest IH]; intros Hs; cbn.
  - repeat constructor.
  - destruct (Z.leb_spec x y) as [Hle|Hlt].
    + constructor; [exact Hs | constructor; exact Hle].
    + apply Sorted_inv in Hs as [Hrest Hhd].
      constructor; [apply IH, Hrest|].
      destruct rest as [|z rest']; cbn.
      * constructor. lia.
      * apply HdRel_inv in Hhd.
        destruct (x <=? z); constructor; lia.
Qed.

Lemma sort_numeric_perm (l : list Z) : Permutation (sort_numeric l) l.
Proof.
  induction l as [|x rest IH]; cbn; [reflexivity|].
  rewrite insert_sorted_perm. constructor. exact IH.
Qed.

Lemma sort_numeric_sorted (l : list Z) : Sorted Z.le (sort_numeric l).
Proof.
  induction l as [|x rest IH]; cbn; [constructor|].
  apply insert_sorted_sorted, IH.
Qed.

(** The nearest-rank index of a percent in [1..100] lies in the array. *)
Lemma nearest_rank_range (p : Z) (n : nat) :
  1 <= p <= 100 -> (0 < n)%nat ->
  0 <= Spec.nearest_rank p n <= Z.of_nat n - 1.
Proof.
  intros Hp Hn. rewrite nearest_rank_div.
  pose proof (Z.div_mod (- (p * Z.of_nat n)) 100 ltac:(lia)) as Hdiv.
  pose proof (Z.mod_pos_bound (- (p * Z.of_nat n)) 100 ltac:(lia)) as Hmod.
  nia.
Qed.

(** [percentile] reads the sorted array at the nearest-rank index. *)
Lemma percentile_nearest_rank (sortedArray : list Z) (p : Z) :
  p = 50 \/ p = 95 -> sortedArray <> [] -> (List.length sortedArray <= 500)%nat ->
  percentile sortedArray p =
  List.nth (Z.to_nat (Spec.nearest_rank p (List.length sortedArray))) sortedArray 0.
Proof.
  intros Hp Hne Hlen. unfold percentile.
  destruct sortedArray as [|x rest]; [congruence|].
  pose proof (nearest_rank_range p (List.length (x :: rest)) ltac:(lia) ltac:(cbn; lia)) as Hr.
  rewrite (Math_ceil_percent p (List.length (x :: rest)) Hp Hlen).
  f_equal. f_equal. lia.
Qed.

(** The bound on the history is kept by every method that writes it. *)
Lemma new_Tracker_bounded : Spec.bounded_history new_Tracker.
Proof. unfold Spec.bounded_history, MAX_PROCESSING_TIMES. cbn. lia. Qed.

Lemma recordProcessingTime_bounded (record : ProcessingTimeRecord) (this : Tracker) :
  Spec.bounded_history this -> Spec.bounded_history (recordProcessingTime record this).
Proof.
  unfold Spec.bounded_history, recordProcessingTime, trim. cbn [processingTimes].
  intros Hb. destruct (MAX_PROCESSING_TIMES <? _) eqn:Hlt.
  - destruct (processingTimes this) as [|r rest]; cbn [app List.tl List.length] in *.
    + unfold MAX_PROCESSING_TIMES. lia.
    + rewrite length_app. cbn [List.length]. lia.
  - apply Z.ltb_ge in Hlt. exact Hlt.
Qed.

Lemma recordQueueSample_bounded (queueDepth activeSessions now : Z) (this : Tracker) :
  Spec.bounded_history this ->
  Spec.bounded_history (recordQueueSample queueDepth activeSessions now this).
Proof.
  unfold Spec.bounded_history, recordQueueSample.
  destruct (now - lastSampleTime this <? SAMPLE_INTERVAL_MS); auto.
Qed.

Lemma slice_from_end_length {A} (limit : Z) (l : list A) :
  (List.length (slice_from_end limit l) <= List.length l)%nat.
Proof. unfold slice_from_end. rewrite length_skipn. lia. Qed.

Lemma sum_from (l : list Z) (a : Z) : List.fold_left Z.add l a = a + Spec.sum_over id l.
Proof.
  revert a. induction l as [|x rest IH]; intros a; cbn; [lia|].
  rewrite IH. unfold id. lia.
Qed.

Lemma sum_perm (l1 l2 : list Z) : Permutation l1 l2 -> sum l1 = sum l2.
Proof.
  intros Hp. unfold sum. rewrite !sum_from.
  induction Hp; cbn; try lia.
Qed.

(** C9, as the code has it.  On a tracker that holds at most
    [MAX_PROCESSING_TIMES] records (as every tracker does),
    [getProcessingTimes] sorts the durations of the filtered records; when
    there is at least one, [p50] and [p95] are the elements of the sorted
    durations at the nearest-rank index [ceil(p/100 * n) - 1] (which lies
    in the array) and [avg] is the rounded mean; when there is none, [avg],
    [p50], [p95] and [observationsPerMinute] are zero.  In both cases
    [avgQueueDepth] and [peakQueueDepth] are those of
    [getQueueHistory(since)].  For the samples 10, 20, 30, 40, 50 the
    result is [avg = 30], [p50 = 30], [p95 = 50]. *)
Theorem getProcessingTimes_stats (since : option string) (limit : option Z)
  (now now_queue : Z) (this : Tracker) :
  Spec.bounded_history this ->
  let response := getProcessingTimes since limit now now_queue this in
  let samples := List.map duration (times response) in
  let durations := sort_numeric samples in
  let n := List.length durations in
  (Sorted Z.le durations /\ Permutation durations samples) /\
  (times response <> [] ->
   (0 <= Spec.nearest_rank 50 n <= Z.of_nat n - 1 /\
    0 <= Spec.nearest_rank 95 n <= Z.of_nat n - 1) /\
   p50ProcessingTime (stats response) =
     List.nth (Z.to_nat (Spec.nearest_rank 50 n)) durations 0 /\
   p95ProcessingTime (stats response) =
     List.nth (Z.to_nat (Spec.nearest_rank 95 n)) durations 0 /\
   avgProcessingTime (stats response) =
     Math_round (double (sum samples) / double (Z.of_nat n))%num) /\
  (times response = [] ->
   avgProcessingTime (stats response) = 0 /\
   p50ProcessingTime (stats response) = 0 /\
   p95ProcessingTime (stats response) = 0 /\
   observationsPerMinute (stats response) = double 0) /\
  (avgQueueDepth (stats response) =
     Queue.avgQueueDepth (Queue.stats (getQueueHistory since None now_queue this)) /\
   peakQueueDepth (stats response) =
     Queue.peakQueueDepth (Queue.stats (getQueueHistory since None now_queue this))) /\
  (let example := stats (getProcessingTimes None None 6000 6000 Examples.five_samples) in
   avgProcessingTime example = 30 /\
   p50ProcessingTime example = 30 /\
   p95ProcessingTime example = 50).
Proof.
  intros Hbound response samples durations n.
  split; [split; [apply sort_numeric_sorted | apply sort_numeric_perm]|].
  assert (Hshape : exists filtered avg p50 p95 perMinute,
             response =
             {| times := filtered;
                stats :=
                  {| avgProcessingTime := avg;
                     p50ProcessingTime := p50;
                     p95ProcessingTime := p95;
                     avgQueueDepth :=
                       Queue.avgQueueDepth
                         (Queue.stats (getQueueHistory since None now_queue this));
                     peakQueueDepth :=
                       Queue.peakQueueDepth
                         (Queue.stats (getQueueHistory since None now_queue this));
                     observationsPerMinute := perMinute |} |} /\
             (List.length filtered <= List.length (processingTimes this))%nat /\
             (filtered = [] -> avg = 0 /\ p50 = 0 /\ p95 = 0 /\ perMinute = double 0) /\
             (filtered <> [] ->
              avg = Math_round
                      (double (sum (sort_numeric (List.map duration filtered))) /
                       double (Z.of_nat
                                 (List.length (sort_numeric (List.map duration filtered)))))%num /\
              p50 = percentile (sort_numeric (List.map duration filtered)) 50 /\
              p95 = percentile (sort_numeric (List.map duration filtered)) 95)).
  { subst response. unfold getProcessingTimes. cbv zeta.
    set (filtered := slice_from_end _ _).
    assert (Hlen : (List.length filtered <= List.length (processingTimes this))%nat).
    { subst filtered. etransitivity; [apply slice_from_end_length|].
      apply List.filter_length_le. }
    destruct filtered as [|first rest] eqn:Hf.
    - cbn. do 5 eexists. split; [reflexivity|]. split; [exact Hlen|].
      split; [intros _; repeat split | intros H; congruence].
    - destruct (sort_numeric (List.map duration (first :: rest))) as [|d ds] eqn:Hd.
      + exfalso.
        pose proof (Permutation_length (sort_numeric_perm (List.map duration (first :: rest)))) as Hl.
        rewrite Hd in Hl. discriminate.
      + do 5 eexists. split; [reflexivity|]. split; [exact Hlen|].
        split; [discriminate | intros _; rewrite Hd; repeat split]. }
  destruct Hshape as (filtered & avg & p50 & p95 & perMinute & Hresp & Hlen & Hempty & Hsome).
  subst durations samples n. rewrite Hresp. cbn [times stats avgProcessingTime
    p50ProcessingTime p95ProcessingTime avgQueueDepth peakQueueDepth observationsPerMinute].
  split; [|split; [exact Hempty | split; [split; reflexivity | vm_compute; auto]]].
  intros Hne. destruct (Hsome Hne) as (Havg & H50 & H95).
  pose proof (Permutation_length (sort_numeric_perm (List.map duration filtered))) as Hl.
  rewrite length_map in Hl.
  assert (Hsorted_ne : sort_numeric (List.map duration filtered) <> []).
  { intros Hnil. rewrite Hnil in Hl. destruct filtered; [congruence | discriminate]. }
  assert (Hpos : (0 < List.length (sort_numeric (List.map duration filtered)))%nat).
  { destruct (sort_numeric (List.map duration filtered)); [congruence | cbn; lia]. }
  assert (Hmax : (List.length (sort_numeric (List.map duration filtered)) <= 500)%nat).
  { unfold Spec.bounded_history, MAX_PROCESSING_TIMES in Hbound. lia. }
  split; [split; apply nearest_rank_range; lia || exact Hpos|].
  rewrite H50, H95, Havg.
  rewrite !percentile_nearest_rank by (auto || exact Hsorted_ne || exact Hmax).
  rewrite (sum_perm _ _ (sort_numeric_perm (List.map duration filtered))).
  auto.
Qed.

(** C9 fails as stated.  With no processing record and one queue sample
    of depth 3, the filtered set is empty and the queue statistics of the
    result are not zero. *)
Lemma empty_processing_times_nonzero_stats :
  let response :=
    getProcessingTimes (host := Examples.plain_host) None None 6000 6000
      Examples.queue_only in
  times response = [] /\
  avgQueueDepth (stats response) = double 3 /\
  avgQueueDepth (stats response) <> double 0 /\
  peakQueueDepth (stats response) = 3.
Proof. vm_compute. repeat split. discriminate. Qed.
End PercentileFacts.

(** ** The live push *)

Section LivePushFacts.
Import JS WorkerService.
Context {host : Host}.
Variable SSEBroadcaster : Type.
Variable broadcast : SSEBroadcaster -> SSEEvent -> Completion SSEBroadcaster.

Local Abbreviation Worker := (Worker SSEBroadcaster).
Local Abbreviation push := (broadcastTokenUpdate SSEBroadcaster broadcast).
Local Abbreviation times_of := (emission_times SSEBroadcaster).
Local Abbreviation added := (emitted SSEBroadcaster).
Local Abbreviation last_of := (lastTokenBroadcast SSEBroadcaster).

Ltac run_push :=
  unfold broadcastTokenUpdate, emitted, service_getSummary, sse_broadcast, try_catch,
    set_lastTokenBroadcast, set_tokenMetricsService, logger_warn;
  cbn [lastTokenBroadcast tokenMetricsService sseBroadcaster broadcasts warnings].

Lemma push_never_throws (now : Z) (db : SessionStore.Database) (this : Worker) :
  fst (push now db this) = Normal tt.
Proof.
  run_push. destruct (now - last_of this <? 1000); [reflexivity|].
  destruct (tokenMetricsService _ this) as [service|]; [|reflexivity].
  destruct (TokenMetricsService.getSummary None None now db service) as [[summary|e] service'];
    cbn; [|reflexivity].
  destruct (broadcast _ _); reflexivity.
Qed.

Lemma push_broadcasts (now : Z) (db : SessionStore.Database) (this : Worker) :
  broadcasts _ (snd (push now db this)) = broadcasts _ this ++ added now db this.
Proof.
  run_push. destruct (now - last_of this <? 1000); [symmetry; apply app_nil_r|].
  destruct (tokenMetricsService _ this) as [service|]; [|symmetry; apply app_nil_r].
  destruct (TokenMetricsService.getSummary None None now db service) as [[summary|e] service'];
    cbn; [|symmetry; apply app_nil_r].
  destruct (broadcast _ _); reflexivity.
Qed.

Lemma push_throttled (now : Z) (db : SessionStore.Database) (this : Worker) :
  now - last_of this < 1000 -> push now db this = (Normal tt, this).
Proof.
  intros H. unfold broadcastTokenUpdate.
  rewrite (proj2 (Z.ltb_lt _ _) H). reflexivity.
Qed.

Lemma push_passed (now : Z) (db : SessionStore.Database) (this : Worker) :
  1000 <= now - last_of this -> last_of (snd (push now db this)) = now.
Proof.
  intros H. run_push. rewrite (proj2 (Z.ltb_ge _ _) H).
  destruct (tokenMetricsService _ this) as [service|]; [|reflexivity].
  destruct (TokenMetricsService.getSummary None None now db service) as [[summary|e] service'];
    cbn; [|reflexivity].
  destruct (broadcast _ _); reflexivity.
Qed.

Lemma push_warnings (now : Z) (db : SessionStore.Database) (this : Worker) :
  warnings _ (snd (push now db this)) =
  warnings _ this ++
  (if now - last_of this <? 1000 then []
   else
     match tokenMetricsService _ this with
     | None => []
     | Some service =>
         match TokenMetricsService.getSummary None None now db service with
         | (Throw _, _) => ["Failed to broadcast token update"]
         | (Normal summary, _) =>
             match broadcast (sseBroadcaster _ this) (token_update summary) with
             | Throw _ => ["Failed to broadcast token update"]
             | Normal _ => []
             end
         end
     end).
Proof.
  run_push. destruct (now - last_of this <? 1000); [symmetry; apply app_nil_r|].
  destruct (tokenMetricsService _ this) as [service|]; [|symmetry; apply app_nil_r].
  destruct (TokenMetricsService.getSummary None None now db service) as [[summary|e] service'];
    cbn; [|reflexivity].
  destruct (broadcast _ _); cbn; [symmetry; apply app_nil_r | reflexivity].
Qed.

(** C6, as the code has it.  The [token_update] events that a call of
    [broadcastTokenUpdate] emits are: none when the call is throttled,
    when the metrics service is not initialized or when [getSummary]
    throws; otherwise one event whose payload is the full summary that
    [getSummary()] returned, which is the cached [summary:all:all] entry
    while it is fresh and the summary recomputed from all observations
    otherwise. *)
Theorem token_update_carries_getSummary (now : Z) (db : SessionStore.Database)
  (this : Worker) :
  broadcasts _ (snd (push now db this)) =
    broadcasts _ this ++
    (if now - last_of this <? 1000 then []
     else
       match tokenMetricsService _ this with
       | None => []
       | Some service =>
           match fst (TokenMetricsService.getSummary None None now db service) with
           | Normal summary => [(now, token_update summary)]
           | Throw _ => []
           end
       end) /\
  (forall service,
      fst (TokenMetricsService.getSummary None None now db service) =
      match TokenMetricsService.getCached "summary:all:all"
              TokenMetricsService.CACHE_TTL_MS now service with
      | Some cached => Normal (TokenMetricsService.as_TokenSummary cached)
      | None =>
          if SessionStore.closed db
          then Throw "The database connection is not open"
          else Normal (TokenMetricsService.summarize
                         (List.map TokenMetricsService.select_summary_columns
                            (SessionStore.observations db)))
      end).
Proof.
  split; [apply push_broadcasts|].
  intros service. unfold TokenMetricsService.getSummary.
  change (TokenMetricsService.summary_cacheKey None None) with "summary:all:all"%string.
  destruct (TokenMetricsService.getCached _ _ _ _); [reflexivity|].
  unfold SessionStore.all. destruct (SessionStore.closed db); [reflexivity|].
  cbn. f_equal. f_equal. f_equal.
  induction (SessionStore.observations db) as [|o rest IH]; [reflexivity|].
  cbn. f_equal. exact IH.
Qed.

(** C6 fails as stated.  For a store whose only observation has the
    title [abcde] and no facts, the emitted event carries the summary of
    [getSummary] with 2 read tokens ([ceil(5/4)]), and the quick summary
    has 1 ([(5 + 2) / 4] truncated): the payload is not the value of
    [getQuickSummary]. *)
Lemma token_update_is_not_quick_summary :
  let db := Examples.open_db [Examples.five_letters] in
  exists summary quick,
    WorkerService.broadcasts _
      (snd (broadcastTokenUpdate (host := Examples.plain_host) _ Examples.keep_frames
              5000 db Examples.ready_worker)) = [(5000, token_update summary)] /\
    TokenMetricsService.getQuickSummary db = Normal quick /\
    TokenMetricsService.Summary.totalReadTokens summary = 2 /\
    TokenMetricsService.Quick.totalReadTokens quick = 1 /\
    quick <> Spec.quick_of summary.
Proof.
  eexists. eexists. split; [vm_compute; reflexivity|].
  split; [vm_compute; reflexivity|].
  split; [reflexivity|]. split; [reflexivity|]. vm_compute. discriminate.
Qed.

(** *** The throttle *)

Lemma push_emission_times (now : Z) (db : SessionStore.Database) (this : Worker) :
  exists extra,
    times_of (snd (push now db this)) = times_of this ++ extra /\
    (extra = [] \/ (extra = [now] /\ 1000 <= now - last_of this)).
Proof.
  unfold emission_times. rewrite push_broadcasts, List.filter_app, List.map_app.
  eexists. split; [reflexivity|].
  unfold emitted. destruct (Z.ltb_spec (now - last_of this) 1000); [left; reflexivity|].
  destruct (tokenMetricsService _ this) as [service|]; [|left; reflexivity].
  destruct (fst _); [right | left]; cbn; auto.
Qed.

Lemma push_last_grows (now : Z) (db : SessionStore.Database) (this : Worker) :
  last_of this <= last_of (snd (push now db this)) \/
  last_of (snd (push now db this)) = last_of this.
Proof.
  destruct (Z.ltb_spec (now - last_of this) 1000) as [Hlt|Hge].
  - right. rewrite push_throttled by exact Hlt. reflexivity.
  - left. rewrite push_passed by exact Hge. lia.
Qed.

Lemma spaced_snoc (times : list Z) (x : Z) :
  Spec.spaced times -> Forall (fun t => 1000 <= x - t) times -> Spec.spaced (times ++ [x]).
Proof.
  intros Hs Hall i j ti tj Hij Hi Hj.
  destruct (Nat.lt_ge_cases j (List.length times)) as [Hlt|Hge].
  - rewrite nth_error_app1 in Hi by lia. rewrite nth_error_app1 in Hj by lia.
    exact (Hs i j ti tj Hij Hi Hj).
  - rewrite nth_error_app2 in Hj by lia.
    destruct (j - List.length times)%nat as [|k] eqn:Hk; cbn in Hj;
      [|destruct k; discriminate].
    injection Hj as <-.
    rewrite nth_error_app1 in Hi by lia.
    rewrite Forall_forall in Hall. apply Hall.
    apply list_elem_of_In. eapply nth_error_In, Hi.
Qed.

Lemma throttle_inv_push (now : Z) (db : SessionStore.Database) (this : Worker) :
  Spec.throttle_inv this -> Spec.throttle_inv (snd (push now db this)).
Proof.
  intros [Hs Hall]. unfold Spec.throttle_inv.
  destruct (push_emission_times now db this) as (extra & Htimes & [->|[-> Hpass]]).
  - rewrite Htimes, app_nil_r. split; [exact Hs|].
    eapply List.Forall_impl; [|exact Hall]. cbn. intros t Ht.
    destruct (push_last_grows now db this) as [H|H]; lia.
  - rewrite Htimes, (push_passed now db this Hpass). split.
    + apply spaced_snoc; [exact Hs|].
      eapply List.Forall_impl; [|exact Hall]. cbn. intros t Ht. lia.
    + apply Forall_app. split; [|repeat constructor; lia].
      eapply List.Forall_impl; [|exact Hall]. cbn. intros t Ht. lia.
Qed.

Lemma throttle_inv_drive (calls : list (Z * SessionStore.Database)) (this : Worker) :
  Spec.throttle_inv this -> Spec.throttle_inv (drive _ broadcast calls this).
Proof.
  revert this. induction calls as [|[now db] rest IH]; intros this Hinv; cbn; [exact Hinv|].
  apply IH, throttle_inv_push, Hinv.
Qed.

(** Calls that all come less than a second after [lastTokenBroadcast]
    change nothing. *)
Lemma drive_quiet (calls : list (Z * SessionStore.Database)) (this : Worker) :
  (forall t, In t (List.map fst calls) -> t - last_of this < 1000) ->
  drive _ broadcast calls this = this.
Proof.
  induction calls as [|[now db] rest IH]; intros Hq; cbn; [reflexivity|].
  rewrite push_throttled by (apply Hq; left; reflexivity).
  apply IH. intros t Ht. apply Hq. right. exact Ht.
Qed.

Lemma drive_window (calls : list (Z * SessionStore.Database)) (this : Worker) :
  Spec.within_window 300 calls ->
  exists extra,
    times_of (drive _ broadcast calls this) = times_of this ++ extra /\
    (List.length extra <= 1)%nat.
Proof.
  induction calls as [|[now db] rest IH]; intros Hw; cbn [drive].
  - exists []. rewrite app_nil_r. split; [reflexivity | cbn; lia].
  - assert (Hrest : Spec.within_window 300 rest).
    { intros a b Ha Hb. apply Hw; right; assumption. }
    destruct (Z.ltb_spec (now - last_of this) 1000) as [Hlt|Hge].
    + rewrite push_throttled by exact Hlt. apply IH, Hrest.
    + rewrite drive_quiet.
      * destruct (push_emission_times now db this) as (extra & Htimes & [->|[-> _]]);
          eexists; (split; [exact Htimes | cbn; lia]).
      * intros t Ht. rewrite push_passed by exact Hge.
        specialize (Hw t now (or_intror Ht) (or_introl eq_refl)). lia.
Qed.

Lemma drive_first_emits (now : Z) (db : SessionStore.Database)
  (rest : list (Z * SessionStore.Database)) (this : Worker)
  (service : TokenMetricsService.Service)
  (summary : TokenMetricsService.Summary.TokenSummary) :
  Spec.within_window 300 ((now, db) :: rest) ->
  1000 <= now - last_of this ->
  tokenMetricsService _ this = Some service ->
  fst (TokenMetricsService.getSummary None None now db service) = Normal summary ->
  times_of (drive _ broadcast ((now, db) :: rest) this) = times_of this ++ [now].
Proof.
  intros Hw Hge Hservice Hsummary. cbn [drive].
  rewrite drive_quiet.
  - unfold emission_times. rewrite push_broadcasts, List.filter_app, List.map_app.
    unfold emitted. rewrite (proj2 (Z.ltb_ge _ _) Hge), Hservice, Hsummary. reflexivity.
  - intros t Ht. rewrite push_passed by exact Hge.
    specialize (Hw t now (or_intror Ht) (or_introl eq_refl)). lia.
Qed.

(** C7.  Along any sequence of calls, at any clock readings, two
    [token_update] emissions of one worker are at least 1,000 ms apart,
    and a call that reads the clock less than 1,000 ms after an earlier
    emission emits nothing.  Calls whose readings lie within 300 ms emit
    at most one event, and exactly one when the first of them passes the
    throttle on an initialized service whose [getSummary] returns. *)
Theorem token_update_throttle (calls : list (Z * SessionStore.Database)) (this : Worker) :
  Spec.throttle_inv this ->
  Spec.throttle_inv (drive _ broadcast calls this) /\
  (forall now db t,
      In t (times_of this) -> now - t < 1000 ->
      times_of (snd (push now db this)) = times_of this) /\
  (Spec.within_window 300 calls ->
   (exists extra,
       times_of (drive _ broadcast calls this) = times_of this ++ extra /\
       (List.length extra <= 1)%nat) /\
   (forall now db rest service summary,
       calls = (now, db) :: rest ->
       1000 <= now - last_of this ->
       tokenMetricsService _ this = Some service ->
       fst (TokenMetricsService.getSummary None None now db service) = Normal summary ->
       times_of (drive _ broadcast calls this) = times_of this ++ [now])).
Proof.
  intros Hinv. split; [apply throttle_inv_drive, Hinv|]. split.
  - intros now db t Ht Hlt. destruct Hinv as [_ Hall].
    rewrite Forall_forall in Hall. apply list_elem_of_In, Hall in Ht.
    rewrite push_throttled by lia. reflexivity.
  - intros Hw. split; [apply drive_window, Hw|].
    intros now db rest service summary -> Hge Hservice Hsummary.
    eapply drive_first_emits; eassumption.
Qed.

(** C10.  [broadcastTokenUpdate] always completes normally, whatever
    [getSummary] and the broadcaster do: when the metrics service is not
    initialized it emits nothing and logs nothing, and when [getSummary]
    or [broadcast] throws, the error is caught and one warning is logged.
    The call has no argument and no result, and touches the worker's own
    fields only. *)
Theorem broadcastTokenUpdate_never_throws (now : Z) (db : SessionStore.Database)
  (this : Worker) :
  fst (push now db this) = Normal tt /\
  (tokenMetricsService _ this = None ->
   broadcasts _ (snd (push now db this)) = broadcasts _ this /\
   warnings _ (snd (push now db this)) = warnings _ this /\
   sseBroadcaster _ (snd (push now db this)) = sseBroadcaster _ this) /\
  warnings _ (snd (push now db this)) =
    warnings _ this ++
    (if now - last_of this <? 1000 then []
     else
       match tokenMetricsService _ this with
       | None => []
       | Some service =>
           match TokenMetricsService.getSummary None None now db service with
           | (Throw _, _) => ["Failed to broadcast token update"]
           | (Normal summary, _) =>
               match broadcast (sseBroadcaster _ this) (token_update summary) with
               | Throw _ => ["Failed to broadcast token update"]
               | Normal _ => []
               end
           end
       end).
Proof.
  split; [apply push_never_throws|]. split; [|apply push_warnings].
  intros Hnone. rewrite push_broadcasts, push_warnings.
  unfold emitted. rewrite Hnone.
  destruct (now - last_of this <? 1000) eqn:Ht; rewrite !app_nil_r;
    (split; [reflexivity|]); (split; [reflexivity|]);
    unfold broadcastTokenUpdate; rewrite Ht; cbn; rewrite ?Hnone; reflexivity.
Qed.
End LivePushFacts.

(** ** The theorems at concrete inputs *)

(** C4 fails as stated.  For a store whose only observation costs 17 read
    tokens and 40 discovery tokens, the saving is 23 of 40: the document's
    [round(23 / 40 * 100)] is 58, and [getSummary] returns 57, because
    [(23 / 40) * 100] evaluates to the [number] just below 57.5. *)
Lemma getSummary_rounds_below_half :
  exists r this',
    TokenMetricsService.getSummary (host := Examples.plain_host) None None 5000
      (Examples.open_db [Examples.half_percent]) TokenMetricsService.new_Service =
      (JS.Normal r, this') /\
    TokenMetricsService.Summary.savings r = 23 /\
    TokenMetricsService.Summary.totalDiscoveryTokens r = 40 /\
    TokenMetricsService.Summary.savingsPercent r = 57 /\
    Spec.round (inject_Z (TokenMetricsService.Summary.savings r) /
                inject_Z (TokenMetricsService.Summary.totalDiscoveryTokens r) * 100) = 58 /\
    ~ Spec.summary_math r.
Proof.
  eexists. eexists. split; [reflexivity|].
  split; [vm_compute; reflexivity|]. split; [vm_compute; reflexivity|].
  split; [vm_compute; reflexivity|]. split; [vm_compute; reflexivity|].
  intros (_ & _ & Hpercent & _). vm_compute in Hpercent. discriminate Hpercent.
Qed.

Lemma getSummary_math_witness :
  let db := Examples.open_db [Examples.scenario1] in
  SessionStore.closed db = false /\
  Spec.discovery_nonneg db /\
  Spec.cached_summaries_ok TokenMetricsService.new_Service /\
  exists r this',
    TokenMetricsService.getSummary (host := Examples.plain_host) None None 5000 db
      TokenMetricsService.new_Service = (JS.Normal r, this') /\
    Spec.summary_relations r /\
    Spec.cached_summaries_ok this'.
Proof.
  intros db.
  assert (H1 : SessionStore.closed db = false) by reflexivity.
  assert (H2 : Spec.discovery_nonneg db).
  { intros o [<-|[]]. vm_compute. discriminate. }
  assert (H3 : Spec.cached_summaries_ok TokenMetricsService.new_Service).
  { intros key entry s H. vm_compute in H. discriminate. }
  split; [exact H1|]. split; [exact H2|]. split; [exact H3|].
  exact (getSummary_math (host := Examples.plain_host) None None 5000 db
           TokenMetricsService.new_Service H1 H2 H3).
Defined.


Lemma createMessageGenerator_lastPromptNumber_witness :
  let messages :=
    [Examples.observation_message (Some 1); Examples.observation_message None;
     Examples.observation_message (Some 2)] in
  Spec.ascending (SDKAgent.lastPromptNumber (Examples.session 1)) messages /\
  Sorted Z.le
    (List.map SDKAgent.lastPromptNumber_at_yield
       (fst (SDKAgent.createMessageGenerator (Examples.session 1) messages))).
Proof.
  intros messages.
  assert (H : Spec.ascending (SDKAgent.lastPromptNumber (Examples.session 1)) messages)
    by (cbn; lia).
  split; [exact H|].
  exact (proj1 (createMessageGenerator_lastPromptNumber (Examples.session 1) messages H)).
Defined.

Lemma token_update_throttle_witness :
  Spec.throttle_inv Examples.ready_worker /\
  Spec.within_window 300 Examples.five_calls /\
  Spec.spaced
    (WorkerService.emission_times _
       (WorkerService.drive (host := Examples.plain_host) _ Examples.keep_frames
          Examples.five_calls Examples.ready_worker)) /\
  WorkerService.emission_times _
    (WorkerService.drive (host := Examples.plain_host) _ Examples.keep_frames
       Examples.five_calls Examples.ready_worker) = [1700000000000].
Proof.
  assert (H1 : Spec.throttle_inv Examples.ready_worker).
  { split; [|constructor]. intros i j ti tj _ Hi. destruct i; discriminate. }
  assert (H2 : Spec.within_window 300 Examples.five_calls).
  { intros a b Ha Hb. cbn in Ha, Hb.
    repeat (destruct Ha as [<-|Ha]); try (destruct Ha);
      repeat (destruct Hb as [<-|Hb]); try (destruct Hb); lia. }
  split; [exact H1|]. split; [exact H2|].
  destruct (token_update_throttle (host := Examples.plain_host) _ Examples.keep_frames
              Examples.five_calls Examples.ready_worker H1) as ([Hspaced _] & _ & Hwindow).
  split; [exact Hspaced|].
  destruct (Hwindow H2) as [_ Hone].
  refine (Hone _ _ _ TokenMetricsService.new_Service _ eq_refl _ eq_refl _).
  - vm_compute. discriminate.
  - vm_compute. reflexivity.
Defined.

Lemma getProcessingTimes_stats_witness :
  let this := Examples.five_samples in
  let response :=
    PerformanceTracker.getProcessingTimes (host := Examples.plain_host)
      None None 6000 6000 this in
  let durations :=
    PerformanceTracker.sort_numeric
      (List.map PerformanceTracker.duration (PerformanceTracker.times response)) in
  Spec.bounded_history this /\
  PerformanceTracker.times response <> [] /\
  PerformanceTracker.p50ProcessingTime (PerformanceTracker.stats response) =
    List.nth (Z.to_nat (Spec.nearest_rank 50 (List.length durations))) durations 0 /\
  PerformanceTracker.p95ProcessingTime (PerformanceTracker.stats response) =
    List.nth (Z.to_nat (Spec.nearest_rank 95 (List.length durations))) durations 0.
Proof.
  intros this response durations.
  assert (H : Spec.bounded_history this) by (vm_compute; discriminate).
  assert (Hne : PerformanceTracker.times response <> []) by (vm_compute; discriminate).
  split; [exact H|]. split; [exact Hne|].
  destruct (getProcessingTimes_stats (host := Examples.plain_host) None None 6000 6000
              this H) as (_ & Hsome & _).
  destruct (Hsome Hne) as (_ & H50 & H95 & _).
  split; [exact H50 | exact H95].
Defined.

(** ** The scenarios of the design document, evaluated *)

Section Scenarios.
Import JS.

Example parse_string_array :
  JSON_parse <$> SessionStore.concepts Examples.with_concept =
  Some (Some (JArray [JString "abcd"])).
Proof. reflexivity. Qed.

(** Scenario 1: one observation with the title [ok] and 40 discovery
    tokens. *)
Example scenario1_summary :
  exists r,
    fst (TokenMetricsService.getSummary (host := Examples.plain_host) None None 5000
           (Examples.open_db [Examples.scenario1]) TokenMetricsService.new_Service) =
      Normal r /\
    TokenMetricsService.Summary.totalObservations r = 1 /\
    TokenMetricsService.Summary.totalReadTokens r = 1 /\
    TokenMetricsService.Summary.totalDiscoveryTokens r = 40 /\
    TokenMetricsService.Summary.savings r = 39 /\
    TokenMetricsService.Summary.savingsPercent r = 98 /\
    TokenMetricsService.Summary.efficiencyGain r = double 40.
Proof. eexists. split; [reflexivity|]. vm_compute. repeat split. Qed.

(** The percentage is rounded from the binary64 product: [(23 / 40) * 100]
    is the [number] just below 57.5, and [(29 / 200) * 100] the one just
    below 14.5. *)
Example savingsPercent_binary64 :
  Math_round (double 23 / double 40 * double 100)%num = 57 /\
  Math_round (double 29 / double 200 * double 100)%num = 14.
Proof. vm_compute. split; reflexivity. Qed.

Example half_percent_summary :
  exists r,
    fst (TokenMetricsService.getSummary (host := Examples.plain_host) None None 5000
           (Examples.open_db [Examples.half_percent]) TokenMetricsService.new_Service) =
      Normal r /\
    TokenMetricsService.Summary.totalReadTokens r = 17 /\
    TokenMetricsService.Summary.totalDiscoveryTokens r = 40 /\
    TokenMetricsService.Summary.savings r = 23 /\
    TokenMetricsService.Summary.savingsPercent r = 57.
Proof. eexists. split; [reflexivity|]. vm_compute. repeat split. Qed.

(** Scenario 5: the projection for a project without observations. *)
Example scenario5_projection :
  fst (TokenMetricsService.getEndlessModeProjection (host := Examples.plain_host)
         (Some "nonesuch") 50 5000 (Examples.open_db Examples.three_rows)
         TokenMetricsService.new_Service) =
  Normal TokenMetricsService.empty_projection.
Proof. reflexivity. Qed.

(** A reply with 100 input, 20 output, 30 cache-creation and 999 cache-read
    tokens: both observations are stored with 150 discovery tokens. *)
Example reply_accounting :
  let '(result, session, world) := Examples.after_reply in
  result = Normal tt /\
  SDKAgent.cumulativeInputTokens session = 130 /\
  SDKAgent.cumulativeOutputTokens session = 20 /\
  omap (SDKAgent.persisted_discoveryTokens string unit) (SDKAgent.effects _ _ _ world) =
    [150; 150].
Proof. vm_compute. repeat split. Qed.

(** The throttle of the service itself: [shouldBroadcast] answers [true]
    exactly when a second has passed since the last [true], and only then
    moves [lastBroadcastTime]. *)
Lemma shouldBroadcast_spec (now : Z) (this : TokenMetricsService.Service) :
  TokenMetricsService.shouldBroadcast now this =
  if 1000 <=? now - TokenMetricsService.lastBroadcastTime this
  then (true, {| TokenMetricsService.cache := TokenMetricsService.cache this;
                 TokenMetricsService.lastBroadcastTime := now |})
  else (false, this).
Proof. reflexivity. Qed.
End Scenarios.

(** * Further properties of the code *)

(** ** The cache in use *)

Section CacheUse.
Import JS TokenMetricsService.
Context {host : Host}.

Lemma getCached_setCache (key : string) (d : CacheData) (ttl now now' : Z)
  (this : Service) :
  getCached key ttl now' (setCache key d now this) =
  if now' - now <? ttl then Some d else None.
Proof.
  unfold getCached, setCache. cbn [cache]. rewrite lookup_insert_eq. reflexivity.
Qed.

Lemma getCached_setCache_ne (key key' : string) (d : CacheData) (ttl now now' : Z)
  (this : Service) :
  key <> key' ->
  getCached key' ttl now' (setCache key d now this) = getCached key' ttl now' this.
Proof.
  intros Hne. unfold getCached, setCache. cbn [cache].
  rewrite lookup_insert_ne by assumption. reflexivity.
Qed.

(** What [getSummary] does when it finds no fresh entry. *)
Lemma getSummary_miss (project since : option string) (now : Z)
  (db : SessionStore.Database) (this : Service) :
  getCached (summary_cacheKey project since) CACHE_TTL_MS now this = None ->
  getSummary project since now db this =
  match SessionStore.all db
          (fun o => project_condition project o &&
                    since_condition (parseSince now since) o) with
  | Throw e => (Throw e, this)
  | Normal rows =>
      (Normal (summarize (List.map select_summary_columns rows)),
       setCache (summary_cacheKey project since)
         (SummaryData (summarize (List.map select_summary_columns rows))) now this)
  end.
Proof. intros Hmiss. unfold getSummary. rewrite Hmiss. reflexivity. Qed.

(** A summary computed at [now] is what every call with the same cache
    key returns until 30 seconds have passed. *)
Lemma getSummary_served (project since project' since' : option string) (now now' : Z)
  (db db' : SessionStore.Database) (this this' : Service) (r : Summary.TokenSummary) :
  getCached (summary_cacheKey project since) CACHE_TTL_MS now this = None ->
  getSummary project since now db this = (Normal r, this') ->
  summary_cacheKey project' since' = summary_cacheKey project since ->
  now' - now < CACHE_TTL_MS ->
  getSummary project' since' now' db' this' = (Normal r, this').
Proof.
  intros Hmiss Hcall Hkey Hfresh. rewrite getSummary_miss in Hcall by assumption.
  destruct (SessionStore.all db _) as [rows|e]; [|discriminate].
  injection Hcall as <- <-.
  unfold getSummary. rewrite Hkey, getCached_setCache.
  rewrite (proj2 (Z.ltb_lt _ _) Hfresh). reflexivity.
Qed.

(** X1.  A summary that [getSummary] computed at [now] (no fresh entry was
    cached, the store answered) is returned again, without reading the
    store and without touching the cache, by every call made less than
    30 seconds later whose arguments give the same cache key: the same
    arguments, but also [project = "all"] after a call without project.
    From 30 seconds on, the call reads the store again. *)
Theorem getSummary_cache_window (project since project' since' : option string)
  (now now' : Z) (db db' : SessionStore.Database) (this this' : Service)
  (r : Summary.TokenSummary) :
  getCached (summary_cacheKey project since) CACHE_TTL_MS now this = None ->
  getSummary project since now db this = (Normal r, this') ->
  summary_cacheKey project' since' = summary_cacheKey project since ->
  (now' - now < 30000 ->
   getSummary project' since' now' db' this' = (Normal r, this')) /\
  (30000 <= now' - now ->
   getSummary project' since' now' db' this' =
   match SessionStore.all db'
           (fun o => project_condition project' o &&
                     since_condition (parseSince now' since') o) with
   | Throw e => (Throw e, this')
   | Normal rows =>
       (Normal (summarize (List.map select_summary_columns rows)),
        setCache (summary_cacheKey project since)
          (SummaryData (summarize (List.map select_summary_columns rows))) now' this')
   end) /\
  summary_cacheKey (Some "all") since = summary_cacheKey None since.
Proof.
  intros Hmiss Hcall Hkey. split; [|split; [|reflexivity]].
  - intros Hfresh. eapply getSummary_served; eassumption.
  - intros Hold. rewrite getSummary_miss, Hkey; [reflexivity|].
    rewrite getSummary_miss in Hcall by assumption.
    destruct (SessionStore.all db _) as [rows|e]; [|discriminate].
    injection Hcall as _ <-. rewrite Hkey, getCached_setCache.
    unfold CACHE_TTL_MS. rewrite (proj2 (Z.ltb_ge _ _) Hold). reflexivity.
Qed.

End CacheUse.

Lemma getSummary_cache_window_witness :
  let db := Examples.open_db [Examples.scenario1] in
  exists r this',
    TokenMetricsService.getSummary (host := Examples.plain_host) None None 5000 db
      TokenMetricsService.new_Service =
      (JS.Normal r, this') /\
    TokenMetricsService.getSummary (host := Examples.plain_host) (Some "all") None 20000 Examples.closed_db
      this' = (JS.Normal r, this').
Proof.
  intros db.
  assert (Hmiss : TokenMetricsService.getCached (TokenMetricsService.summary_cacheKey None None)
            TokenMetricsService.CACHE_TTL_MS 5000 TokenMetricsService.new_Service = None)
    by reflexivity.
  eexists. eexists. split; [reflexivity|].
  refine (proj1 (getSummary_cache_window (host := Examples.plain_host) None None
                   (Some "all") None 5000 20000 db Examples.closed_db
                   TokenMetricsService.new_Service _ _
                   Hmiss eq_refl eq_refl) _).
  lia.
Defined.

Section CacheInvalidation.
Import JS TokenMetricsService.
Context {host : Host}.

Lemma summary_key_invalidated (p project since : option string) :
  invalidates p (summary_cacheKey project since) = true.
Proof.
  unfold invalidates. destruct (truthy_string p); [|reflexivity].
  apply orb_true_iff. right. apply prefix_spec. eexists. reflexivity.
Qed.

(** X2.  After [invalidateCache], whatever its argument, no summary is
    served from the cache: the next [getSummary], at any time and for any
    filter, reads the store, returns what it computes from the rows found
    there (or the error of the store), and caches that. *)
Theorem getSummary_after_invalidateCache (p project since : option string) (now : Z)
  (db : SessionStore.Database) (this : Service) :
  getSummary project since now db (invalidateCache p this) =
  match SessionStore.all db
          (fun o => project_condition project o &&
                    since_condition (parseSince now since) o) with
  | Throw e => (Throw e, invalidateCache p this)
  | Normal rows =>
      (Normal (summarize (List.map select_summary_columns rows)),
       setCache (summary_cacheKey project since)
         (SummaryData (summarize (List.map select_summary_columns rows))) now
         (invalidateCache p this))
  end.
Proof.
  unfold getSummary, getCached.
  rewrite invalidateCache_lookup, summary_key_invalidated. reflexivity.
Qed.
End CacheInvalidation.

(** ** The projection in closed form *)

Section ProjectionUse.
Import JS TokenMetricsService.
Context {host : Host}.

Lemma fold_closed_form (step : Simulation -> Row.ObservationRow -> Simulation)
  (size : Row.ObservationRow -> Z) :
  (forall s obs,
      totalDiscovery (step s obs) = totalDiscovery s + or0 (Row.discovery_tokens obs) /\
      cumulativeContext (step s obs) = cumulativeContext s + size obs /\
      totalContinuation (step s obs) =
        totalContinuation s + (cumulativeContext s + size obs)) ->
  forall l s,
    totalDiscovery (List.fold_left step l s) =
      totalDiscovery s + Spec.sum_over (fun obs => or0 (Row.discovery_tokens obs)) l /\
    cumulativeContext (List.fold_left step l s) =
      cumulativeContext s + Spec.sum_over size l /\
    totalContinuation (List.fold_left step l s) =
      totalContinuation s + Z.of_nat (List.length l) * cumulativeContext s +
      Laws.weighted size l.
Proof.
  intros Hstep. induction l as [|obs rest IH]; intros s.
  - cbn. lia.
  - cbn [List.fold_left]. destruct (IH (step s obs)) as (H1 & H2 & H3).
    destruct (Hstep s obs) as (S1 & S2 & S3).
    rewrite H1, H2, H3, S1, S2, S3.
    cbn [Spec.sum_over Laws.weighted List.length]. lia.
Qed.

Lemma weighted_difference {A} (f g : A -> Z) (l : list A) :
  Laws.weighted (fun x => f x - g x) l = Laws.weighted f l - Laws.weighted g l.
Proof. induction l as [|x rest IH]; cbn [Laws.weighted]; [reflexivity | rewrite IH; lia]. Qed.

Lemma weighted_nonneg {A} (f : A -> Z) (l : list A) :
  (forall x, In x l -> 0 <= f x) -> 0 <= Laws.weighted f l.
Proof.
  induction l as [|x rest IH]; intros H; cbn [Laws.weighted]; [lia|].
  assert (0 <= f x) by (apply H; left; reflexivity).
  assert (0 <= Laws.weighted f rest) by (apply IH; intros y Hy; apply H; right; exact Hy).
  nia.
Qed.

(** X3.  The simulation that [getEndlessModeProjection] runs over the
    fetched rows, in closed form.  Both streams carry the same discovery
    total; the continuation total of a stream is the sum of the sizes of
    the rows, each counted once for its own step and once for every later
    step (the first row of [n] counts [n] times).  So [tokensSaved] is the
    same weighted sum of [2 * discovery_tokens - calculateReadTokens], and
    it is not negative when no row costs more to read than twice its
    discovery tokens. *)
Theorem simulate_closed_form (observations : list Row.ObservationRow) :
  let p := simulate observations in
  let discovery := fun obs => or0 (Row.discovery_tokens obs) in
  Projection.discoveryTokens (Projection.withoutEndlessMode p) =
    Spec.sum_over discovery observations /\
  Projection.discoveryTokens (Projection.withEndlessMode p) =
    Spec.sum_over discovery observations /\
  Projection.continuationTokens (Projection.withoutEndlessMode p) =
    Laws.weighted (fun obs => 2 * discovery obs) observations /\
  Projection.continuationTokens (Projection.withEndlessMode p) =
    Laws.weighted calculateReadTokens observations /\
  Projection.tokensSaved p =
    Laws.weighted (fun obs => 2 * discovery obs - calculateReadTokens obs) observations /\
  ((forall obs, In obs observations -> calculateReadTokens obs <= 2 * discovery obs) ->
   0 <= Projection.tokensSaved p).
Proof.
  intros p discovery.
  assert (Hsaved : Projection.tokensSaved p =
                   Laws.weighted (fun obs => 2 * discovery obs - calculateReadTokens obs)
                     observations /\
                   Projection.discoveryTokens (Projection.withoutEndlessMode p) =
                     Spec.sum_over discovery observations /\
                   Projection.discoveryTokens (Projection.withEndlessMode p) =
                     Spec.sum_over discovery observations /\
                   Projection.continuationTokens (Projection.withoutEndlessMode p) =
                     Laws.weighted (fun obs => 2 * discovery obs) observations /\
                   Projection.continuationTokens (Projection.withEndlessMode p) =
                     Laws.weighted calculateReadTokens observations).
  { subst p. destruct observations as [|obs rest]; [cbn; repeat split|].
    set (l := obs :: rest).
    destruct (fold_closed_form without_step (fun obs => 2 * discovery obs)) with
      (l := l) (s := start) as (W1 & _ & W3).
    { intros s o. unfold without_step, estimateOriginalSize, discovery. cbn. lia. }
    destruct (fold_closed_form with_step calculateReadTokens) with
      (l := l) (s := start) as (E1 & _ & E3).
    { intros s o. unfold with_step. cbn. lia. }
    rewrite weighted_difference.
    unfold simulate. subst l. cbv zeta.
    cbn [Projection.tokensSaved Projection.discoveryTokens Projection.continuationTokens
         Projection.withoutEndlessMode Projection.withEndlessMode].
    rewrite W1, W3, E1, E3. cbn [totalDiscovery cumulativeContext totalContinuation start].
    fold discovery. repeat split; lia. }
  destruct Hsaved as (Hs & H1 & H2 & H3 & H4).
  repeat (split; [assumption|]).
  intros Hle. rewrite Hs. apply weighted_nonneg. intros obs Hin.
  specialize (Hle obs Hin). lia.
Qed.
End ProjectionUse.

(** ** The quick summary beside the full one *)

Section QuickSummary.
Import JS TokenMetricsService.
Context {host : Host}.

Lemma SUM_from (xs : list (option Z)) (acc : option Z) :
  or0 (List.fold_left
         (fun acc x =>
            match x with
            | None => acc
            | Some v => Some (or0 acc + v)
            end) xs acc) =
  or0 acc + Spec.sum_over or0 xs.
Proof.
  revert acc. induction xs as [|x rest IH]; intros acc; cbn [List.fold_left Spec.sum_over].
  - lia.
  - rewrite IH. destruct x; cbn [or0]; lia.
Qed.

Lemma or0_SUM (xs : list (option Z)) : or0 (SessionStore.SUM xs) = Spec.sum_over or0 xs.
Proof. unfold SessionStore.SUM. rewrite SUM_from. reflexivity. Qed.

Lemma sum_over_map {A B} (f : B -> Z) (g : A -> B) (l : list A) :
  Spec.sum_over f (List.map g l) = Spec.sum_over (fun x => f (g x)) l.
Proof. induction l as [|x rest IH]; cbn; [reflexivity | rewrite IH; reflexivity]. Qed.

Lemma sum_over_ext {A} (f g : A -> Z) (l : list A) :
  (forall x, In x l -> f x = g x) -> Spec.sum_over f l = Spec.sum_over g l.
Proof.
  induction l as [|x rest IH]; intros H; cbn; [reflexivity|].
  rewrite (H x (or_introl eq_refl)), IH; [reflexivity|].
  intros y Hy. apply H. right. exact Hy.
Qed.

(** X4.  [getQuickSummary] and an unfiltered [getSummary] that finds no
    fresh entry read the same store: both throw when the connection is
    closed, and otherwise they agree on [totalDiscoveryTokens], the sum of
    the discovery tokens of all rows.  The read total of the quick
    summary is the sum over the rows of the truncated quarter of the
    lengths of title, subtitle, narrative and the raw [facts] text, and
    its [savings] is the difference of the two totals. *)
Theorem getQuickSummary_totals (now : Z) (db : SessionStore.Database) (this : Service) :
  getCached (summary_cacheKey None None) CACHE_TTL_MS now this = None ->
  match getQuickSummary db, fst (getSummary None None now db this) with
  | Normal quick, Normal full =>
      SessionStore.closed db = false /\
      Quick.totalDiscoveryTokens quick = Summary.totalDiscoveryTokens full /\
      Quick.totalDiscoveryTokens quick =
        Spec.sum_over (fun o => or0 (SessionStore.discovery_tokens o))
          (SessionStore.observations db) /\
      Quick.totalReadTokens quick =
        Spec.sum_over sql_read_tokens (SessionStore.observations db) /\
      Quick.savings quick = Quick.totalDiscoveryTokens quick - Quick.totalReadTokens quick
  | Throw _, Throw _ => SessionStore.closed db = true
  | _, _ => False
  end.
Proof.
  intros Hmiss. rewrite getSummary_miss by assumption.
  unfold getQuickSummary, SessionStore.all.
  destruct (SessionStore.closed db) eqn:Hclosed; cbn [bind fst]; [reflexivity|].
  cbn [Quick.totalDiscoveryTokens Quick.totalReadTokens Quick.savings].
  split; [reflexivity|].
  assert (Hall : forall (P : SessionStore.Observation -> bool) l,
             (forall o, P o = true) -> List.filter P l = l).
  { intros P l HP. induction l as [|o rest IH]; cbn; [reflexivity|].
    rewrite HP, IH. reflexivity. }
  rewrite !Hall by reflexivity.
  rewrite !or0_SUM, !sum_over_map.
  split; [|split; [reflexivity | split; [reflexivity | reflexivity]]].
  unfold summarize. rewrite summary_totals_sums. cbn [Summary.totalDiscoveryTokens].
  rewrite sum_over_map. reflexivity.
Qed.
End QuickSummary.

Lemma getQuickSummary_totals_witness :
  let db := Examples.open_db Examples.three_rows in
  exists quick full,
    TokenMetricsService.getQuickSummary db = JS.Normal quick /\
    fst (TokenMetricsService.getSummary (host := Examples.plain_host) None None 5000 db
           TokenMetricsService.new_Service) = JS.Normal full /\
    TokenMetricsService.Quick.totalDiscoveryTokens quick =
      TokenMetricsService.Summary.totalDiscoveryTokens full.
Proof.
  intros db.
  assert (Hmiss : TokenMetricsService.getCached
                    (TokenMetricsService.summary_cacheKey None None)
                    TokenMetricsService.CACHE_TTL_MS 5000
                    TokenMetricsService.new_Service = None) by reflexivity.
  pose proof (getQuickSummary_totals (host := Examples.plain_host) 5000 db
                TokenMetricsService.new_Service Hmiss) as H.
  destruct (TokenMetricsService.getQuickSummary db) as [quick|e] eqn:Hq;
    destruct (fst (TokenMetricsService.getSummary (host := Examples.plain_host)
                     None None 5000 db TokenMetricsService.new_Service))
      as [full|e'] eqn:Hf; try contradiction.
  - exists quick, full. split; [reflexivity|]. split; [reflexivity|].
    destruct H as (_ & H & _). exact H.
  - vm_compute in H. discriminate.
Defined.

(** ** Decimal texts *)

Section TextFacts.
Import JS.

Lemma digits_value_shift (acc : Z) (ds : list ascii) :
  TokenMetricsService.digits_value acc ds =
  acc * 10 ^ Z.of_nat (List.length ds) + TokenMetricsService.digits_value 0 ds.
Proof.
  revert acc. induction ds as [|d r IH]; intros acc.
  - cbn. lia.
  - cbn [TokenMetricsService.digits_value List.length].
    rewrite IH, (IH (10 * 0 + _)).
    rewrite Nat2Z.inj_succ, Z.pow_succ_r by lia. lia.
Qed.

Lemma decimal_value_digits (ds : list ascii) :
  decimal_value ds = TokenMetricsService.digits_value 0 ds.
Proof.
  unfold decimal_value. generalize 0.
  induction ds as [|d r IH]; intros acc; cbn; [reflexivity | apply IH].
Qed.

Lemma chars_length (s : string) : List.length (chars s) = String.length s.
Proof. induction s; cbn; [reflexivity | f_equal; assumption]. Qed.

Lemma chars_append (s t : string) : chars (s +:+ t) = chars s ++ chars t.
Proof.
  unfold chars. induction s as [|c s IH]; simpl; [reflexivity | f_equal; exact IH].
Qed.

Lemma pretty_N_char_digit (x : N) :
  (x < 10)%N ->
  is_digit (pretty_N_char x) = true /\
  Z.of_N (N_of_ascii (pretty_N_char x) - 48) = Z.of_N x.
Proof.
  intros Hx.
  assert (x = 0 \/ x = 1 \/ x = 2 \/ x = 3 \/ x = 4 \/ x = 5 \/ x = 6 \/ x = 7 \/
          x = 8 \/ x = 9)%N as H by lia.
  repeat (destruct H as [-> | H]); try subst x; split; reflexivity.
Qed.

Lemma pretty_N_go_digits (x : N) (s : string) :
  forallb is_digit (chars (pretty_N_go x s)) = forallb is_digit (chars s) /\
  TokenMetricsService.digits_value 0 (chars (pretty_N_go x s)) =
    Z.of_N x * 10 ^ Z.of_nat (String.length s) +
    TokenMetricsService.digits_value 0 (chars s) /\
  (s <> EmptyString -> pretty_N_go x s <> EmptyString).
Proof.
  revert s. induction (N.lt_wf_0 x) as [x _ IH]; intros s.
  assert (x = 0 \/ 0 < x)%N as [->|Hpos] by lia.
  - rewrite pretty_N_go_0. split; [reflexivity|]. split; [lia | auto].
  - rewrite pretty_N_go_step by assumption.
    destruct (IH (x `div` 10)%N (N.div_lt x 10 Hpos eq_refl)
                (String (pretty_N_char (x `mod` 10)) s)) as (H1 & H2 & H3).
    destruct (pretty_N_char_digit (x `mod` 10)%N) as [Hd Hv];
      [apply N.mod_lt; lia|].
    rewrite H1, H2.
    cbn [chars list_ascii_of_string forallb TokenMetricsService.digits_value String.length].
    fold (chars s). rewrite Hd. split; [reflexivity|]. split.
    + rewrite (digits_value_shift (10 * 0 + _)), Hv.
      rewrite chars_length, Nat2Z.inj_succ, Z.pow_succ_r by lia.
      rewrite N2Z.inj_mod, N2Z.inj_div.
      pose proof (Z.div_mod (Z.of_N x) 10 ltac:(lia)).
      change (Z.of_N 10) with 10. lia.
    + intros _. apply H3. discriminate.
Qed.

(** The decimal text of a natural number: digits only, at least one, and
    read back as the number. *)
Lemma pretty_N_digits (n : N) :
  forallb is_digit (chars (pretty n)) = true /\
  TokenMetricsService.digits_value 0 (chars (pretty n)) = Z.of_N n /\
  chars (pretty n) <> [].
Proof.
  unfold pretty, pretty_N. destruct (decide (n = 0%N)) as [->|Hne].
  - repeat split. discriminate.
  - destruct (pretty_N_go_digits n EmptyString) as (H1 & H2 & _).
    split; [rewrite H1; reflexivity|]. split; [rewrite H2; cbn; lia|].
    rewrite pretty_N_go_step by lia.
    destruct (pretty_N_go_digits (n `div` 10)%N
                (String (pretty_N_char (n `mod` 10)) EmptyString)) as (_ & _ & H3).
    intros Hnil. apply H3; [discriminate|].
    set (text := pretty_N_go (n `div` 10)%N _) in *.
    destruct text; [reflexivity | discriminate].
Qed.

Lemma forallb_rev {A} (f : A -> bool) (l : list A) :
  forallb f (List.rev l) = forallb f l.
Proof.
  induction l as [|x rest IH]; [reflexivity|].
  cbn [List.rev forallb]. rewrite forallb_app, IH. cbn. rewrite andb_true_r.
  apply andb_comm.
Qed.

Lemma match_relative_text (digits : list ascii) (unit : ascii) :
  digits <> [] -> forallb is_digit digits = true ->
  (Ascii.eqb unit "h" || Ascii.eqb unit "d" || Ascii.eqb unit "w") = true ->
  TokenMetricsService.match_relative (str (digits ++ [unit])) =
  Some (TokenMetricsService.digits_value 0 digits, unit).
Proof.
  intros Hne Hdigits Hunit. unfold TokenMetricsService.match_relative, chars, str.
  rewrite list_ascii_of_string_of_list_ascii, rev_app_distr. cbn [List.rev app].
  destruct (List.rev digits) as [|d r] eqn:Hrev.
  - exfalso. apply Hne. rewrite <- (rev_involutive digits), Hrev. reflexivity.
  - rewrite <- Hrev, forallb_rev, Hdigits, Hunit, rev_involutive. reflexivity.
Qed.
End TextFacts.

(** ** The [since] parameter *)

Section SinceFacts.
Import JS.
Context {host : Host}.

Lemma str_snoc (s : string) (c : ascii) :
  str (chars s ++ [c]) = s +:+ String c EmptyString.
Proof.
  unfold str, chars. induction s as [|d s IH]; [reflexivity|].
  cbn [list_ascii_of_string app string_of_list_ascii String.append]. rewrite IH.
  reflexivity.
Qed.

Lemma parseSince_digits (now : Z) (digits : list ascii) (unit : ascii) :
  digits <> [] -> forallb is_digit digits = true ->
  (Ascii.eqb unit "h" || Ascii.eqb unit "d" || Ascii.eqb unit "w") = true ->
  TokenMetricsService.parseSince now (Some (str (digits ++ [unit]))) =
  Some (now -
        (if Ascii.eqb unit "h" then TokenMetricsService.digits_value 0 digits * 60 * 60 * 1000
         else if Ascii.eqb unit "d"
              then TokenMetricsService.digits_value 0 digits * 24 * 60 * 60 * 1000
              else TokenMetricsService.digits_value 0 digits * 7 * 24 * 60 * 60 * 1000)).
Proof.
  intros Hne Hdigits Hunit. unfold TokenMetricsService.parseSince.
  assert (Htruthy : truthy_string (Some (str (digits ++ [unit]))) =
                    Some (str (digits ++ [unit]))).
  { destruct digits as [|d r]; [congruence | reflexivity]. }
  rewrite Htruthy, match_relative_text by assumption. reflexivity.
Qed.

(** X5.  A relative [since] is read as a window that ends now: for the
    decimal text of a natural number [n] up to ten million and a clock
    reading below [2 ^ 53], [parseSince] of [n] followed by [h], [d] or
    [w] is [now] minus [n] hours, days or weeks in milliseconds.  (Within
    these bounds the products and the difference stay below [2 ^ 53] in
    absolute value, so the binary64 arithmetic of the source gives them
    exactly.)  The tracker's private copy of [parseSince] agrees with the
    one of the token service on every input, and an absent or empty
    [since] gives [null]. *)
Theorem parseSince_relative (now : Z) (n : N) :
  0 <= now < 2 ^ 53 ->
  (n <= 10000000)%N ->
  TokenMetricsService.parseSince now (Some (pretty n +:+ "h")) =
    Some (now - Z.of_N n * 3600000) /\
  TokenMetricsService.parseSince now (Some (pretty n +:+ "d")) =
    Some (now - Z.of_N n * 86400000) /\
  TokenMetricsService.parseSince now (Some (pretty n +:+ "w")) =
    Some (now - Z.of_N n * 604800000) /\
  Z.of_N n * 604800000 < 2 ^ 53 /\
  Z.abs (now - Z.of_N n * 604800000) < 2 ^ 53 /\
  (forall since,
      PerformanceTracker.parseSince now since =
      TokenMetricsService.parseSince now since) /\
  TokenMetricsService.parseSince now None = None /\
  TokenMetricsService.parseSince now (Some EmptyString) = None.
Proof.
  intros Hnow Hn. change (2 ^ 53) with 9007199254740992 in *.
  destruct (pretty_N_digits n) as (Hdigits & Hvalue & Hne).
  split; [|split; [|split; [|split; [lia|split; [lia|]]]]];
    [| | |repeat split];
    rewrite <- str_snoc, parseSince_digits by (assumption || reflexivity);
    rewrite Hvalue;
    repeat match goal with
           | |- context [Ascii.eqb ?a ?b] =>
               let v := eval vm_compute in (Ascii.eqb a b) in
               change (Ascii.eqb a b) with v
           end;
    cbv iota; f_equal; lia.
Qed.
End SinceFacts.

Lemma parseSince_relative_witness :
  0 <= 1700000000000 < 2 ^ 53 /\
  (24 <= 10000000)%N /\
  TokenMetricsService.parseSince (host := Examples.plain_host) 1700000000000
    (Some "24h") = Some 1699913600000.
Proof.
  assert (H1 : 0 <= 1700000000000 < 2 ^ 53) by (change (2 ^ 53) with 9007199254740992; lia).
  assert (H2 : (24 <= 10000000)%N) by lia.
  split; [exact H1|]. split; [exact H2|].
  exact (proj1 (parseSince_relative (host := Examples.plain_host) 1700000000000 24 H1 H2)).
Defined.

(** ** The histories of the tracker *)

Section TrackerFacts.
Import JS PerformanceTracker.

Lemma trim_length {A} (max : Z) (l : list A) :
  0 <= max -> Z.of_nat (List.length l) <= max + 1 ->
  Z.of_nat (List.length (trim max l)) <= max.
Proof.
  unfold trim. intros Hmax Hl. destruct (max <? Z.of_nat (List.length l)) eqn:Hlt.
  - destruct l as [|x rest]; cbn [List.tl List.length] in *; lia.
  - apply Z.ltb_ge in Hlt. exact Hlt.
Qed.

Lemma both_bounded_call (c : Laws.TrackerCall) (this : Tracker) :
  Z.of_nat (List.length (queueHistory this)) <= MAX_QUEUE_HISTORY /\
  Z.of_nat (List.length (processingTimes this)) <= MAX_PROCESSING_TIMES ->
  Z.of_nat (List.length (queueHistory (Laws.call c this))) <= MAX_QUEUE_HISTORY /\
  Z.of_nat (List.length (processingTimes (Laws.call c this))) <= MAX_PROCESSING_TIMES.
Proof.
  intros [Hq Hp]. destruct c as [queueDepth activeSessions now|record|]; cbn [Laws.call].
  - unfold recordQueueSample.
    destruct (now - lastSampleTime this <? SAMPLE_INTERVAL_MS); [auto|].
    cbn [queueHistory processingTimes]. split; [|exact Hp].
    apply trim_length; [unfold MAX_QUEUE_HISTORY, MAX_PROCESSING_TIMES; lia|].
    rewrite length_app. cbn [List.length]. lia.
  - unfold recordProcessingTime. cbn [queueHistory processingTimes]. split; [exact Hq|].
    apply trim_length; [unfold MAX_QUEUE_HISTORY, MAX_PROCESSING_TIMES; lia|].
    rewrite length_app. cbn [List.length]. lia.
  - unfold clear, MAX_QUEUE_HISTORY, MAX_PROCESSING_TIMES. cbn. lia.
Qed.

(** X6.  Whatever is recorded, and in whatever order, a tracker never
    holds more than 1000 queue samples nor more than 500 processing
    records. *)
Theorem tracker_histories_bounded (calls : list Laws.TrackerCall) :
  let this := Laws.after calls new_Tracker in
  (List.length (queueHistory this) <= 1000)%nat /\
  (List.length (processingTimes this) <= 500)%nat.
Proof.
  cbv zeta.
  assert (H : forall this,
             Z.of_nat (List.length (queueHistory this)) <= MAX_QUEUE_HISTORY /\
             Z.of_nat (List.length (processingTimes this)) <= MAX_PROCESSING_TIMES ->
             Z.of_nat (List.length (queueHistory (Laws.after calls this))) <=
               MAX_QUEUE_HISTORY /\
             Z.of_nat (List.length (processingTimes (Laws.after calls this))) <=
               MAX_PROCESSING_TIMES).
  { unfold Laws.after. induction calls as [|c rest IH]; intros this Hb; [exact Hb|].
    cbn [List.fold_left]. apply IH, both_bounded_call, Hb. }
  destruct (H new_Tracker) as [Hq Hp].
  { unfold MAX_QUEUE_HISTORY, MAX_PROCESSING_TIMES. cbn. lia. }
  unfold MAX_QUEUE_HISTORY, MAX_PROCESSING_TIMES in *. lia.
Qed.

Lemma recordProcessingTime_kept (record : ProcessingTimeRecord) (this : Tracker) :
  exists dropped kept,
    processingTimes this = dropped ++ kept /\
    processingTimes (recordProcessingTime record this) = kept ++ [record] /\
    (500 <= List.length (processingTimes this) -> List.length dropped = 1)%nat /\
    (List.length (processingTimes this) < 500 -> dropped = [])%nat.
Proof.
  unfold recordProcessingTime, trim, MAX_PROCESSING_TIMES. cbn [processingTimes].
  rewrite length_app. cbn [List.length].
  destruct (500 <? Z.of_nat (List.length (processingTimes this) + 1)) eqn:Hlt.
  - apply Z.ltb_lt in Hlt.
    destruct (processingTimes this) as [|oldest rest]; [cbn in Hlt; lia|].
    exists [oldest], rest. cbn [app List.tl List.length] in *.
    split; [reflexivity|]. split; [reflexivity|]. split; [reflexivity | lia].
  - apply Z.ltb_ge in Hlt. exists [], (processingTimes this). cbn [app].
    split; [reflexivity|]. split; [reflexivity|]. split; [lia | reflexivity].
Qed.

(** X7.  [recordProcessingTime] keeps the history first in, first out:
    the new history is the kept old records, in their order, followed by
    the record just given; at most the single oldest record is dropped,
    and that happens exactly when the history already held 500 records
    or more. *)
Theorem recordProcessingTime_fifo (record : ProcessingTimeRecord) (this : Tracker) :
  exists dropped kept,
    processingTimes this = dropped ++ kept /\
    processingTimes (recordProcessingTime record this) = kept ++ [record] /\
    (500 <= List.length (processingTimes this) -> List.length dropped = 1)%nat /\
    (List.length (processingTimes this) < 500 -> dropped = [])%nat.
Proof. apply recordProcessingTime_kept. Qed.

Lemma trim_map {A B} (f : A -> B) (max : Z) (l : list A) :
  List.map f (trim max l) = trim max (List.map f l).
Proof.
  unfold trim. rewrite length_map.
  destruct (max <? Z.of_nat (List.length l)); [|reflexivity].
  destruct l; reflexivity.
Qed.

Lemma trim_apart (gap max bound : Z) (times : list Z) :
  Laws.apart gap times /\ Forall (fun t => t <= bound) times ->
  Laws.apart gap (trim max times) /\ Forall (fun t => t <= bound) (trim max times).
Proof.
  unfold trim, Laws.apart. intros [Hs Hall].
  destruct (max <? Z.of_nat (List.length times)); [|auto].
  destruct times as [|t rest]; [auto|]. cbn [List.tl].
  apply StronglySorted_inv in Hs as [Hs _]. apply Forall_inv_tail in Hall. auto.
Qed.

Lemma samples_apart_call (c : Laws.TrackerCall) (this : Tracker) :
  Laws.apart SAMPLE_INTERVAL_MS (List.map Queue.timestamp (queueHistory this)) /\
  Forall (fun t => t <= lastSampleTime this)
    (List.map Queue.timestamp (queueHistory this)) ->
  Laws.apart SAMPLE_INTERVAL_MS
    (List.map Queue.timestamp (queueHistory (Laws.call c this))) /\
  Forall (fun t => t <= lastSampleTime (Laws.call c this))
    (List.map Queue.timestamp (queueHistory (Laws.call c this))).
Proof.
  intros [Hs Hall]. destruct c as [queueDepth activeSessions now|record|]; cbn [Laws.call].
  - unfold recordQueueSample.
    destruct (now - lastSampleTime this <? SAMPLE_INTERVAL_MS) eqn:Hlt; [auto|].
    apply Z.ltb_ge in Hlt. cbn [queueHistory lastSampleTime].
    rewrite trim_map, map_app. cbn [List.map Queue.timestamp].
    apply trim_apart. split.
    + apply StronglySorted_app. split; [|split; [exact Hs | repeat constructor]].
      intros t u Ht Hu. apply list_elem_of_In in Ht.
      apply list_elem_of_In in Hu. destruct Hu as [<-|[]].
      rewrite List.Forall_forall in Hall. specialize (Hall t Ht). cbn in Hall. lia.
    + apply Forall_app. split; [|repeat constructor; lia].
      eapply List.Forall_impl; [|exact Hall]. cbn. intros t Ht.
      unfold SAMPLE_INTERVAL_MS in Hlt. lia.
  - cbn [recordProcessingTime queueHistory lastSampleTime]. auto.
  - cbn. split; constructor.
Qed.

(** X8.  Whatever is recorded, every queue sample a tracker holds was
    taken at least 5 seconds after every older sample it holds, and none
    is later than [lastSampleTime]; a sample offered less than 5 seconds
    after the last accepted one changes nothing. *)
Theorem queue_samples_apart (calls : list Laws.TrackerCall) :
  let this := Laws.after calls new_Tracker in
  Laws.apart 5000 (List.map Queue.timestamp (queueHistory this)) /\
  Forall (fun p => Queue.timestamp p <= lastSampleTime this) (queueHistory this) /\
  forall queueDepth activeSessions now,
    now - lastSampleTime this < 5000 ->
    recordQueueSample queueDepth activeSessions now this = this.
Proof.
  cbv zeta.
  assert (H : forall this,
             Laws.apart SAMPLE_INTERVAL_MS
               (List.map Queue.timestamp (queueHistory this)) /\
             Forall (fun t => t <= lastSampleTime this)
               (List.map Queue.timestamp (queueHistory this)) ->
             Laws.apart SAMPLE_INTERVAL_MS
               (List.map Queue.timestamp (queueHistory (Laws.after calls this))) /\
             Forall (fun t => t <= lastSampleTime (Laws.after calls this))
               (List.map Queue.timestamp (queueHistory (Laws.after calls this)))).
  { unfold Laws.after. induction calls as [|c rest IH]; intros this Hb; [exact Hb|].
    cbn [List.fold_left]. apply IH, samples_apart_call, Hb. }
  destruct (H new_Tracker) as [Hs Hall]; [split; constructor|].
  split; [exact Hs|]. split.
  - rewrite List.Forall_map in Hall. exact Hall.
  - intros queueDepth activeSessions now Hlt. unfold recordQueueSample, SAMPLE_INTERVAL_MS.
    rewrite (proj2 (Z.ltb_lt _ _) Hlt). reflexivity.
Qed.
End TrackerFacts.

(** ** The queries of the tracker *)

Section TrackerQueries.
Import JS PerformanceTracker.
Context {host : Host}.

Lemma fold_max_spec (l : list Z) (d : Z) :
  d <= List.fold_left Z.max l d /\
  (forall x, In x l -> x <= List.fold_left Z.max l d) /\
  (List.fold_left Z.max l d = d \/ In (List.fold_left Z.max l d) l).
Proof.
  revert d. induction l as [|x rest IH]; intros d; cbn [List.fold_left].
  - split; [lia|]. split; [intros x []|]. left. reflexivity.
  - destruct (IH (Z.max d x)) as (H1 & H2 & H3). split; [lia|]. split.
    + intros y [<-|Hy]; [lia | apply H2, Hy].
    + destruct H3 as [H3|H3]; [|right; right; exact H3].
      rewrite H3. destruct (Z.max_spec d x) as [[_ ->]|[_ ->]]; [right; left|left];
        reflexivity.
Qed.

Lemma slice_from_end_suffix {A} (limit : Z) (l : list A) :
  exists older, l = older ++ slice_from_end limit l.
Proof.
  unfold slice_from_end. eexists. symmetry. apply firstn_skipn.
Qed.

Lemma slice_from_end_limit {A} (limit : Z) (l : list A) :
  0 < limit -> Z.of_nat (List.length (slice_from_end limit l)) <= limit.
Proof.
  intros Hpos. unfold slice_from_end. rewrite length_skipn.
  rewrite (proj2 (Z.ltb_lt (- limit) 0)) by lia. lia.
Qed.

(** X9.  [getQueueHistory] returns the most recent points among those not
    older than the start of the window (the parsed [since], or one hour
    before now): a suffix of the matching points in their order, of at
    most [limit] points for a positive [limit] (100 by default).  Its
    [peakQueueDepth] is the largest depth among the returned points and is
    the depth of one of them; with no point returned both statistics are
    zero. *)
Theorem getQueueHistory_window (since : option string) (limit : option Z) (now : Z)
  (this : Tracker) :
  let response := getQueueHistory since limit now this in
  let sinceEpoch := or_number (parseSince now since) (now - 3600000) in
  let peak := Queue.peakQueueDepth (Queue.stats response) in
  (exists older,
      List.filter (fun p => sinceEpoch <=? Queue.timestamp p) (queueHistory this) =
      older ++ Queue.history response) /\
  (forall p, In p (Queue.history response) ->
     In p (queueHistory this) /\ sinceEpoch <= Queue.timestamp p /\
     Queue.queueDepth p <= peak) /\
  (Queue.history response <> [] ->
   exists p, In p (Queue.history response) /\ Queue.queueDepth p = peak) /\
  (Queue.history response = [] ->
   peak = 0 /\ Queue.avgQueueDepth (Queue.stats response) = double 0) /\
  (forall n, limit = Some n -> 0 < n ->
     Z.of_nat (List.length (Queue.history response)) <= n) /\
  (limit = None -> Z.of_nat (List.length (Queue.history response)) <= 100).
Proof.
  cbv zeta. unfold getQueueHistory. cbv zeta.
  cbn [Queue.history Queue.stats Queue.peakQueueDepth Queue.avgQueueDepth].
  change (now - 60 * 60 * 1000) with (now - 3600000).
  set (sinceEpoch := or_number (parseSince now since) (now - 3600000)).
  set (matching := List.filter (fun p => sinceEpoch <=? Queue.timestamp p)
                     (queueHistory this)).
  set (lim := match limit with Some n => n | None => default_limit end).
  set (filtered := slice_from_end lim matching).
  destruct (slice_from_end_suffix lim matching) as [older Holder].
  fold filtered in Holder.
  assert (Hin : forall p, In p filtered ->
                  In p (queueHistory this) /\ sinceEpoch <= Queue.timestamp p).
  { intros p Hp.
    assert (Hm : In p matching) by (rewrite Holder; apply in_or_app; right; exact Hp).
    apply filter_In in Hm as [Hq Ht]. split; [exact Hq | lia]. }
  split; [exists older; exact Holder|].
  split; [|split; [|split; [|split]]].
  - intros p Hp. destruct (Hin p Hp) as [Hq Ht]. split; [exact Hq|]. split; [exact Ht|].
    destruct filtered as [|first rest]; [destruct Hp|]. cbn [List.map].
    destruct (fold_max_spec (List.map Queue.queueDepth rest) (Queue.queueDepth first))
      as (H1 & H2 & _).
    destruct Hp as [<-|Hp]; [exact H1|]. apply H2, in_map, Hp.
  - intros Hne. destruct filtered as [|first rest]; [congruence|]. cbn [List.map].
    destruct (fold_max_spec (List.map Queue.queueDepth rest) (Queue.queueDepth first))
      as (_ & _ & [H3|H3]).
    + exists first. split; [left; reflexivity | symmetry; exact H3].
    + apply in_map_iff in H3 as [p [Hp Hrest]]. exists p. split; [right; exact Hrest | exact Hp].
  - intros ->. split; reflexivity.
  - intros n -> Hpos. subst filtered lim. apply slice_from_end_limit, Hpos.
  - intros ->. subst filtered lim. apply slice_from_end_limit. reflexivity.
Qed.
End TrackerQueries.

(** ** What the percentiles say *)

Section PercentileMeaning.
Import JS PerformanceTracker.
Context {host : Host}.

Lemma sorted_count_le (l : list Z) (k : nat) :
  StronglySorted Z.le l -> (k < List.length l)%nat ->
  (k + 1 <= List.length (List.filter (fun d => (d <=? List.nth k l 0)%Z) l))%nat.
Proof.
  intros Hs. revert k. induction Hs as [|x rest Hs IH Hall]; intros k Hk; [cbn in Hk; lia|].
  destruct k as [|k]; cbn [List.nth List.filter].
  - rewrite Z.leb_refl. cbn. lia.
  - cbn [List.length] in Hk.
    assert (Hx : x <= List.nth k rest 0).
    { rewrite List.Forall_forall in Hall. apply Hall, nth_In. lia. }
    rewrite (proj2 (Z.leb_le _ _) Hx). cbn [List.length].
    specialize (IH k ltac:(lia)). lia.
Qed.

Lemma sorted_nth_le (l : list Z) (i j : nat) :
  StronglySorted Z.le l -> (i <= j)%nat -> (j < List.length l)%nat ->
  List.nth i l 0 <= List.nth j l 0.
Proof.
  intros Hs. revert i j. induction Hs as [|x rest Hs IH Hall]; intros i j Hij Hj;
    [cbn in Hj; lia|].
  destruct i as [|i], j as [|j]; cbn [List.nth List.length] in *; try lia.
  - rewrite List.Forall_forall in Hall. apply Hall, nth_In. lia.
  - apply IH; lia.
Qed.

Lemma filter_length_perm (f : Z -> bool) (l1 l2 : list Z) :
  Permutation l1 l2 ->
  List.length (List.filter f l1) = List.length (List.filter f l2).
Proof.
  intros Hp. induction Hp as [|x l1 l2 _ IH|x y l|l1 l2 l3 _ IH1 _ IH2]; cbn.
  - reflexivity.
  - destruct (f x); cbn; lia.
  - destruct (f x), (f y); reflexivity.
  - lia.
Qed.

Lemma nearest_rank_covers (p : Z) (n : nat) :
  0 <= p -> p * Z.of_nat n <= 100 * (Spec.nearest_rank p n + 1).
Proof.
  intros Hp. rewrite nearest_rank_div.
  pose proof (Z.div_mod (- (p * Z.of_nat n)) 100 ltac:(lia)) as Hdiv.
  pose proof (Z.mod_pos_bound (- (p * Z.of_nat n)) 100 ltac:(lia)) as Hmod.
  lia.
Qed.

Lemma nearest_rank_mono (p q : Z) (n : nat) :
  0 <= p <= q -> Spec.nearest_rank p n <= Spec.nearest_rank q n.
Proof.
  intros Hpq. rewrite !nearest_rank_div.
  assert (- (q * Z.of_nat n) / 100 <= - (p * Z.of_nat n) / 100)
    by (apply Z.div_le_mono; nia).
  lia.
Qed.

(** The response of [getProcessingTimes], field by field. *)
Lemma getProcessingTimes_shape (since : option string) (limit : option Z)
  (now now_queue : Z) (this : Tracker) :
  exists filtered avg p50 p95 perMinute,
    getProcessingTimes since limit now now_queue this =
    {| times := filtered;
       stats :=
         {| avgProcessingTime := avg;
            p50ProcessingTime := p50;
            p95ProcessingTime := p95;
            avgQueueDepth :=
              Queue.avgQueueDepth
                (Queue.stats (getQueueHistory since None now_queue this));
            peakQueueDepth :=
              Queue.peakQueueDepth
                (Queue.stats (getQueueHistory since None now_queue this));
            observationsPerMinute := perMinute |} |} /\
    filtered =
      slice_from_end (match limit with Some n => n | None => default_limit end)
        (List.filter
           (fun p => or_number (parseSince now since) (now - 24 * 60 * 60 * 1000)
                     <=? timestamp p)
           (processingTimes this)) /\
    (filtered = [] -> avg = 0 /\ p50 = 0 /\ p95 = 0 /\ perMinute = double 0) /\
    (filtered <> [] ->
     p50 = percentile (sort_numeric (List.map duration filtered)) 50 /\
     p95 = percentile (sort_numeric (List.map duration filtered)) 95).
Proof.
  unfold getProcessingTimes. cbv zeta.
  set (filtered := slice_from_end _ _).
  destruct filtered as [|first rest] eqn:Hf.
  - cbn. do 5 eexists. split; [reflexivity|]. split; [reflexivity|].
    split; [intros _; repeat split | intros H; congruence].
  - destruct (sort_numeric (List.map duration (first :: rest))) as [|d ds] eqn:Hd.
    + exfalso.
      pose proof (Permutation_length
                    (sort_numeric_perm (List.map duration (first :: rest)))) as Hl.
      rewrite Hd in Hl. discriminate.
    + do 5 eexists. split; [reflexivity|]. split; [reflexivity|].
      split; [discriminate | intros _; rewrite Hd; split; reflexivity].
Qed.

(** X10.  On a tracker within its bound, when some record passes the
    filter: [p50] and [p95] are durations of returned records,
    [p50 <= p95], at least half of the returned records have a duration
    of at most [p50], and at least 95 in 100 of them a duration of at most
    [p95]. *)
Theorem getProcessingTimes_percentile_meaning (since : option string) (limit : option Z)
  (now now_queue : Z) (this : Tracker) :
  Spec.bounded_history this ->
  let response := getProcessingTimes since limit now now_queue this in
  let samples := List.map duration (times response) in
  let p50 := p50ProcessingTime (stats response) in
  let p95 := p95ProcessingTime (stats response) in
  let at_most := fun v => Z.of_nat (List.length (List.filter (fun d => d <=? v) samples)) in
  times response <> [] ->
  In p50 samples /\ In p95 samples /\ p50 <= p95 /\
  50 * Z.of_nat (List.length samples) <= 100 * at_most p50 /\
  95 * Z.of_nat (List.length samples) <= 100 * at_most p95.
Proof.
  intros Hbound. cbv zeta.
  destruct (getProcessingTimes_shape since limit now now_queue this)
    as (filtered & avg & p50 & p95 & perMinute & Hresp & Hf & _ & Hsome).
  rewrite Hresp. cbn [times stats p50ProcessingTime p95ProcessingTime].
  intros Hne. destruct (Hsome Hne) as [H50 H95].
  set (samples := List.map duration filtered) in *.
  set (durations := sort_numeric samples) in *.
  assert (Hperm : Permutation durations samples) by apply sort_numeric_perm.
  assert (Hsorted : StronglySorted Z.le durations).
  { apply Sorted.Sorted_StronglySorted; [intros x y z; lia | apply sort_numeric_sorted]. }
  assert (Hlen : List.length durations = List.length samples)
    by (apply Permutation_length, Hperm).
  assert (Hsize : (List.length filtered <= List.length (processingTimes this))%nat).
  { rewrite Hf. etransitivity; [apply slice_from_end_length|].
    apply List.filter_length_le. }
  assert (Hn : (0 < List.length durations <= 500)%nat).
  { rewrite Hlen. subst samples. rewrite length_map.
    unfold Spec.bounded_history, MAX_PROCESSING_TIMES in Hbound.
    destruct filtered; [congruence | cbn [List.length] in *; lia]. }
  assert (Hdne : durations <> []) by (destruct durations; [cbn in Hn; lia | discriminate]).
  rewrite percentile_nearest_rank in H50, H95 by (auto || lia).
  pose proof (nearest_rank_range 50 (List.length durations) ltac:(lia) ltac:(lia)) as R50.
  pose proof (nearest_rank_range 95 (List.length durations) ltac:(lia) ltac:(lia)) as R95.
  pose proof (nearest_rank_mono 50 95 (List.length durations) ltac:(lia)) as Hmono.
  pose proof (nearest_rank_covers 50 (List.length durations) ltac:(lia)) as C50.
  pose proof (nearest_rank_covers 95 (List.length durations) ltac:(lia)) as C95.
  set (k50 := Z.to_nat (Spec.nearest_rank 50 (List.length durations))) in *.
  set (k95 := Z.to_nat (Spec.nearest_rank 95 (List.length durations))) in *.
  assert (Hk50 : (k50 < List.length durations)%nat) by lia.
  assert (Hk95 : (k95 < List.length durations)%nat) by lia.
  split; [rewrite H50; eapply Permutation_in; [exact Hperm | apply nth_In, Hk50]|].
  split; [rewrite H95; eapply Permutation_in; [exact Hperm | apply nth_In, Hk95]|].
  split; [rewrite H50, H95; apply sorted_nth_le; [exact Hsorted | lia | exact Hk95]|].
  rewrite <- !(filter_length_perm _ _ _ Hperm), <- Hlen, H50, H95.
  pose proof (sorted_count_le durations k50 Hsorted Hk50).
  pose proof (sorted_count_le durations k95 Hsorted Hk95).
  split; lia.
Qed.
End PercentileMeaning.

Lemma getProcessingTimes_percentile_meaning_witness :
  let response :=
    PerformanceTracker.getProcessingTimes (host := Examples.plain_host)
      None None 6000 6000 Examples.five_samples in
  let samples := List.map PerformanceTracker.duration (PerformanceTracker.times response) in
  let p50 := PerformanceTracker.p50ProcessingTime (PerformanceTracker.stats response) in
  Spec.bounded_history Examples.five_samples /\
  PerformanceTracker.times response <> [] /\
  50 * Z.of_nat (List.length samples) <=
  100 * Z.of_nat (List.length (List.filter (fun d => d <=? p50) samples)).
Proof.
  intros response samples p50.
  assert (H : Spec.bounded_history Examples.five_samples) by (vm_compute; discriminate).
  assert (Hne : PerformanceTracker.times response <> []) by (vm_compute; discriminate).
  split; [exact H|]. split; [exact Hne|].
  exact (proj1 (proj2 (proj2 (proj2
           (getProcessingTimes_percentile_meaning (host := Examples.plain_host)
              None None 6000 6000 Examples.five_samples H Hne))))).
Defined.

(** ** The current statistics, and clearing *)

Section TrackerWindow.
Import JS PerformanceTracker.
Context {host : Host}.

Lemma one_hour (now fallback : Z) :
  now <> 3600000 ->
  or_number (parseSince now (Some "1h")) fallback = now - 3600000.
Proof.
  intros Hnow.
  assert (Hparse : parseSince now (Some "1h") = Some (now - 3600000)).
  { change (parseSince now (Some "1h")) with
      (TokenMetricsService.parseSince now (Some (str (["1"%char] ++ ["h"%char])))).
    rewrite parseSince_digits by (discriminate || reflexivity).
    match goal with
    | |- Some (now - ?x) = _ => let v := eval vm_compute in x in change x with v
    end.
    reflexivity. }
  rewrite Hparse. unfold or_number, truthy_number.
  destruct (now - 3600000 =? 0) eqn:Hz; [apply Z.eqb_eq in Hz; lia | reflexivity].
Qed.

Lemma filter_skipn_filter {A} (f : A -> bool) (k : nat) (l : list A) :
  List.filter f (List.skipn k (List.filter f l)) = List.skipn k (List.filter f l).
Proof.
  apply forallb_filter_id. apply forallb_forall. intros x Hx.
  assert (Hin : In x (List.filter f l)).
  { rewrite <- (firstn_skipn k (List.filter f l)). apply in_or_app. right. exact Hx. }
  apply filter_In in Hin. apply Hin.
Qed.

Lemma slice_from_end_idem {A} (limit : Z) (l : list A) :
  0 < limit -> slice_from_end limit (slice_from_end limit l) = slice_from_end limit l.
Proof.
  intros Hpos. pose proof (slice_from_end_limit limit l Hpos) as Hlen.
  unfold slice_from_end at 1.
  rewrite (proj2 (Z.ltb_lt (- limit) 0)) by lia.
  replace (Z.to_nat (Z.max (Z.of_nat (List.length (slice_from_end limit l)) + - limit) 0))
    with 0%nat by lia.
  reflexivity.
Qed.

(** X11.  [getCurrentStats] looks at the processing records of the last
    hour only, and among them at the 100 most recent: a tracker that
    holds just those records gives the same statistics.  When no record
    is that recent, the four processing figures are zero. *)
Theorem getCurrentStats_last_hour (now now_queue : Z) (this : Tracker) :
  now <> 3600000 ->
  getCurrentStats now now_queue this =
    getCurrentStats now now_queue
      {| queueHistory := queueHistory this;
         processingTimes := Laws.last_hour now this;
         lastSampleTime := lastSampleTime this |} /\
  (Laws.last_hour now this = [] ->
   avgProcessingTime (getCurrentStats now now_queue this) = 0 /\
   p50ProcessingTime (getCurrentStats now now_queue this) = 0 /\
   p95ProcessingTime (getCurrentStats now now_queue this) = 0 /\
   observationsPerMinute (getCurrentStats now now_queue this) = double 0).
Proof.
  intros Hnow. split.
  - unfold getCurrentStats, getProcessingTimes, getQueueHistory. cbv zeta.
    cbn [processingTimes queueHistory]. rewrite !one_hour by assumption.
    unfold Laws.last_hour, default_limit.
    set (recent := slice_from_end 100 (List.filter _ (processingTimes this))).
    assert (Hsame : slice_from_end 100
                      (List.filter (fun p => now - 3600000 <=? timestamp p) recent) =
                    recent).
    { subst recent. unfold slice_from_end at 2. rewrite filter_skipn_filter.
      fold (slice_from_end 100
              (List.filter (fun p => now - 3600000 <=? timestamp p)
                 (processingTimes this))).
      apply slice_from_end_idem. lia. }
    rewrite Hsame. reflexivity.
  - intros Hnone. unfold getCurrentStats.
    destruct (getProcessingTimes_shape (Some "1h") None now now_queue this)
      as (filtered & avg & p50 & p95 & perMinute & Hresp & Hf & Hempty & _).
    rewrite Hresp. cbn [stats avgProcessingTime p50ProcessingTime p95ProcessingTime
                         observationsPerMinute].
    apply Hempty. rewrite Hf, one_hour by assumption. exact Hnone.
Qed.
End TrackerWindow.

Lemma getCurrentStats_last_hour_witness :
  6000 <> 3600000 /\
  PerformanceTracker.getCurrentStats (host := Examples.plain_host) 6000 6000
    Examples.five_samples =
  PerformanceTracker.getCurrentStats (host := Examples.plain_host) 6000 6000
    {| PerformanceTracker.queueHistory :=
         PerformanceTracker.queueHistory Examples.five_samples;
       PerformanceTracker.processingTimes := Laws.last_hour 6000 Examples.five_samples;
       PerformanceTracker.lastSampleTime :=
         PerformanceTracker.lastSampleTime Examples.five_samples |}.
Proof.
  assert (H : 6000 <> 3600000) by lia.
  split; [exact H|].
  exact (proj1 (getCurrentStats_last_hour (host := Examples.plain_host) 6000 6000
                  Examples.five_samples H)).
Defined.

Section TrackerClear.
Import JS PerformanceTracker.
Context {host : Host}.

(** X12.  After [clear], every query answers as on a new tracker: no
    point, no record, and statistics that are all zero, whatever window
    and limit are asked for.  [clear] does not reset the time of the last
    sample: a sample offered less than 5 seconds after the last one
    accepted before the clearing is still dropped. *)
Theorem clear_empties (since : option string) (limit : option Z) (now now_queue : Z)
  (this : Tracker) :
  getQueueHistory since limit now (clear this) =
    {| Queue.history := [];
       Queue.stats := {| Queue.avgQueueDepth := double 0; Queue.peakQueueDepth := 0 |} |} /\
  getProcessingTimes since limit now now_queue (clear this) =
    {| times := [];
       stats :=
         {| avgProcessingTime := 0;
            p50ProcessingTime := 0;
            p95ProcessingTime := 0;
            avgQueueDepth := double 0;
            peakQueueDepth := 0;
            observationsPerMinute := double 0 |} |} /\
  lastSampleTime (clear this) = lastSampleTime this /\
  forall queueDepth activeSessions t,
    t - lastSampleTime this < 5000 ->
    recordQueueSample queueDepth activeSessions t (clear this) = clear this.
Proof.
  assert (Hslice : forall A (n : Z), slice_from_end n (@nil A) = []).
  { intros A n. unfold slice_from_end. apply skipn_nil. }
  split; [|split; [|split]].
  - unfold getQueueHistory, clear. cbn [queueHistory List.filter]. cbv zeta.
    rewrite Hslice. reflexivity.
  - unfold getProcessingTimes, getQueueHistory, clear.
    cbn [queueHistory processingTimes List.filter]. cbv zeta.
    rewrite !Hslice. reflexivity.
  - reflexivity.
  - intros queueDepth activeSessions t Hlt. unfold recordQueueSample, SAMPLE_INTERVAL_MS.
    cbn [clear lastSampleTime]. rewrite (proj2 (Z.ltb_lt _ _) Hlt). reflexivity.
Qed.
End TrackerClear.

(** ** Recording a processed reply *)

Section Recording.
Import JS PerformanceTracker.
Context {host : Host}.

Lemma recordQueueSample_processingTimes (queueDepth activeSessions now : Z)
  (this : Tracker) :
  processingTimes (recordQueueSample queueDepth activeSessions now this) =
  processingTimes this.
Proof.
  unfold recordQueueSample.
  destruct (now - lastSampleTime this <? SAMPLE_INTERVAL_MS); reflexivity.
Qed.

Lemma slice_from_end_snoc {A} (limit : Z) (l : list A) (x : A) :
  0 < limit -> exists earlier, slice_from_end limit (l ++ [x]) = earlier ++ [x].
Proof.
  intros Hpos. unfold slice_from_end.
  rewrite (proj2 (Z.ltb_lt (- limit) 0)) by lia.
  rewrite length_app. cbn [List.length].
  set (k := Z.to_nat (Z.max (Z.of_nat (List.length l + 1) + - limit) 0)).
  assert (Hk : (k <= List.length l)%nat) by lia.
  exists (List.skipn k l). rewrite skipn_app.
  replace (k - List.length l)%nat with 0%nat by lia. reflexivity.
Qed.

(** X13.  [recordObservationProcessed] puts the record of the reply at the
    end of the processing history, whether or not the queue sample that
    goes with it is accepted, and keeps the history within its bound.
    From then on the record is the newest one that [getProcessingTimes]
    returns, for every positive limit and every window that starts no
    later than the time of the record. *)
Theorem recordObservationProcessed_recorded (toolName : string)
  (durationMs discoveryTokens observationCount : Z)
  (now queueDepth activeSessions now_sample : Z) (tracker : Tracker)
  (since : option string) (limit : option Z) (asked asked_queue : Z) :
  let record :=
    {| timestamp := now;
       duration := durationMs;
       toolName := toolName;
       discoveryTokens := discoveryTokens;
       observationCount := observationCount |} in
  let tracker' :=
    WorkerService.recordObservationProcessed toolName durationMs discoveryTokens
      observationCount now queueDepth activeSessions now_sample tracker in
  (exists kept, processingTimes tracker' = kept ++ [record]) /\
  (Spec.bounded_history tracker -> Spec.bounded_history tracker') /\
  (or_number (parseSince asked since) (asked - 86400000) <= now ->
   0 < match limit with Some k => k | None => 100 end ->
   exists earlier,
     times (getProcessingTimes since limit asked asked_queue tracker') =
     earlier ++ [record]).
Proof.
  intros record tracker'.
  assert (Hkept : exists kept, processingTimes tracker' = kept ++ [record]).
  { subst tracker'. unfold WorkerService.recordObservationProcessed.
    rewrite recordQueueSample_processingTimes.
    destruct (recordProcessingTime_kept record tracker) as (dropped & kept & _ & H & _).
    exists kept. exact H. }
  split; [exact Hkept|]. split.
  - intros Hb. subst tracker'. unfold WorkerService.recordObservationProcessed.
    apply recordQueueSample_bounded, recordProcessingTime_bounded, Hb.
  - intros Hwindow Hlimit. destruct Hkept as [kept Hkept].
    destruct (getProcessingTimes_shape since limit asked asked_queue tracker')
      as (filtered & avg & p50 & p95 & perMinute & Hresp & Hf & _).
    rewrite Hresp. cbn [times]. rewrite Hf, Hkept, List.filter_app.
    change (asked - 24 * 60 * 60 * 1000) with (asked - 86400000).
    cbn [List.filter timestamp record].
    rewrite (proj2 (Z.leb_le _ _) Hwindow).
    apply slice_from_end_snoc. exact Hlimit.
Qed.
End Recording.

(** ** Texts and their parts *)

Section StringFacts.
Import JS.

Ltac append_step :=
  repeat match goal with
         | |- context [String ?x ?a +:+ ?b] =>
             change (String x a +:+ b) with (String x (a +:+ b))
         | |- context [EmptyString +:+ ?b] => change (EmptyString +:+ b) with b
         end.

Lemma append_assoc (a b c : string) : (a +:+ b) +:+ c = a +:+ b +:+ c.
Proof.
  induction a as [|x a IH]; append_step; [reflexivity|].
  rewrite IH. reflexivity.
Qed.

Lemma append_empty_r (a : string) : a +:+ EmptyString = a.
Proof.
  induction a as [|x a IH]; append_step; [reflexivity|].
  rewrite IH. reflexivity.
Qed.

Lemma append_length (a b : string) :
  String.length (a +:+ b) = (String.length a + String.length b)%nat.
Proof.
  induction a as [|x a IH]; append_step; [reflexivity|].
  cbn [String.length]. rewrite IH. reflexivity.
Qed.

Lemma str_app (a b : list ascii) : str (a ++ b) = str a +:+ str b.
Proof.
  unfold str. induction a as [|x a IH]; [reflexivity|].
  cbn [app string_of_list_ascii]. append_step. rewrite IH. reflexivity.
Qed.

Lemma str_chars (s : string) : str (chars s) = s.
Proof. apply string_of_list_ascii_of_string. Qed.

Lemma part_of_refl (s : string) : Laws.part_of s s.
Proof. exists EmptyString, EmptyString. rewrite append_empty_r. reflexivity. Qed.

Lemma part_of_trans (a b c : string) :
  Laws.part_of a b -> Laws.part_of b c -> Laws.part_of a c.
Proof.
  intros (p1 & q1 & ->) (p2 & q2 & ->).
  exists (p2 +:+ p1), (q1 +:+ q2). rewrite !append_assoc. reflexivity.
Qed.

Lemma trimStart_suffix (l : list ascii) : exists spaces, l = spaces ++ trimStart_chars l.
Proof.
  induction l as [|c r [spaces IH]]; [exists []; reflexivity|].
  cbn [trimStart_chars]. destruct (is_whitespace c).
  - exists (c :: spaces). cbn [app]. rewrite <- IH. reflexivity.
  - exists []. reflexivity.
Qed.

Lemma trimEnd_prefix (l : list ascii) : exists spaces, l = trimEnd_chars l ++ spaces.
Proof.
  unfold trimEnd_chars. destruct (trimStart_suffix (List.rev l)) as [spaces H].
  exists (List.rev spaces). rewrite <- rev_app_distr, <- H, rev_involutive. reflexivity.
Qed.

Lemma trim_part_of (s : string) : Laws.part_of (trim s) s.
Proof.
  unfold trim. destruct (trimStart_suffix (chars s)) as [leading Hl].
  destruct (trimEnd_prefix (trimStart_chars (chars s))) as [trailing Ht].
  exists (str leading), (str trailing).
  rewrite <- !str_app, <- Ht, <- Hl. symmetry. apply str_chars.
Qed.

(** The standard [substring]: a part of the text, at the asked position
    and of the asked length when the text is long enough. *)
Lemma substring_part (n m : nat) (s : string) :
  (n + m <= String.length s)%nat ->
  exists before after,
    s = before +:+ String.substring n m s +:+ after /\
    String.length before = n /\
    String.length (String.substring n m s) = m.
Proof.
  revert n m. induction s as [|c s IH]; intros n m Hlen.
  - cbn [String.length] in Hlen. assert (n = 0%nat) by lia. assert (m = 0%nat) by lia.
    subst. exists EmptyString, EmptyString. repeat split.
  - destruct n as [|n].
    + destruct m as [|m].
      * exists EmptyString, (String c s). repeat split.
      * cbn [String.length] in Hlen.
        destruct (IH 0%nat m ltac:(lia)) as (before & after & Hs & Hb & Hm).
        destruct before; [|discriminate].
        exists EmptyString, after. cbn [String.substring String.length].
        split; [|split; [reflexivity | f_equal; exact Hm]].
        append_step. f_equal. exact Hs.
    + cbn [String.length] in Hlen.
      destruct (IH n m ltac:(lia)) as (before & after & Hs & Hb & Hm).
      exists (String c before), after. cbn [String.substring String.length].
      split; [|split; [f_equal; exact Hb | exact Hm]].
      append_step. f_equal. exact Hs.
Qed.

(** What [indexOf] finds: no occurrence, or the first one. *)
Lemma indexOf_from_spec (s sub : string) (position : Z) :
  (indexOf_from s sub position = -1 /\ includes s sub = false) \/
  (exists before after,
     s = before +:+ sub +:+ after /\
     indexOf_from s sub position = position + Z.of_nat (String.length before) /\
     includes s sub = true).
Proof.
  revert position. induction s as [|c s IH]; intros position.
  - cbn [indexOf_from includes]. destruct (String.prefix sub EmptyString) eqn:Hp.
    + right. apply prefix_spec in Hp as [after Hp].
      exists EmptyString, after. cbn [String.length].
      split; [exact Hp|]. split; [lia | reflexivity].
    + left. split; reflexivity.
  - cbn [indexOf_from includes]. destruct (String.prefix sub (String c s)) eqn:Hp.
    + right. apply prefix_spec in Hp as [after Hp].
      exists EmptyString, after. cbn [String.length].
      split; [exact Hp|]. split; [lia | reflexivity].
    + cbn [orb].
      destruct (IH (position + 1)) as [(H1 & H2) | (before & after & Hs & Hi & Hinc)].
      * left. split; assumption.
      * right. exists (String c before), after. cbn [String.length].
        split; [append_step; f_equal; exact Hs|]. split; [lia | exact Hinc].
Qed.

Lemma indexOf_spec (s sub : string) :
  (indexOf s sub = -1 /\ includes s sub = false) \/
  (exists before after,
     s = before +:+ sub +:+ after /\
     indexOf s sub = Z.of_nat (String.length before) /\
     includes s sub = true).
Proof.
  unfold indexOf.
  destruct (indexOf_from_spec s sub 0)
    as [(H1 & H2) | (before & after & Hs & Hi & Hinc)].
  - left. split; assumption.
  - right. exists before, after. split; [exact Hs|]. split; [lia | exact Hinc].
Qed.
End StringFacts.

(** ** The instruction sections *)

Section InstructionFacts.
Import JS WorkerService.

Lemma substring_between (s : string) (a b : nat) :
  (a <= String.length s)%nat -> (b <= String.length s)%nat ->
  exists before between after,
    s = before +:+ between +:+ after /\
    String.length before = Nat.min a b /\
    (String.length before + String.length between)%nat = Nat.max a b /\
    substring s (Z.of_nat a) (Some (Z.of_nat b)) = between.
Proof.
  intros Ha Hb. unfold substring. cbv zeta.
  set (from := Z.min (Z.min (Z.max (Z.of_nat a) 0) (Z.of_nat (String.length s)))
                 (Z.min (Z.max (Z.of_nat b) 0) (Z.of_nat (String.length s)))).
  set (to := Z.max (Z.min (Z.max (Z.of_nat a) 0) (Z.of_nat (String.length s)))
               (Z.min (Z.max (Z.of_nat b) 0) (Z.of_nat (String.length s)))).
  assert (Hfrom : Z.to_nat from = Nat.min a b) by lia.
  assert (Hto : Z.to_nat (to - from) = (Nat.max a b - Nat.min a b)%nat) by lia.
  rewrite Hfrom, Hto.
  destruct (substring_part (Nat.min a b) (Nat.max a b - Nat.min a b) s ltac:(lia))
    as (before & after & Hs & Hlen & Hsub).
  exists before, (String.substring (Nat.min a b) (Nat.max a b - Nat.min a b) s), after.
  split; [exact Hs|]. split; [exact Hlen|]. split; [lia | reflexivity].
Qed.

Lemma substring_from (s : string) (a : nat) :
  (a <= String.length s)%nat ->
  exists before,
    s = before +:+ substring s (Z.of_nat a) None /\ String.length before = a.
Proof.
  intros Ha. unfold substring. cbv zeta.
  set (from := Z.min (Z.min (Z.max (Z.of_nat a) 0) (Z.of_nat (String.length s)))
                 (Z.of_nat (String.length s))).
  set (to := Z.max (Z.min (Z.max (Z.of_nat a) 0) (Z.of_nat (String.length s)))
               (Z.of_nat (String.length s))).
  assert (Hfrom : Z.to_nat from = a) by lia.
  assert (Hto : Z.to_nat (to - from) = (String.length s - a)%nat) by lia.
  rewrite Hfrom, Hto.
  destruct (substring_part a (String.length s - a) s ltac:(lia))
    as (before & after & Hs & Hlen & Hsub).
  exists before. split; [|exact Hlen].
  assert (Hafter : after = EmptyString).
  { apply (f_equal String.length) in Hs. rewrite !append_length, Hlen, Hsub in Hs.
    destruct after; [reflexivity | cbn [String.length] in Hs; lia]. }
  rewrite Hafter, append_empty_r in Hs. exact Hs.
Qed.

Lemma append_split (a b a' b' : string) :
  a +:+ b = a' +:+ b' -> String.length a = String.length a' -> a = a' /\ b = b'.
Proof.
  revert a'. induction a as [|x a IH]; intros [|x' a'] H Hlen;
    try discriminate Hlen.
  - split; [reflexivity | exact H].
  - injection H as -> H. injection Hlen as Hlen.
    destruct (IH a' H Hlen) as [-> ->]. split; reflexivity.
Qed.

Lemma occurrence_bound (s before sub after : string) :
  s = before +:+ sub +:+ after -> (String.length before <= String.length s)%nat.
Proof. intros ->. rewrite append_length. lia. Qed.

Lemma extractBetween_cases (content startMarker endMarker : string) :
  let result := extractBetween content startMarker endMarker in
  Laws.part_of result content /\
  (includes content startMarker = false -> result = content) /\
  (includes content startMarker = true -> includes content endMarker = false ->
   exists before,
     content = before +:+ result /\
     Z.of_nat (String.length before) = indexOf content startMarker /\
     startsWith result startMarker = true) /\
  (includes content startMarker = true -> includes content endMarker = true ->
   exists before between after,
     content = before +:+ between +:+ after /\
     Z.of_nat (String.length before) =
       Z.min (indexOf content startMarker) (indexOf content endMarker) /\
     Z.of_nat (String.length before + String.length between) =
       Z.max (indexOf content startMarker) (indexOf content endMarker) /\
     result = trim between).
Proof.
  cbv zeta. unfold extractBetween.
  destruct (indexOf_spec content startMarker)
    as [(Hs & Hsi) | (bs & as_ & Hsc & Hs & Hsi)].
  - rewrite Hs. cbn [Z.eqb]. split; [apply part_of_refl|]. split; [reflexivity|].
    split; intros H; congruence.
  - assert (Hsb := occurrence_bound _ _ _ _ Hsc).
    rewrite Hs. rewrite (proj2 (Z.eqb_neq _ (-1))) by lia.
    destruct (indexOf_spec content endMarker)
      as [(He & Hei) | (be & ae & Hec & He & Hei)].
    + rewrite He. cbn [Z.eqb].
      destruct (substring_from content (String.length bs) Hsb) as (before & Hc & Hlen).
      split; [exists before, EmptyString; rewrite append_empty_r; exact Hc|].
      split; [intros H; congruence|]. split; [|intros _ H; congruence].
      intros _ _. exists before. split; [exact Hc|]. split; [lia|].
      rewrite Hsc in Hc at 1.
      destruct (append_split _ _ _ _ Hc (eq_sym Hlen)) as [_ Hrest].
      unfold startsWith. apply prefix_spec. exists as_. symmetry. exact Hrest.
    + assert (Heb := occurrence_bound _ _ _ _ Hec).
      rewrite He. rewrite (proj2 (Z.eqb_neq _ (-1))) by lia.
      destruct (substring_between content (String.length bs) (String.length be) Hsb Heb)
        as (before & between & after & Hc & Hlen & Hlen2 & Hsub).
      rewrite Hsub. split.
      * eapply part_of_trans; [apply trim_part_of|]. exists before, after. exact Hc.
      * split; [intros H; congruence|]. split; [intros _ H; congruence|].
        intros _ _. exists before, between, after.
        split; [exact Hc|]. split; [lia|]. split; [lia | reflexivity].
Qed.

(** X14.  [extractBetween] always returns a part of the content.  When
    the start marker does not occur it returns the content itself; when
    only the start marker occurs, the content from the first occurrence of
    the start marker on; when both occur, the trimmed text that lies
    between the first occurrence of one marker and the first occurrence of
    the other, from whichever of the two positions is the smaller (if the
    end marker comes first, the text from the end marker up to the start
    marker). *)
Theorem extractBetween_parts (content startMarker endMarker : string) :
  let result := extractBetween content startMarker endMarker in
  Laws.part_of result content /\
  (includes content startMarker = false -> result = content) /\
  (includes content startMarker = true -> includes content endMarker = false ->
   exists before,
     content = before +:+ result /\
     Z.of_nat (String.length before) = indexOf content startMarker /\
     startsWith result startMarker = true) /\
  (includes content startMarker = true -> includes content endMarker = true ->
   exists before between after,
     content = before +:+ between +:+ after /\
     Z.of_nat (String.length before) =
       Z.min (indexOf content startMarker) (indexOf content endMarker) /\
     Z.of_nat (String.length before + String.length between) =
       Z.max (indexOf content startMarker) (indexOf content endMarker) /\
     result = trim between).
Proof. apply extractBetween_cases. Qed.

(** X15.  [extractInstructionSection] gives, for every topic that is not
    the name of a property that objects inherit, a text that is a part of
    the content, and that is empty only when the content is empty: an
    empty section falls back to the whole content, and so does a topic
    other than [workflow], [search_params] and [examples].  For a topic
    such as [constructor] or [toString] it gives the inherited property,
    which is not a text. *)
Theorem extractInstructionSection_result (content topic : string) :
  match extractInstructionSection content topic with
  | SectionText text =>
      Laws.part_of text content /\
      (text = EmptyString -> content = EmptyString) /\
      (~ In topic ["workflow"; "search_params"; "examples"] -> text = content)
  | Inherited name => name = topic /\ In topic Object_prototype_names
  end /\
  (In topic Object_prototype_names ->
   extractInstructionSection content topic = Inherited topic).
Proof.
  assert (Hor : forall text, Laws.part_of text content ->
                  Laws.part_of (or_string (Some text) content) content /\
                  (or_string (Some text) content = EmptyString -> content = EmptyString)).
  { intros [|c text] Hpart; cbn [or_string truthy_string].
    - split; [apply part_of_refl | auto].
    - split; [exact Hpart | discriminate]. }
  split.
  - unfold extractInstructionSection, sections. cbn [own_property].
    change (String.eqb "all" "all") with true. cbv iota.
    destruct (String.eqb "workflow" topic) eqn:H1;
      [apply String.eqb_eq in H1; subst topic|];
      [destruct (Hor _ (proj1 (extractBetween_cases content "## The Workflow"
                                 "## Search Parameters"))) as [Ha Hb];
       split; [exact Ha|]; split; [exact Hb|]; intros Hn; exfalso; apply Hn; cbn; auto|].
    destruct (String.eqb "search_params" topic) eqn:H2;
      [apply String.eqb_eq in H2; subst topic|];
      [destruct (Hor _ (proj1 (extractBetween_cases content "## Search Parameters"
                                 "## Examples"))) as [Ha Hb];
       split; [exact Ha|]; split; [exact Hb|]; intros Hn; exfalso; apply Hn; cbn; auto|].
    destruct (String.eqb "examples" topic) eqn:H3;
      [apply String.eqb_eq in H3; subst topic|];
      [destruct (Hor _ (proj1 (extractBetween_cases content "## Examples"
                                 "## Why This Workflow"))) as [Ha Hb];
       split; [exact Ha|]; split; [exact Hb|]; intros Hn; exfalso; apply Hn; cbn; auto|].
    destruct (String.eqb "all" topic) eqn:H4.
    + destruct (Hor content (part_of_refl content)) as [Ha Hb].
      split; [exact Ha|]. split; [exact Hb|]. intros _.
      destruct content; reflexivity.
    + destruct (List.existsb (String.eqb topic) Object_prototype_names) eqn:Hp.
      * split; [reflexivity|]. apply existsb_exists in Hp as [name [Hin Heq]].
        apply String.eqb_eq in Heq. subst name. exact Hin.
      * split; [apply part_of_refl|]. split; [auto | reflexivity].
  - intros Hin. unfold Object_prototype_names in Hin. cbn [In] in Hin.
    repeat (destruct Hin as [<-|Hin]; [reflexivity|]). destruct Hin.
Qed.
End InstructionFacts.

(** ** Settling the pending messages *)

Section MarkFacts.
Import JS SDKAgent.

Variables ParsedObservation ParsedSummary Store : Type.
Variable parseObservations : string -> string -> list ParsedObservation.
Variable parseSummary : string -> Z -> option ParsedSummary.
Variable observation_type : ParsedObservation -> option string.
Variable storeObservation :
  Store -> string -> string -> ParsedObservation -> Z -> Z -> Completion (Store * (Z * Z)).
Variable storeSummary :
  Store -> string -> string -> ParsedSummary -> Z -> Z -> Completion (Store * (Z * Z)).

Local Abbreviation World := (World ParsedObservation ParsedSummary Store).
Local Abbreviation Effect := (Effect ParsedObservation ParsedSummary).
Local Abbreviation store_all :=
  (store_observations ParsedObservation ParsedSummary Store storeObservation).
Local Abbreviation mark := (markMessagesProcessed ParsedObservation ParsedSummary Store).
Local Abbreviation process :=
  (processSDKResponse ParsedObservation ParsedSummary Store parseObservations parseSummary
     observation_type storeObservation storeSummary).
Local Abbreviation handle :=
  (on_message ParsedObservation ParsedSummary Store parseObservations parseSummary
     observation_type storeObservation storeSummary).
Local Abbreviation no_mark := (fun e : Effect => Laws.is_mark e = false).
Local Abbreviation all_marks := (fun e : Effect => Laws.is_mark e = true).

Lemma emit_effects (es : list Effect) (w : World) :
  effects _ _ _ (emit _ _ _ es w) = effects _ _ _ w ++ es.
Proof. reflexivity. Qed.

Lemma store_observations_no_marks (session : ActiveSession) (worker : option WorkerHandle)
  (d : Z) (observations : list ParsedObservation) :
  forall w : World,
  exists new,
    effects _ _ _ (snd (store_all session worker d observations w)) =
      effects _ _ _ w ++ new /\
    Forall no_mark new.
Proof.
  induction observations as [|obs rest IH]; intros w; cbn [store_observations].
  - exists []. rewrite app_nil_r. split; [reflexivity | constructor].
  - destruct (storeObservation _ _ _ _ _ _) as [[store' [obsId createdAtEpoch]]|e].
    + match goal with
      | |- context [store_observations _ _ _ _ _ _ _ rest ?w1] =>
          destruct (IH w1) as (new & Hnew & Hall);
          assert (Hw1 : exists mine,
                     effects _ _ _ w1 = effects _ _ _ w ++ mine /\ Forall no_mark mine)
      end.
      { destruct (with_sse worker); rewrite !emit_effects; cbn [effects];
          eexists; rewrite <- ?app_assoc; (split; [reflexivity|]);
          repeat constructor. }
      destruct Hw1 as (mine & Hmine & Hno).
      exists (mine ++ new). rewrite Hnew, Hmine, app_assoc.
      split; [reflexivity | apply Forall_app; split; assumption].
    + exists []. cbn. rewrite app_nil_r. split; [reflexivity | constructor].
Qed.

Lemma omap_marked_ids (ids : list Z) :
  omap Laws.marked (List.map (MarkProcessed ParsedObservation ParsedSummary) ids) = ids.
Proof. induction ids as [|i ids IH]; cbn; [reflexivity | f_equal; exact IH]. Qed.

Lemma markMessagesProcessed_marks (session : ActiveSession)
  (worker : option WorkerHandle) (w : World) :
  exists marks,
    effects _ _ _ (snd (mark session worker w)) = effects _ _ _ w ++ marks /\
    Forall all_marks marks /\
    omap Laws.marked marks = pendingProcessingIds session /\
    omap Laws.cleanup marks =
      match pendingProcessingIds session with
      | [] => []
      | _ :: _ => [100]
      end /\
    pendingProcessingIds (fst (mark session worker w)) = [] /\
    store _ _ _ (snd (mark session worker w)) = store _ _ _ w.
Proof.
  unfold markMessagesProcessed.
  assert (Hcleanup : forall ids : list Z,
             omap Laws.cleanup
               (List.map (MarkProcessed ParsedObservation ParsedSummary) ids) = []).
  { induction ids as [|i ids IH]; [reflexivity | exact IH]. }
  assert (Hall : forall ids : list Z,
             Forall all_marks
               (List.map (MarkProcessed ParsedObservation ParsedSummary) ids)).
  { induction ids as [|i ids IH]; constructor; [reflexivity | exact IH]. }
  destruct (pendingProcessingIds session) as [|i rest] eqn:Hpending;
    (destruct worker as [h|]; [destruct (has_broadcastProcessingStatus h)|]);
    rewrite ?emit_effects; cbn [fst snd effects store emit pendingProcessingIds
                                 clear_pendingProcessingIds];
    eexists; rewrite <- ?app_assoc;
    (split; [reflexivity || (symmetry; apply app_nil_r) |]);
    rewrite ?omap_app, ?omap_marked_ids, ?Hcleanup, ?Hpending;
    repeat split; cbn; rewrite ?omap_marked_ids, ?Hcleanup, ?app_nil_r;
    try reflexivity; try assumption;
    repeat constructor;
    try (apply List.Forall_app; split; [apply Hall | repeat constructor]).
Qed.
Lemma processSDKResponse_marks (session : ActiveSession) (text : string)
  (worker : option WorkerHandle) (d processingStart finished : Z) (w : World) :
  exists earlier marks,
    effects _ _ _ (snd (process session text worker d processingStart finished w)) =
      effects _ _ _ w ++ earlier ++ marks /\
    Forall no_mark earlier /\
    match fst (fst (process session text worker d processingStart finished w)) with
    | Normal _ =>
        Forall all_marks marks /\
        omap Laws.marked marks = pendingProcessingIds session /\
        omap Laws.cleanup marks =
          match pendingProcessingIds session with
          | [] => []
          | _ :: _ => [100]
          end /\
        pendingProcessingIds
          (snd (fst (process session text worker d processingStart finished w))) = []
    | Throw _ =>
        marks = [] /\
        snd (fst (process session text worker d processingStart finished w)) = session
    end.
Proof.
  unfold processSDKResponse.
  destruct (store_observations_no_marks session worker d
              (parseObservations text (claudeSessionId session)) w)
    as (new & Hnew & Hno).
  destruct (store_all session worker d _ w) as [[[]|e] w1]; cbn [fst snd] in *.
  2: { exists new, []. rewrite app_nil_r. cbn. auto. }
  match goal with
  | |- context [storeSummary (store _ _ _ ?w2)] =>
      assert (H2 : exists middle,
                 effects _ _ _ w2 = effects _ _ _ w1 ++ middle /\ Forall no_mark middle);
      [|generalize dependent w2]
  end.
  { destruct worker; destruct (parseObservations text (claudeSessionId session));
      rewrite ?emit_effects; eexists;
      (split; [reflexivity || (symmetry; apply app_nil_r) | repeat constructor]). }
  intros w2 (middle & Hmiddle & Hnom).
  assert (Hmark : forall (w3 : World) (summ : list Effect),
             effects _ _ _ w3 = effects _ _ _ w2 ++ summ -> Forall no_mark summ ->
             exists earlier marks,
               effects _ _ _ (snd (let '(session, w) := mark session worker w3 in
                                   (@Normal unit tt, session, w))) =
                 effects _ _ _ w ++ earlier ++ marks /\
               Forall no_mark earlier /\
               Forall all_marks marks /\
               omap Laws.marked marks = pendingProcessingIds session /\
               omap Laws.cleanup marks =
                 match pendingProcessingIds session with
                 | [] => []
                 | _ :: _ => [100]
                 end /\
               pendingProcessingIds
                 (snd (fst (let '(session, w) := mark session worker w3 in
                            (@Normal unit tt, session, w)))) = []).
  { intros w3 summ Hsumm Hnos.
    destruct (markMessagesProcessed_marks session worker w3)
      as (marks & Hmarks & Hall & Hids & Hclean & Hpending & _).
    destruct (mark session worker w3) as [session' w']. cbn [fst snd] in *.
    exists (new ++ middle ++ summ), marks.
    rewrite Hmarks, Hsumm, Hmiddle, Hnew, <- !app_assoc.
    split; [reflexivity|]. split; [|auto].
    repeat (apply List.Forall_app; split); assumption. }
  destruct (parseSummary text (sessionDbId session)) as [summary|].
  - destruct (storeSummary _ _ _ _ _ _) as [[store' [summaryId createdAtEpoch]]|e].
    + match goal with
      | |- context [mark session worker ?w3] =>
          destruct (Hmark w3
                      (([StoredSummary _ _ (claudeSessionId session) (project session)
                           summary (lastPromptNumber session) d summaryId createdAtEpoch;
                         SyncSummary _ _ summaryId summary (lastPromptNumber session)
                           createdAtEpoch d] : list Effect) ++
                       (if with_sse worker
                        then [SseNewSummary _ _ summaryId summary
                                (lastPromptNumber session) createdAtEpoch]
                        else [])))
            as (earlier & marks & H)
      end.
      { destruct (with_sse worker); rewrite ?emit_effects; cbn [effects];
          rewrite <- ?app_assoc, ?app_nil_r; reflexivity. }
      { destruct (with_sse worker); repeat constructor. }
      exists earlier, marks. destruct H as (H1 & H2' & H3).
      match goal with
      | |- context [mark session worker ?w3] =>
          destruct (mark session worker w3) as [session' w']
      end.
      cbn [fst snd] in *. auto.
    + exists (new ++ middle), []. cbn [fst snd].
      rewrite Hmiddle, Hnew, app_nil_r, <- app_assoc.
      split; [reflexivity|]. split; [apply List.Forall_app; split; assumption | auto].
  - destruct (Hmark w2 []) as (earlier & marks & H).
    { rewrite app_nil_r. reflexivity. }
    { constructor. }
    exists earlier, marks. destruct H as (H1 & H2' & H3).
    destruct (mark session worker w2) as [session' w'].
    cbn [fst snd] in *. auto.
Qed.

Lemma track_usage_pending (usage : option Usage) (session : ActiveSession) :
  pendingProcessingIds (track_usage usage session) = pendingProcessingIds session.
Proof.
  unfold track_usage. destruct usage as [u|]; [|reflexivity].
  destruct (truthy_number (cache_creation_input_tokens u)); reflexivity.
Qed.

(** X16.  How an assistant reply settles the pending messages.  The calls
    the agent makes for the reply are first the storing ones, none of which
    marks a message, and then the settling ones.  When the reply is handled
    to the end, every message that was pending is marked processed exactly
    once, in the order of the pending set, the clean-up keeping 100 rows
    runs once if there was a pending message, and the pending set is
    empty afterwards.  When a store call throws, no message is marked and
    the pending set is as before.  A reply without text makes no storing
    call at all and is handled to the end. *)
Theorem on_message_settles_pending (content : Content) (usage : option Usage)
  (worker : option WorkerHandle) (processingStart finished : Z)
  (session : ActiveSession) (w : World) :
  let outcome := handle (Assistant content usage) worker processingStart finished session w in
  exists earlier marks,
    effects _ _ _ (snd outcome) = effects _ _ _ w ++ earlier ++ marks /\
    Forall (fun e => Laws.is_mark e = false) earlier /\
    match fst (fst outcome) with
    | Normal _ =>
        Forall (fun e => Laws.is_mark e = true) marks /\
        omap Laws.marked marks = pendingProcessingIds session /\
        omap Laws.cleanup marks =
          match pendingProcessingIds session with
          | [] => []
          | _ :: _ => [100]
          end /\
        pendingProcessingIds (snd (fst outcome)) = []
    | Throw _ =>
        marks = [] /\
        pendingProcessingIds (snd (fst outcome)) = pendingProcessingIds session
    end /\
    (textContent content = EmptyString -> fst (fst outcome) = Normal tt /\ earlier = []).
Proof.
  cbv zeta. unfold on_message. cbv zeta.
  destruct (0 <? Z.of_nat (String.length (textContent content))) eqn:Hsize.
  - destruct (processSDKResponse_marks (track_usage usage session) (textContent content)
                worker
                (cumulativeInputTokens (track_usage usage session) +
                 cumulativeOutputTokens (track_usage usage session) -
                 (cumulativeInputTokens session + cumulativeOutputTokens session))
                processingStart finished w)
      as (earlier & marks & Heff & Hno & Hcase).
    exists earlier, marks. split; [exact Heff|]. split; [exact Hno|]. split.
    + destruct (fst (fst (process _ _ _ _ _ _ _))).
      * rewrite track_usage_pending in Hcase. exact Hcase.
      * destruct Hcase as [Hm Hs]. split; [exact Hm|].
        rewrite Hs. apply track_usage_pending.
    + intros Hempty. rewrite Hempty in Hsize. discriminate.
  - destruct (markMessagesProcessed_marks (track_usage usage session) worker w)
      as (marks & Hmarks & Hall & Hids & Hclean & Hpending & _).
    destruct (mark (track_usage usage session) worker w) as [session' w'].
    cbn [fst snd] in *. exists [], marks. cbn [app].
    rewrite track_usage_pending in Hids, Hclean.
    split; [exact Hmarks|]. split; [constructor|]. split; auto.
Qed.
End MarkFacts.

(** ** The frames of the generator *)

Section GeneratorFrames.
Import JS SDKAgent.

Lemma set_lastPromptNumber_same (session : ActiveSession) :
  set_lastPromptNumber (lastPromptNumber session) session = session.
Proof. destruct session; reflexivity. Qed.

Lemma generator_step_session (session : ActiveSession) (message : PendingMessage) :
  fst (generator_step session message) =
  set_lastPromptNumber
    (match Spec.carried message with
     | Some k => k
     | None => lastPromptNumber session
     end) session.
Proof.
  unfold generator_step, Spec.carried.
  destruct (type message); cbn [fst];
    [destruct (prompt_number message); [reflexivity|]|];
    symmetry; apply set_lastPromptNumber_same.
Qed.

Lemma generator_step_frame (n : Z) (session : ActiveSession) (message : PendingMessage) :
  snd (generator_step (set_lastPromptNumber n session) message) =
  snd (generator_step session message).
Proof.
  unfold generator_step. destruct (type message); [|reflexivity].
  destruct (prompt_number message); reflexivity.
Qed.

Lemma pump_frames (messages : list PendingMessage) (n : Z) (session : ActiveSession) :
  List.map frame (fst (pump (set_lastPromptNumber n session) messages)) =
    List.map (fun message => snd (generator_step session message)) messages /\
  snd (pump (set_lastPromptNumber n session) messages) =
    set_lastPromptNumber (Laws.last_carried n messages) session.
Proof.
  revert n. induction messages as [|message rest IH]; intros n.
  - split; reflexivity.
  - cbn [pump]. 
    pose proof (generator_step_session (set_lastPromptNumber n session) message) as Hs.
    pose proof (generator_step_frame n session message) as Hf.
    destruct (generator_step (set_lastPromptNumber n session) message) as [session1 f].
    cbn [fst snd] in Hs, Hf. subst session1 f.
    change (set_lastPromptNumber ?k (set_lastPromptNumber n session)) with
      (set_lastPromptNumber k session).
    cbn [lastPromptNumber set_lastPromptNumber].
    match goal with
    | |- context [pump (set_lastPromptNumber ?k session) rest] =>
        destruct (IH k) as [IH1 IH2];
        destruct (pump (set_lastPromptNumber k session) rest) as [yields final]
    end.
    cbn [fst snd List.map frame] in *. split; [f_equal; exact IH1 | exact IH2].
Qed.

(** X17.  The frames that [createMessageGenerator] yields for a queue of
    messages: the first prompt (the initial one exactly when the session
    is at prompt 1), then one frame for every queued message, in the order
    of the queue, the same frames whatever prompt numbers the messages
    carry.  When the queue is exhausted, the session differs from the one
    at the start in [lastPromptNumber] only, which is the number carried by
    the last observation that carried one. *)
Theorem createMessageGenerator_frames (session : ActiveSession)
  (messages : list PendingMessage) :
  let yields := fst (createMessageGenerator session messages) in
  let final := snd (createMessageGenerator session messages) in
  List.map frame yields =
    first_frame session ::
    List.map (fun message => snd (generator_step session message)) messages /\
  List.length yields = S (List.length messages) /\
  (first_frame session =
     InitPrompt (project session) (claudeSessionId session) (userPrompt session) <->
   lastPromptNumber session = 1) /\
  final =
    set_lastPromptNumber (Laws.last_carried (lastPromptNumber session) messages) session.
Proof.
  cbv zeta. unfold createMessageGenerator.
  destruct (pump_frames messages (lastPromptNumber session) session) as [Hframes Hfinal].
  rewrite set_lastPromptNumber_same in Hframes, Hfinal.
  destruct (pump session messages) as [yields final]. cbn [fst snd List.map frame] in *.
  split; [f_equal; exact Hframes|]. split.
  - apply (f_equal (@List.length Frame)) in Hframes. rewrite !length_map in Hframes.
    cbn [List.length]. f_equal. exact Hframes.
  - split; [|exact Hfinal]. unfold first_frame.
    destruct (Z.eqb_spec (lastPromptNumber session) 1) as [Heq|Hne].
    + split; auto.
    + split; [discriminate | contradiction].
Qed.
End GeneratorFrames.

(** ** The live push and the cache *)

Section StalePush.
Import JS WorkerService.
Context {host : Host}.
Variable SSEBroadcaster : Type.
Variable broadcast : SSEBroadcaster -> SSEEvent -> Completion SSEBroadcaster.

Local Abbreviation Worker := (Worker SSEBroadcaster).
Local Abbreviation push := (broadcastTokenUpdate SSEBroadcaster broadcast).

(** The state a push leaves when it passes the throttle, finds the
    service and no fresh summary, and the store answers. *)
Lemma push_computes (now : Z) (db : SessionStore.Database) (this : Worker)
  (service : TokenMetricsService.Service) :
  tokenMetricsService _ this = Some service ->
  1000 <= now - lastTokenBroadcast _ this ->
  TokenMetricsService.getCached (TokenMetricsService.summary_cacheKey None None)
    TokenMetricsService.CACHE_TTL_MS now service = None ->
  SessionStore.closed db = false ->
  let r :=
    TokenMetricsService.summarize
      (List.map TokenMetricsService.select_summary_columns (SessionStore.observations db)) in
  lastTokenBroadcast _ (snd (push now db this)) = now /\
  tokenMetricsService _ (snd (push now db this)) =
    Some (TokenMetricsService.setCache (TokenMetricsService.summary_cacheKey None None)
            (TokenMetricsService.SummaryData r) now service) /\
  broadcasts _ (snd (push now db this)) = broadcasts _ this ++ [(now, token_update r)].
Proof.
  intros Hservice Hpass Hmiss Hopen r.
  unfold broadcastTokenUpdate. rewrite (proj2 (Z.ltb_ge _ _) Hpass).
  cbn [set_lastTokenBroadcast tokenMetricsService]. rewrite Hservice.
  unfold service_getSummary. rewrite getSummary_miss by assumption.
  unfold SessionStore.all. rewrite Hopen.
  assert (Hall : List.filter
                   (fun o => TokenMetricsService.project_condition None o &&
                             TokenMetricsService.since_condition
                               (TokenMetricsService.parseSince now None) o)
                   (SessionStore.observations db) = SessionStore.observations db).
  { apply forallb_filter_id. apply forallb_forall. reflexivity. }
  rewrite Hall. fold r. unfold sse_broadcast, try_catch, set_tokenMetricsService.
  cbn [lastTokenBroadcast tokenMetricsService sseBroadcaster broadcasts warnings].
  destruct (broadcast _ _); cbn; repeat split; reflexivity.
Qed.

(** X18.  The live push can repeat a summary that is up to 30 seconds
    old.  When a push computes the summary [r] (the service is there, no
    fresh summary is cached, the store answers), every push that passes
    the throttle less than 30 seconds later emits [r] again, whatever the
    store holds by then, even when it is closed: [getSummary] serves the
    cached record and nothing invalidates it. *)
Theorem token_update_repeats_cached (now now' : Z) (db db' : SessionStore.Database)
  (this : Worker) (service : TokenMetricsService.Service) :
  tokenMetricsService _ this = Some service ->
  1000 <= now - lastTokenBroadcast _ this ->
  TokenMetricsService.getCached (TokenMetricsService.summary_cacheKey None None)
    TokenMetricsService.CACHE_TTL_MS now service = None ->
  SessionStore.closed db = false ->
  1000 <= now' - now < 30000 ->
  let r :=
    TokenMetricsService.summarize
      (List.map TokenMetricsService.select_summary_columns (SessionStore.observations db)) in
  broadcasts _ (snd (push now' db' (snd (push now db this)))) =
  broadcasts _ this ++ [(now, token_update r); (now', token_update r)].
Proof.
  intros Hservice Hpass Hmiss Hopen Hlater r.
  destruct (push_computes now db this service Hservice Hpass Hmiss Hopen)
    as (Hlast & Hsvc & Hsent).
  fold r in Hsvc, Hsent.
  set (this1 := snd (push now db this)) in *.
  unfold broadcastTokenUpdate. rewrite Hlast.
  rewrite (proj2 (Z.ltb_ge (now' - now) 1000)) by lia.
  cbn [set_lastTokenBroadcast tokenMetricsService]. rewrite Hsvc.
  unfold service_getSummary, TokenMetricsService.getSummary.
  rewrite getCached_setCache. unfold TokenMetricsService.CACHE_TTL_MS.
  rewrite (proj2 (Z.ltb_lt (now' - now) 30000)) by lia.
  cbn [TokenMetricsService.as_TokenSummary].
  unfold sse_broadcast, try_catch, set_tokenMetricsService, set_lastTokenBroadcast.
  cbn [lastTokenBroadcast tokenMetricsService sseBroadcaster broadcasts warnings].
  rewrite Hsent.
  destruct (broadcast _ _); cbn; rewrite <- app_assoc; reflexivity.
Qed.
End StalePush.

Lemma token_update_repeats_cached_witness :
  let db := Examples.open_db [Examples.scenario1] in
  let this := Examples.ready_worker in
  let r :=
    TokenMetricsService.summarize (host := Examples.plain_host)
      (List.map TokenMetricsService.select_summary_columns (SessionStore.observations db)) in
  WorkerService.broadcasts _
    (snd (WorkerService.broadcastTokenUpdate (host := Examples.plain_host) _
            Examples.keep_frames 1700000005000 Examples.closed_db
            (snd (WorkerService.broadcastTokenUpdate (host := Examples.plain_host) _
                    Examples.keep_frames 1700000000000 db this)))) =
  [(1700000000000, WorkerService.token_update r);
   (1700000005000, WorkerService.token_update r)].
Proof.
  intros db this r.
  refine (token_update_repeats_cached (host := Examples.plain_host) _ Examples.keep_frames
            1700000000000 1700000005000 db Examples.closed_db this
            TokenMetricsService.new_Service eq_refl _ eq_refl eq_refl _).
  - vm_compute. discriminate.
  - lia.
Defined.

(** ** The time series *)

Section SeriesFacts.
Import JS TokenMetricsService.
Context {host : Host}.
Variables strftime_hour strftime_week date_of : Z -> string.

Lemma ltb_trans (a b c : string) :
  String.ltb a b = true -> String.ltb b c = true -> String.ltb a c = true.
Proof.
  unfold String.ltb. intros Hab Hbc.
  destruct (String.compare a b) eqn:Eab; try discriminate.
  destruct (String.compare b c) eqn:Ebc; try discriminate.
  apply OrderedTypeEx.String_as_OT.cmp_lt in Eab, Ebc.
  pose proof (OrderedTypeEx.String_as_OT.lt_trans _ _ _ Eab Ebc) as Hac.
  apply OrderedTypeEx.String_as_OT.cmp_lt in Hac.
  unfold OrderedTypeEx.String_as_OT.cmp in Hac. rewrite Hac. reflexivity.
Qed.

Lemma ltb_irrefl (a : string) : String.ltb a a = false.
Proof.
  unfold String.ltb.
  pose proof (proj2 (OrderedTypeEx.String_as_OT.cmp_eq a a) eq_refl) as Haa.
  unfold OrderedTypeEx.String_as_OT.cmp in Haa. rewrite Haa. reflexivity.
Qed.

Lemma ltb_total (a b : string) :
  String.eqb a b = false -> String.ltb a b = false -> String.ltb b a = true.
Proof.
  unfold String.ltb. intros Hne Hlt.
  rewrite String.compare_antisym.
  destruct (String.compare a b) eqn:Eab; try discriminate; [|reflexivity].
  apply String.compare_eq_iff in Eab. subst b.
  rewrite String.eqb_refl in Hne. discriminate.
Qed.

Lemma insert_date_In (d x : string) (dates : list string) :
  In x (insert_date d dates) <-> x = d \/ In x dates.
Proof.
  induction dates as [|y rest IH]; cbn [insert_date].
  - cbn. intuition.
  - destruct (String.eqb d y) eqn:Hdy.
    + apply String.eqb_eq in Hdy. subst y. cbn. intuition.
    + destruct (String.ltb d y); cbn [In]; [intuition|].
      rewrite IH. intuition.
Qed.

Lemma insert_date_ascending (d : string) (dates : list string) :
  Laws.ascending dates -> Laws.ascending (insert_date d dates).
Proof.
  unfold Laws.ascending.
  induction dates as [|y rest IH]; intros Hsorted; cbn [insert_date].
  - repeat constructor.
  - destruct (String.eqb d y) eqn:Hdy; [exact Hsorted|].
    apply StronglySorted_inv in Hsorted. destruct Hsorted as [Hrest Hy].
    destruct (String.ltb d y) eqn:Hlt.
    + constructor; [constructor; assumption|].
      constructor; [exact Hlt|].
      eapply List.Forall_impl; [|exact Hy].
      intros z Hz. exact (ltb_trans _ _ _ Hlt Hz).
    + constructor; [apply IH; exact Hrest|].
      apply List.Forall_forall. intros z Hz.
      apply insert_date_In in Hz. destruct Hz as [-> | Hz].
      * apply ltb_total; assumption.
      * rewrite List.Forall_forall in Hy. apply Hy. exact Hz.
Qed.

Lemma distinct_dates_In (x : string) (dates : list string) :
  In x (distinct_dates dates) <-> In x dates.
Proof.
  unfold distinct_dates.
  induction dates as [|d rest IH]; cbn [List.fold_right]; [reflexivity|].
  rewrite insert_date_In, IH. cbn. intuition.
Qed.

Lemma distinct_dates_ascending (dates : list string) :
  Laws.ascending (distinct_dates dates).
Proof.
  unfold distinct_dates.
  induction dates as [|d rest IH]; cbn [List.fold_right].
  - constructor.
  - apply insert_date_ascending. exact IH.
Qed.

Lemma ascending_NoDup (dates : list string) : Laws.ascending dates -> List.NoDup dates.
Proof.
  unfold Laws.ascending.
  induction 1 as [|d rest Hrest IH Hd]; constructor; [|exact IH].
  intros Hin. rewrite List.Forall_forall in Hd.
  specialize (Hd d Hin). rewrite ltb_irrefl in Hd. discriminate.
Qed.

Lemma sum_over_add {A} (f g : A -> Z) (l : list A) :
  Spec.sum_over (fun x => f x + g x) l = Spec.sum_over f l + Spec.sum_over g l.
Proof. induction l as [|x rest IH]; cbn [Spec.sum_over]; lia. Qed.

Lemma sum_over_app {A} (f : A -> Z) (l1 l2 : list A) :
  Spec.sum_over f (l1 ++ l2) = Spec.sum_over f l1 + Spec.sum_over f l2.
Proof. induction l1 as [|x rest IH]; cbn [Spec.sum_over List.app]; lia. Qed.

(** The one key equal to [k] among distinct keys counts [v] once. *)
Lemma sum_over_indicator (k : string) (v : Z) (keys : list string) :
  List.NoDup keys ->
  In k keys ->
  Spec.sum_over (fun d => if String.eqb k d then v else 0) keys = v.
Proof.
  assert (Hout : forall l, ~ In k l ->
            Spec.sum_over (fun d => if String.eqb k d then v else 0) l = 0).
  { induction l as [|d rest IH]; intros Hnot; cbn [Spec.sum_over]; [reflexivity|].
    rewrite IH by (intros Hin; apply Hnot; right; exact Hin).
    destruct (String.eqb k d) eqn:Hkd; [|reflexivity].
    apply String.eqb_eq in Hkd. subst d. exfalso. apply Hnot. left. reflexivity. }
  induction 1 as [|d rest Hd Hrest IH]; intros Hin; [destruct Hin|].
  cbn [Spec.sum_over]. destruct Hin as [-> | Hin].
  - rewrite String.eqb_refl, Hout by exact Hd. lia.
  - rewrite IH by exact Hin.
    destruct (String.eqb k d) eqn:Hkd; [|reflexivity].
    apply String.eqb_eq in Hkd. subst d. contradiction.
Qed.

(** Grouping by a key loses nothing and counts nothing twice: the sums
    over the groups of distinct keys that cover the rows add up to the
    sum over the rows. *)
Lemma sum_over_groups {A} (key : A -> string) (value : A -> Z) (keys : list string)
  (rows : list A) :
  List.NoDup keys ->
  (forall o, In o rows -> In (key o) keys) ->
  Spec.sum_over
    (fun d => Spec.sum_over value (List.filter (fun o => String.eqb (key o) d) rows)) keys =
  Spec.sum_over value rows.
Proof.
  intros Hdistinct. induction rows as [|o rest IH]; intros Hcover.
  - cbn [List.filter Spec.sum_over]. clear. induction keys; cbn [Spec.sum_over]; lia.
  - assert (Hsplit :
      Spec.sum_over
        (fun d =>
           Spec.sum_over value (List.filter (fun x => String.eqb (key x) d) (o :: rest)))
        keys =
      Spec.sum_over (fun d => if String.eqb (key o) d then value o else 0) keys +
      Spec.sum_over
        (fun d => Spec.sum_over value (List.filter (fun x => String.eqb (key x) d) rest))
        keys).
    { rewrite <- sum_over_add. apply sum_over_ext. intros d _.
      cbn [List.filter]. destruct (String.eqb (key o) d); cbn [Spec.sum_over]; lia. }
    rewrite Hsplit, IH by (intros x Hx; apply Hcover; right; exact Hx).
    rewrite sum_over_indicator by (try exact Hdistinct; apply Hcover; left; reflexivity).
    reflexivity.
Qed.
Lemma series_from_running (rows : list Series.Row) :
  forall a b earlier p later,
    series_from a b rows = earlier ++ p :: later ->
    Series.cumulativeRead p = a + Spec.sum_over Series.readTokens (earlier ++ [p]) /\
    Series.cumulativeDiscovery p =
      b + Spec.sum_over Series.discoveryTokens (earlier ++ [p]).
Proof.
  induction rows as [|row rest IH]; intros a b earlier p later Hsplit;
    cbn [series_from] in Hsplit.
  - destruct earlier; discriminate.
  - destruct earlier as [|e earlier].
    + cbn [List.app] in Hsplit. injection Hsplit as <- _.
      cbn [List.app Spec.sum_over Series.cumulativeRead Series.cumulativeDiscovery
           Series.readTokens Series.discoveryTokens]. lia.
    + cbn [List.app] in Hsplit. injection Hsplit as <- Hrest.
      destruct (IH _ _ _ _ _ Hrest) as [Hr Hd]. rewrite Hr, Hd.
      cbn [List.app Spec.sum_over Series.readTokens Series.discoveryTokens]. lia.
Qed.

Lemma series_from_sums (rows : list Series.Row) :
  forall a b,
    List.map Series.point_date (series_from a b rows) = List.map Series.date rows /\
    List.map Series.point_observations (series_from a b rows) =
      List.map Series.observations rows /\
    Spec.sum_over Series.readTokens (series_from a b rows) =
      Spec.sum_over (fun row => or0 (Series.read_tokens row)) rows /\
    Spec.sum_over Series.discoveryTokens (series_from a b rows) =
      Spec.sum_over (fun row => or0 (Series.discovery_tokens row)) rows.
Proof.
  induction rows as [|row rest IH]; intros a b; cbn [series_from List.map Spec.sum_over].
  - repeat split.
  - destruct (IH (a + or0 (Series.read_tokens row))
                (b + or0 (Series.discovery_tokens row))) as (Hd & Ho & Hr & Hv).
    cbn [Series.point_date Series.point_observations Series.readTokens
         Series.discoveryTokens].
    rewrite Hd, Ho, Hr, Hv. repeat split.
Qed.

Lemma time_series_dates (granularity : string) (matching : list SessionStore.Observation) :
  List.map Series.date
    (time_series_rows strftime_hour strftime_week date_of granularity matching) =
  distinct_dates
    (List.map (dateFormat strftime_hour strftime_week date_of granularity) matching).
Proof.
  unfold time_series_rows. rewrite List.map_map. cbn [Series.date]. apply List.map_id.
Qed.

Lemma length_sum_over {A} (l : list A) :
  Z.of_nat (List.length l) = Spec.sum_over (fun _ => 1) l.
Proof. induction l as [|x rest IH]; cbn [List.length Spec.sum_over]; lia. Qed.

(** The shape of a call of [getTimeSeries]. *)
Lemma getTimeSeries_cases (project since granularity : option string) (now : Z)
  (db : SessionStore.Database) (this : Service) :
  let since' := match since with Some s => s | None => "30d" end in
  let granularity' := match granularity with Some g => g | None => "day" end in
  let cacheKey := time_series_cacheKey project since' granularity' in
  let sinceEpoch :=
    number_or (parseSince now (Some since')) (now - 30 * 24 * 60 * 60 * 1000) in
  let matching :=
    List.filter
      (fun o => (sinceEpoch <=? SessionStore.created_at_epoch o) &&
                project_condition project o)
      (SessionStore.observations db) in
  getTimeSeries strftime_hour strftime_week date_of project since granularity now db this =
  match getCached cacheKey CACHE_TTL_MS now this with
  | Some _ => None
  | None =>
      Some
        (if SessionStore.closed db
         then (Throw "The database connection is not open", this)
         else (Normal
                 (series_from 0 0
                    (time_series_rows strftime_hour strftime_week date_of
                       granularity' matching),
                  granularity'),
               setCache cacheKey OtherData now this))
  end.
Proof.
  intros since' granularity' cacheKey sinceEpoch matching.
  unfold getTimeSeries. fold since' granularity' cacheKey.
  destruct (getCached cacheKey CACHE_TTL_MS now this); [reflexivity|].
  unfold SessionStore.all. destruct (SessionStore.closed db); reflexivity.
Qed.

(** X19.  A time series that [getTimeSeries] computes has one point for
    each date, the dates in strictly ascending order of their text, and
    its two cumulative columns are running totals: [cumulativeRead] of a
    point is the sum of [readTokens] up to and including it, and
    [cumulativeDiscovery] the sum of [discoveryTokens].  The call throws
    only when the store is closed, and then leaves the cache as it was;
    it computes nothing only when a fresh entry is cached. *)
Theorem getTimeSeries_running_totals (project since granularity : option string) (now : Z)
  (db : SessionStore.Database) (this : Service) :
  match getTimeSeries strftime_hour strftime_week date_of project since granularity
          now db this with
  | Some (Normal (series, _), _) =>
      SessionStore.closed db = false /\
      Laws.ascending (List.map Series.point_date series) /\
      List.NoDup (List.map Series.point_date series) /\
      Laws.running Series.readTokens Series.cumulativeRead series /\
      Laws.running Series.discoveryTokens Series.cumulativeDiscovery series
  | Some (Throw _, this') => SessionStore.closed db = true /\ this' = this
  | None =>
      getCached
        (time_series_cacheKey project
           (match since with Some s => s | None => "30d" end)
           (match granularity with Some g => g | None => "day" end))
        CACHE_TTL_MS now this <> None
  end.
Proof.
  rewrite getTimeSeries_cases.
  destruct (getCached _ CACHE_TTL_MS now this); [discriminate|].
  destruct (SessionStore.closed db); [split; reflexivity|].
  split; [reflexivity|].
  destruct (series_from_sums
              (time_series_rows strftime_hour strftime_week date_of
                 (match granularity with Some g => g | None => "day" end)
                 (List.filter
                    (fun o =>
                       (number_or
                          (parseSince now
                             (Some (match since with Some s => s | None => "30d" end)))
                          (now - 30 * 24 * 60 * 60 * 1000) <=?
                        SessionStore.created_at_epoch o) && project_condition project o)
                    (SessionStore.observations db))) 0 0) as (Hdates & _).
  rewrite Hdates, time_series_dates.
  split; [apply distinct_dates_ascending|].
  split; [apply ascending_NoDup, distinct_dates_ascending|].
  split; intros earlier p later Hsplit;
    destruct (series_from_running _ _ _ _ _ _ Hsplit) as [Hr Hd]; lia.
Qed.

(** X20.  The points of a computed time series account for every
    matching observation exactly once, whatever dates the database gives
    them.  The matching observations are those created at or after the
    start of the period (30 days before the call when [since] names no
    time) and, when a project is named, of that project.  The
    [observations] of the points add up to their number, the
    [discoveryTokens] to the sum of their discovery tokens and the
    [readTokens] to the sum of the truncated quarters of their text
    lengths; no point is without an observation; and the last point
    carries these two sums as its cumulative values. *)
Theorem getTimeSeries_conservation (project since granularity : option string) (now : Z)
  (db : SessionStore.Database) (this : Service) :
  let sinceEpoch :=
    number_or (parseSince now (Some (match since with Some s => s | None => "30d" end)))
      (now - 30 * 24 * 60 * 60 * 1000) in
  let matching :=
    List.filter
      (fun o => (sinceEpoch <=? SessionStore.created_at_epoch o) &&
                project_condition project o)
      (SessionStore.observations db) in
  let discovery := Spec.sum_over (fun o => or0 (SessionStore.discovery_tokens o)) matching in
  let read := Spec.sum_over sql_read_tokens matching in
  match getTimeSeries strftime_hour strftime_week date_of project since granularity
          now db this with
  | Some (Normal (series, step), _) =>
      step = match granularity with Some g => g | None => "day" end /\
      Spec.sum_over Series.point_observations series = Z.of_nat (List.length matching) /\
      Spec.sum_over Series.discoveryTokens series = discovery /\
      Spec.sum_over Series.readTokens series = read /\
      List.Forall (fun p => 0 < Series.point_observations p) series /\
      (forall earlier p,
         series = earlier ++ [p] ->
         Series.cumulativeDiscovery p = discovery /\ Series.cumulativeRead p = read)
  | _ => True
  end.
Proof.
  intros sinceEpoch matching discovery read.
  rewrite getTimeSeries_cases. fold sinceEpoch. fold matching.
  destruct (getCached _ CACHE_TTL_MS now this); [exact I|].
  destruct (SessionStore.closed db); [exact I|].
  set (step := match granularity with Some g => g | None => "day" end).
  set (key := dateFormat strftime_hour strftime_week date_of step).
  set (rows := time_series_rows strftime_hour strftime_week date_of step matching).
  destruct (series_from_sums rows 0 0) as (Hdates & Hobs & Hread & Hdisc).
  assert (Hdistinct : List.NoDup (distinct_dates (List.map key matching)))
    by apply ascending_NoDup, distinct_dates_ascending.
  assert (Hcover : forall o, In o matching ->
                     In (key o) (distinct_dates (List.map key matching))).
  { intros o Ho. apply distinct_dates_In. apply List.in_map. exact Ho. }
  assert (Hcount : Spec.sum_over Series.point_observations (series_from 0 0 rows) =
                   Z.of_nat (List.length matching)).
  { rewrite <- (sum_over_map id Series.point_observations), Hobs.
    rewrite (sum_over_map id). unfold rows, time_series_rows. fold key.
    rewrite sum_over_map. cbn [Series.observations id].
    rewrite (sum_over_ext _
               (fun d => Spec.sum_over (fun _ => 1)
                           (List.filter (fun o => String.eqb (key o) d) matching)))
      by (intros d _; apply length_sum_over).
    rewrite sum_over_groups by assumption. symmetry. apply length_sum_over. }
  assert (Hdiscovery : Spec.sum_over Series.discoveryTokens (series_from 0 0 rows) =
                       discovery).
  { rewrite Hdisc. unfold rows, time_series_rows. fold key.
    rewrite sum_over_map. cbn [Series.discovery_tokens].
    rewrite (sum_over_ext _
               (fun d => Spec.sum_over (fun o => or0 (SessionStore.discovery_tokens o))
                           (List.filter (fun o => String.eqb (key o) d) matching)))
      by (intros d _; rewrite or0_SUM, sum_over_map; reflexivity).
    apply sum_over_groups; assumption. }
  assert (Hreading : Spec.sum_over Series.readTokens (series_from 0 0 rows) = read).
  { rewrite Hread. unfold rows, time_series_rows. fold key.
    rewrite sum_over_map. cbn [Series.read_tokens].
    rewrite (sum_over_ext _
               (fun d => Spec.sum_over sql_read_tokens
                           (List.filter (fun o => String.eqb (key o) d) matching)))
      by (intros d _; rewrite or0_SUM, sum_over_map; reflexivity).
    apply sum_over_groups; assumption. }
  split; [reflexivity|].
  split; [exact Hcount|]. split; [exact Hdiscovery|]. split; [exact Hreading|].
  split.
  - apply List.Forall_forall. intros p Hp.
    apply (List.in_map Series.point_observations) in Hp. rewrite Hobs in Hp.
    unfold rows, time_series_rows in Hp. fold key in Hp.
    rewrite List.map_map in Hp. cbn [Series.observations] in Hp.
    apply List.in_map_iff in Hp. destruct Hp as (d & <- & Hd).
    apply (proj1 (distinct_dates_In _ _)) in Hd. apply List.in_map_iff in Hd.
    destruct Hd as (o & Hkey & Ho).
    assert (Hin : In o (List.filter (fun o => String.eqb (key o) d) matching)).
    { apply List.filter_In. split; [exact Ho|]. rewrite Hkey. apply String.eqb_refl. }
    destruct (List.filter _ matching); [destruct Hin|]. cbn [List.length]. lia.
  - intros earlier p Hlast.
    destruct (series_from_running _ _ _ _ _ _ Hlast) as [Hr Hd].
    rewrite <- Hlast in Hr, Hd. lia.
Qed.
End SeriesFacts.

(** ** The performance routes *)

Section RouteFacts.
Import JS PerformanceTracker TokenRoutes.
Context {host : Host}.

Lemma span_digits_all (ds : list ascii) :
  forallb is_digit ds = true -> span_digits ds = (ds, []).
Proof.
  induction ds as [|d ds IH]; intros Hall; cbn [span_digits]; [reflexivity|].
  cbn [forallb] in Hall. apply andb_prop in Hall as [Hd Hall].
  rewrite Hd, IH by exact Hall. reflexivity.
Qed.

Lemma parseInt_digits (ds : list ascii) :
  ds <> [] -> forallb is_digit ds = true ->
  parseInt (Some (str ds)) = Some (decimal_value ds) /\
  parseInt (Some (str ("-"%char :: ds))) = Some (- decimal_value ds).
Proof.
  intros Hne Hall. pose proof (span_digits_all ds Hall) as Hspan.
  unfold parseInt, chars, str. rewrite !list_ascii_of_string_of_list_ascii.
  destruct ds as [|d ds]; [contradiction|].
  cbn [forallb] in Hall. apply andb_prop in Hall as [Hd _].
  assert (Hplain : trimStart_chars (d :: ds) = d :: ds /\
                   d <> "-"%char /\ d <> "+"%char).
  { destruct d as [[] [] [] [] [] [] [] []]; try discriminate Hd;
      (split; [reflexivity | split; discriminate]). }
  destruct Hplain as (Htrim & Hminus & Hplus).
  split.
  - rewrite Htrim.
    assert (Hsign : (match d :: ds with
                     | "-"%char :: r => (-1, r)
                     | "+"%char :: r => (1, r)
                     | _ => (1, d :: ds)
                     end) = (1, d :: ds)).
    { destruct d as [[] [] [] [] [] [] [] []]; try reflexivity; congruence. }
    rewrite Hsign, Hspan. cbn [fst]. f_equal. lia.
  - cbn [trimStart_chars]. change (is_whitespace "-") with false. cbv iota.
    rewrite Hspan. cbn [fst]. f_equal.
Qed.

Lemma parseInt_pretty (n : N) :
  parseInt (Some (pretty n)) = Some (Z.of_N n) /\
  parseInt (Some ("-" +:+ pretty n)) = Some (- Z.of_N n).
Proof.
  destruct (pretty_N_digits n) as (Hall & Hval & Hne).
  destruct (parseInt_digits (chars (pretty n)) Hne Hall) as [Hp Hm].
  rewrite decimal_value_digits, Hval in Hp, Hm.
  rewrite str_chars in Hp. split; [exact Hp|].
  change ("-" +:+ pretty n) with (String "-" (pretty n)).
  rewrite <- (str_chars (pretty n)) at 1. exact Hm.
Qed.

Lemma slice_from_end_lastn {A} (limit : Z) (l : list A) :
  0 < limit -> slice_from_end limit l = Laws.lastn (Z.to_nat limit) l.
Proof.
  intros Hpos. unfold slice_from_end, Laws.lastn.
  rewrite (proj2 (Z.ltb_lt (- limit) 0)) by lia. f_equal. lia.
Qed.

Lemma slice_from_end_negative {A} (n : nat) (l : list A) :
  slice_from_end (- Z.of_nat n) l = List.skipn n l.
Proof.
  unfold slice_from_end.
  rewrite (proj2 (Z.ltb_ge (- - Z.of_nat n) 0)) by lia.
  destruct (Nat.le_gt_cases n (List.length l)) as [Hle | Hgt].
  - f_equal. lia.
  - rewrite (List.skipn_all2 (n := n)) by lia.
    apply List.skipn_all2. lia.
Qed.

(** The limit the two handlers hand to the tracker. *)
Lemma route_limit (n : N) :
  number_or (parseInt None) 100 = 100 /\
  number_or (parseInt (Some (pretty n))) 100 =
    (if (n =? 0)%N then 100 else Z.of_N n) /\
  number_or (parseInt (Some ("-" +:+ pretty n))) 100 =
    (if (n =? 0)%N then 100 else - Z.of_N n).
Proof.
  destruct (parseInt_pretty n) as [-> ->]. unfold number_or, truthy_number.
  split; [reflexivity|].
  destruct (N.eqb_spec n 0) as [-> | Hne]; [split; reflexivity|].
  rewrite (proj2 (Z.eqb_neq (Z.of_N n) 0)), (proj2 (Z.eqb_neq (- Z.of_N n) 0)) by lia.
  split; reflexivity.
Qed.

(** X21.  The two performance routes and their [limit] parameter.
    Without the parameter the answer holds the last 100 entries of the
    window.  With the decimal text of [n] it holds the last [n], but the
    last 100 when [n] is zero, since a zero limit is replaced by the
    default.  With a minus sign before a nonzero [n] the answer is not
    bounded by [n]: it holds the window without its first [n] entries.
    The window of the queue route starts at the parsed [since], one hour
    before the call when [since] is absent, empty or not a time; the one
    of the processing times 24 hours before it. *)
Theorem performance_routes_limit (since : option string) (n : N) (now now_queue : Z)
  (tracker : Tracker) :
  let asked := if (n =? 0)%N then 100%nat else N.to_nat n in
  let points :=
    List.filter
      (fun p => or_number (parseSince now (Some (or_string since "1h"))) (now - 3600000)
                <=? Queue.timestamp p)
      (queueHistory tracker) in
  let records :=
    List.filter
      (fun p => or_number (parseSince now (Some (or_string since "24h"))) (now - 86400000)
                <=? timestamp p)
      (processingTimes tracker) in
  (Queue.history (handleGetQueueHistory since None now tracker) = Laws.lastn 100 points /\
   Queue.history (handleGetQueueHistory since (Some (pretty n)) now tracker) =
     Laws.lastn asked points /\
   Queue.history (handleGetQueueHistory since (Some ("-" +:+ pretty n)) now tracker) =
     (if (n =? 0)%N then Laws.lastn 100 points else List.skipn (N.to_nat n) points)) /\
  (times (handleGetProcessingTimes since None now now_queue tracker) =
     Laws.lastn 100 records /\
   times (handleGetProcessingTimes since (Some (pretty n)) now now_queue tracker) =
     Laws.lastn asked records /\
   times (handleGetProcessingTimes since (Some ("-" +:+ pretty n)) now now_queue tracker) =
     (if (n =? 0)%N then Laws.lastn 100 records else List.skipn (N.to_nat n) records)).
Proof.
  intros asked points records.
  destruct (route_limit n) as (Hnone & Hplain & Hminus).
  assert (Hasked : (if (n =? 0)%N then 100 else Z.of_N n) = Z.of_nat asked /\
                   (0 < asked)%nat).
  { unfold asked. destruct (N.eqb_spec n 0); split; lia. }
  destruct Hasked as [Hasked Hpos].
  assert (Hneg : forall A (l : list A),
            slice_from_end (if (n =? 0)%N then 100 else - Z.of_N n) l =
            if (n =? 0)%N then Laws.lastn 100 l else List.skipn (N.to_nat n) l).
  { intros A l. destruct (N.eqb_spec n 0) as [-> | Hne].
    - apply slice_from_end_lastn. lia.
    - rewrite <- slice_from_end_negative. f_equal. lia. }
  split.
  - unfold handleGetQueueHistory, getQueueHistory. cbv zeta. cbn [Queue.history].
    rewrite Hnone, Hplain, Hminus, Hasked, Hneg.
    change (now - 60 * 60 * 1000) with (now - 3600000). fold points.
    rewrite !slice_from_end_lastn by lia.
    rewrite Nat2Z.id. repeat split.
  - unfold handleGetProcessingTimes. cbv zeta.
    rewrite Hnone, Hplain, Hminus, Hasked.
    destruct (getProcessingTimes_shape (Some (or_string since "24h")) (Some 100)
                now now_queue tracker) as (f1 & ? & ? & ? & ? & -> & -> & _).
    destruct (getProcessingTimes_shape (Some (or_string since "24h"))
                (Some (Z.of_nat asked)) now now_queue tracker)
      as (f2 & ? & ? & ? & ? & -> & -> & _).
    destruct (getProcessingTimes_shape (Some (or_string since "24h"))
                (Some (if (n =? 0)%N then 100 else - Z.of_N n)) now now_queue tracker)
      as (f3 & ? & ? & ? & ? & -> & -> & _).
    cbn [times]. rewrite Hneg.
    change (now - 24 * 60 * 60 * 1000) with (now - 86400000). fold records.
    rewrite !slice_from_end_lastn by lia.
    rewrite Nat2Z.id. repeat split.
Qed.
End RouteFacts.

(** ** The executable of the agent *)

Section ExecutableFacts.
Import JS SDKAgent.

Lemma trimStart_head (l : list ascii) :
  match trimStart_chars l with
  | [] => True
  | c :: _ => is_whitespace c = false
  end.
Proof.
  induction l as [|c r IH]; cbn [trimStart_chars]; [exact I|].
  destruct (is_whitespace c) eqn:Hc; [exact IH | exact Hc].
Qed.

Lemma trimStart_snoc (l : list ascii) (c : ascii) :
  is_whitespace c = false -> trimStart_chars (l ++ [c]) = trimStart_chars l ++ [c].
Proof.
  intros Hc. induction l as [|d r IH]; cbn [trimStart_chars List.app].
  - rewrite Hc. reflexivity.
  - destruct (is_whitespace d); [exact IH | reflexivity].
Qed.

Lemma trimEnd_cons (c : ascii) (r : list ascii) :
  is_whitespace c = false -> trimEnd_chars (c :: r) = c :: trimEnd_chars r.
Proof.
  intros Hc. unfold trimEnd_chars. cbn [List.rev].
  rewrite trimStart_snoc by exact Hc. rewrite rev_app_distr. reflexivity.
Qed.

Lemma trimStart_idem (l : list ascii) :
  trimStart_chars (trimStart_chars l) = trimStart_chars l.
Proof.
  induction l as [|c r IH]; cbn [trimStart_chars]; [reflexivity|].
  destruct (is_whitespace c) eqn:Hc; [exact IH|].
  cbn [trimStart_chars]. rewrite Hc. reflexivity.
Qed.

Lemma trimEnd_idem (l : list ascii) : trimEnd_chars (trimEnd_chars l) = trimEnd_chars l.
Proof.
  unfold trimEnd_chars. rewrite rev_involutive, trimStart_idem. reflexivity.
Qed.

Lemma chars_str (l : list ascii) : chars (str l) = l.
Proof. apply list_ascii_of_string_of_list_ascii. Qed.

(** A trimmed text has nothing left to trim. *)
Lemma trim_idem (s : string) : trim (trim s) = trim s.
Proof.
  unfold trim. rewrite chars_str. f_equal.
  pose proof (trimStart_head (chars s)) as Hhead.
  destruct (trimStart_chars (chars s)) as [|c r]; [reflexivity|].
  rewrite trimEnd_cons by exact Hhead.
  cbn [trimStart_chars]. rewrite Hhead.
  rewrite trimEnd_cons by exact Hhead. rewrite trimEnd_idem. reflexivity.
Qed.

Lemma first_segment_prefix (c : ascii) (l : list ascii) :
  ~ In c (first_segment c l) /\ exists rest, l = first_segment c l ++ rest.
Proof.
  induction l as [|d r [Hout [rest IH]]]; cbn [first_segment].
  - split; [intros []|]. exists []. reflexivity.
  - destruct (Ascii.eqb d c) eqn:Hdc.
    + split; [intros []|]. exists (d :: r). reflexivity.
    + split.
      * intros [-> | Hin]; [rewrite Ascii.eqb_refl in Hdc; discriminate | exact (Hout Hin)].
      * exists rest. cbn [List.app]. rewrite <- IH. reflexivity.
Qed.

Lemma part_of_chars (piece whole : string) :
  Laws.part_of piece whole -> forall c, In c (chars piece) -> In c (chars whole).
Proof.
  intros (before & after & ->) c Hc. rewrite !chars_append.
  apply in_or_app. right. apply in_or_app. left. exact Hc.
Qed.

(** The first line of the trimmed output, trimmed. *)
Lemma lookup_line (output path : string) :
  trim (str (first_segment "010"%char (chars (trim output)))) = path ->
  Laws.part_of path output /\ ~ In "010"%char (chars path) /\ trim path = path.
Proof.
  set (line := str (first_segment "010"%char (chars (trim output)))). intros Hpath.
  destruct (first_segment_prefix "010"%char (chars (trim output))) as [Hout [rest Hrest]].
  assert (Hline : Laws.part_of line (trim output)).
  { exists EmptyString, (str rest). unfold line.
    change (EmptyString +:+ ?x) with x.
    rewrite <- str_app, <- Hrest. symmetry. apply str_chars. }
  assert (Htrimmed : Laws.part_of path line) by (rewrite <- Hpath; apply trim_part_of).
  split; [|split].
  - eapply part_of_trans; [exact Htrimmed|].
    eapply part_of_trans; [exact Hline | apply trim_part_of].
  - intros Hin. apply (part_of_chars _ _ Htrimmed) in Hin.
    unfold line in Hin. rewrite chars_str in Hin. exact (Hout Hin).
  - rewrite <- Hpath. apply trim_idem.
Qed.

(** X22.  [findClaudeExecutable] never returns an empty path.  A path it
    returns is the configured one, and then the file test accepted it; or,
    with no path configured, it comes from the output of the lookup
    command: it is a part of that output, spans no line break and has no
    white space left at either end.  In every other case the call
    throws: a configured path that fails the file test is never replaced
    by a lookup. *)
Theorem findClaudeExecutable_path (CLAUDE_CODE_PATH : option string)
  (existsSync : string -> bool) (execSync : Completion string) :
  match findClaudeExecutable CLAUDE_CODE_PATH existsSync execSync with
  | Normal path =>
      path <> EmptyString /\
      ((CLAUDE_CODE_PATH = Some path /\ existsSync path = true) \/
       (truthy_string CLAUDE_CODE_PATH = None /\
        exists output,
          execSync = Normal output /\
          Laws.part_of path output /\
          ~ In "010"%char (chars path) /\
          trim path = path))
  | Throw _ =>
      (exists path,
         CLAUDE_CODE_PATH = Some path /\ path <> EmptyString /\ existsSync path = false) \/
      (truthy_string CLAUDE_CODE_PATH = None /\
       match execSync with
       | Normal output =>
           trim (str (first_segment "010"%char (chars (trim output)))) = EmptyString
       | Throw _ => True
       end)
  end.
Proof.
  assert (Hlookup :
    match
      match execSync with
      | Normal output =>
          match truthy_string
                  (Some (trim (str (first_segment "010"%char (chars (trim output))))))
          with
          | Some claudePath => Normal claudePath
          | None => Throw not_found
          end
      | Throw _ => Throw not_found
      end
    with
    | Normal path =>
        path <> EmptyString /\
        exists output,
          execSync = Normal output /\
          Laws.part_of path output /\ ~ In "010"%char (chars path) /\ trim path = path
    | Throw _ =>
        match execSync with
        | Normal output =>
            trim (str (first_segment "010"%char (chars (trim output)))) = EmptyString
        | Throw _ => True
        end
    end).
  { destruct execSync as [output|e]; [|exact I].
    pose proof (lookup_line output _ eq_refl) as Hline.
    destruct (trim (str (first_segment "010"%char (chars (trim output)))))
      as [|d path]; cbn [truthy_string]; [reflexivity|].
    split; [discriminate|]. exists output. split; [reflexivity | exact Hline]. }
  unfold findClaudeExecutable.
  destruct CLAUDE_CODE_PATH as [[|c configured]|]; cbn [truthy_string].
  - destruct (match execSync with Normal _ => _ | Throw _ => _ end) as [path|e].
    + destruct Hlookup as [Hne Hpath]. split; [exact Hne|]. right. split; [reflexivity|].
      exact Hpath.
    + right. split; [reflexivity | exact Hlookup].
  - destruct (existsSync (String c configured)) eqn:Hexists.
    + split; [discriminate|]. left. split; reflexivity || exact Hexists.
    + left. exists (String c configured). repeat split; [discriminate | exact Hexists].
  - destruct (match execSync with Normal _ => _ | Throw _ => _ end) as [path|e].
    + destruct Hlookup as [Hne Hpath]. split; [exact Hne|]. right. split; [reflexivity|].
      exact Hpath.
    + right. split; [reflexivity | exact Hlookup].
Qed.
End ExecutableFacts.

(** ** The summary route *)

Section SummaryRoute.
Import JS TokenMetricsService.
Context {host : Host}.

Lemma filter_ext_all {A} (f g : A -> bool) (l : list A) :
  (forall x, f x = g x) -> List.filter f l = List.filter g l.
Proof.
  intros Hfg. induction l as [|x rest IH]; cbn [List.filter]; [reflexivity|].
  rewrite Hfg, IH. reflexivity.
Qed.

(** X23.  A [since] parameter that names no time does not narrow the
    summary route.  When [parseSince] finds neither a relative period nor
    a date in it (or finds the epoch itself), and no fresh entry is
    cached, the summary in the answer is the one over all observations of
    the project, the same as without the parameter, while the [period] of
    the answer repeats the parameter as it was given.  Both calls throw
    when the store is closed. *)
Theorem handleGetSummary_unparsed_since (project since : option string) (now : Z)
  (db : SessionStore.Database) (service : Service) :
  truthy_number (parseSince now since) = None ->
  getCached (summary_cacheKey project since) CACHE_TTL_MS now service = None ->
  getCached (summary_cacheKey project None) CACHE_TTL_MS now service = None ->
  match fst (TokenRoutes.handleGetSummary project since now db service),
        fst (TokenRoutes.handleGetSummary project None now db service) with
  | Normal (summary, period), Normal (all_time, _) =>
      summary = all_time /\
      summary =
        summarize
          (List.map select_summary_columns
             (List.filter (project_condition project) (SessionStore.observations db))) /\
      TokenRoutes.since period = or_string since "all" /\
      TokenRoutes.project period = or_string project "all"
  | Throw _, Throw _ => SessionStore.closed db = true
  | _, _ => False
  end.
Proof.
  intros Hparse Hmiss Hmiss_all. unfold TokenRoutes.handleGetSummary.
  rewrite !getSummary_miss by assumption.
  unfold SessionStore.all. destruct (SessionStore.closed db); cbn [fst]; [reflexivity|].
  rewrite (filter_ext_all _ (project_condition project))
    by (intros o; unfold since_condition; rewrite Hparse; apply andb_true_r).
  rewrite (filter_ext_all
             (fun o => project_condition project o &&
                       since_condition (parseSince now None) o)
             (project_condition project))
    by (intros o; apply andb_true_r).
  cbn [TokenRoutes.since TokenRoutes.project]. repeat split.
Qed.
End SummaryRoute.

Lemma handleGetSummary_unparsed_since_witness :
  let db := Examples.open_db Examples.three_rows in
  let service := TokenMetricsService.new_Service in
  JS.truthy_number
    (TokenMetricsService.parseSince (host := Examples.plain_host) 1700000000000
       (Some "7days")) = None /\
  match fst (TokenRoutes.handleGetSummary (host := Examples.plain_host) None (Some "7days")
               1700000000000 db service),
        fst (TokenRoutes.handleGetSummary (host := Examples.plain_host) None None
               1700000000000 db service) with
  | JS.Normal (summary, period), JS.Normal (all_time, _) =>
      summary = all_time /\
      summary =
        TokenMetricsService.summarize (host := Examples.plain_host)
          (List.map TokenMetricsService.select_summary_columns
             (List.filter (TokenMetricsService.project_condition None)
                (SessionStore.observations db))) /\
      TokenRoutes.since period = "7days" /\
      TokenRoutes.project period = "all"
  | JS.Throw _, JS.Throw _ => SessionStore.closed db = true
  | _, _ => False
  end.
Proof.
  intros db service. split; [reflexivity|].
  exact (handleGetSummary_unparsed_since (host := Examples.plain_host) None (Some "7days")
           1700000000000 db service eq_refl eq_refl eq_refl).
Defined.

(** ** The projection route *)

Section ProjectionRoute.
Import JS TokenMetricsService.
Context {host : Host}.

End ProjectionRoute.
